(** * gedcom-photos: the identifier builder and the record scanner of [main.py]

    A shallow embedding of [src/main.py] and the properties its specification
    states about it.

    Conventions of the embedding.
    - A Python [str] is a [string]: the characters are the code points below
      256, and the character classes below ([is_space], [is_decimal],
      [is_word], [char_lower]) are the ones CPython uses on that range.  The
      file is read as UTF-8, so that a line can hold characters beyond that
      range; they are not modelled.
    - A Python [int] is a [Z].  The two limits CPython (3.11 and later) sets
      by default on the conversions between [int] and [str] are modelled:
      [int()] refuses a literal of more than 4300 digits, and a format
      refuses an integer of more than 4300 digits.
    - A function that can raise returns a [result]; only subclasses of
      [Exception] are modelled (no asynchronous [KeyboardInterrupt]).
    - A function with effects is a computation [IO A] over a trace of events,
      the operating system and the network being oracles of an [Env]: a
      request, the opening of a file, a write and the closing of a file can
      each fail, with any exception.
    - [print] is taken to succeed: the standard output accepts every line. *)

From Stdlib Require Import String Ascii List ZArith NArith Bool Lia.
From Stdlib Require Import DecimalString.
From Stdlib Require DecimalN DecimalPos.
Import ListNotations.
Open Scope list_scope.
Open Scope string_scope.

(* ================================================================= *)
(** ** Characters *)

Definition code (c : ascii) : N := N_of_ascii c.

Definition in_range (lo hi : N) (c : ascii) : bool :=
  ((lo <=? code c) && (code c <=? hi))%N.

Definition is_code (n : N) (c : ascii) : bool := (code c =? n)%N.

(** [str.isspace] on one character: what [str.strip()] and [str.split()]
    treat as white space. *)
Definition is_space (c : ascii) : bool :=
  in_range 9 13 c || in_range 28 32 c || is_code 133 c || is_code 160 c.

(** The characters [int()] skips around a literal. *)
Definition is_int_space (c : ascii) : bool :=
  in_range 9 13 c || is_code 32 c || is_code 133 c || is_code 160 c.

(** [\d] of a [str] pattern. *)
Definition is_decimal (c : ascii) : bool := in_range 48 57 c.

(** [\w] of a [str] pattern: alphanumeric characters and the underscore. *)
Definition is_word (c : ascii) : bool :=
  is_decimal c || in_range 65 90 c || is_code 95 c || in_range 97 122 c
  || is_code 170 c || in_range 178 179 c || is_code 181 c
  || in_range 185 186 c || in_range 188 190 c
  || in_range 192 214 c || in_range 216 246 c || in_range 248 255 c.

(** [.] of a pattern compiled without [re.DOTALL]. *)
Definition is_dot (c : ascii) : bool := negb (is_code 10 c).

(** [str.lower] on one character. *)
Definition char_lower (c : ascii) : ascii :=
  if in_range 65 90 c || in_range 192 214 c || in_range 216 222 c
  then ascii_of_N (code c + 32)
  else c.

(** The class [[a-z0-9_]]. *)
Definition is_id_char (c : ascii) : bool :=
  in_range 97 122 c || in_range 48 57 c || is_code 95 c.

(* ================================================================= *)
(** ** Strings *)

Fixpoint str_all (p : ascii -> bool) (s : string) : bool :=
  match s with
  | EmptyString => true
  | String c s' => p c && str_all p s'
  end.

Fixpoint str_filter (p : ascii -> bool) (s : string) : string :=
  match s with
  | EmptyString => EmptyString
  | String c s' => if p c then String c (str_filter p s') else str_filter p s'
  end.

Fixpoint str_map (f : ascii -> ascii) (s : string) : string :=
  match s with
  | EmptyString => EmptyString
  | String c s' => String (f c) (str_map f s')
  end.

(** Truth value of a [str]: the empty string is false. *)
Definition nonempty (s : string) : bool :=
  match s with EmptyString => false | String _ _ => true end.

(** [s.lower()] *)
Definition lower (s : string) : string := str_map char_lower s.

(** [s.lstrip()], [s.rstrip()], [s.strip()] *)
Fixpoint lstrip_by (sp : ascii -> bool) (s : string) : string :=
  match s with
  | EmptyString => EmptyString
  | String c s' => if sp c then lstrip_by sp s' else s
  end.

Fixpoint rstrip_by (sp : ascii -> bool) (s : string) : string :=
  match s with
  | EmptyString => EmptyString
  | String c s' =>
      match rstrip_by sp s' with
      | EmptyString => if sp c then EmptyString else String c EmptyString
      | r => String c r
      end
  end.

Definition strip_by (sp : ascii -> bool) (s : string) : string :=
  rstrip_by sp (lstrip_by sp s).

Definition strip (s : string) : string := strip_by is_space s.

(** [s.split()]: the maximal runs of characters that are not white space. *)
Fixpoint split (s : string) : list string :=
  match s with
  | EmptyString => []
  | String c s' =>
      if is_space c then split s'
      else match s' with
           | EmptyString => [String c EmptyString]
           | String c' _ =>
               if is_space c' then String c EmptyString :: split s'
               else match split s' with
                    | w :: ws => String c w :: ws
                    | [] => [String c EmptyString]
                    end
           end
  end.

(** [sep.join(parts)] *)
Definition join (sep : string) (parts : list string) : string :=
  String.concat sep parts.

(** [s.startswith(p)] *)
Fixpoint startswith (p s : string) : bool :=
  match p with
  | EmptyString => true
  | String a p' =>
      match s with
      | String b s' => Ascii.eqb a b && startswith p' s'
      | EmptyString => false
      end
  end.

(** [sub in s] *)
Fixpoint contains (sub s : string) : bool :=
  startswith sub s ||
  match s with
  | EmptyString => false
  | String _ s' => contains sub s'
  end.

(** [s[n:]] *)
Fixpoint slice_from (n : nat) (s : string) : string :=
  match n, s with
  | O, _ => s
  | S n', String _ s' => slice_from n' s'
  | S _, EmptyString => EmptyString
  end.

(** [s.split(sep)] for a one-character separator. *)
Fixpoint split_on (sep : ascii) (s : string) : list string :=
  match s with
  | EmptyString => [EmptyString]
  | String c s' =>
      if Ascii.eqb c sep then EmptyString :: split_on sep s'
      else match split_on sep s' with
           | w :: ws => String c w :: ws
           | [] => [String c EmptyString]
           end
  end.

(* ================================================================= *)
(** ** Exceptions *)

Inductive exn : Type :=
| ValueError (msg : string)
| IndexError (msg : string)
| OtherError (class msg : string).
    (** any exception that is not a [ValueError]: the [OSError],
        [ConnectionError], [HTTPError], ... of the operating system and of
        [requests] *)

(** [str(e)] *)
Definition exn_str (e : exn) : string :=
  match e with
  | ValueError m | IndexError m | OtherError _ m => m
  end.

(** [isinstance(e, ValueError)] *)
Definition is_ValueError (e : exn) : bool :=
  match e with
  | ValueError _ => true
  | IndexError _ => false
  | OtherError _ _ => false
  end.

Inductive result (A : Type) : Type :=
| Ret (a : A)
| Raise (e : exn).
Arguments Ret {A} a.
Arguments Raise {A} e.

Definition rbind {A B : Type} (m : result A) (k : A -> result B) : result B :=
  match m with
  | Ret a => k a
  | Raise e => Raise e
  end.

Declare Scope result_scope.
Delimit Scope result_scope with result.
Notation "x <- m ;; k" := (rbind m (fun x => k))
  (at level 61, m at next level, right associativity) : result_scope.

(* ================================================================= *)
(** ** Regular expressions

    The two patterns of [create_person_id] are sequences of literal
    characters and of capture groups that hold one quantified character
    class, [(.*?)] or [(\d+)].  [re_match] is the backtracking matcher of
    [re.match] on such sequences: it matches a prefix of the subject and
    returns the captures, group 1 first. *)

Inductive item : Type :=
| Lit (c : ascii)
| LazyStar (cls : ascii -> bool)      (* [(cls*?)] *)
| GreedyPlus (cls : ascii -> bool).   (* [(cls+)] *)

Definition pattern := list item.

Definition lits (s : string) : pattern := map Lit (list_ascii_of_string s).

(** Put one more character in front of the capture under construction. *)
Definition grow (c : ascii) (gs : list string) : list string :=
  match gs with
  | g :: gs' => String c g :: gs'
  | [] => [String c EmptyString]
  end.

(** [(cls*?)] followed by the rest of the pattern, [k]: the shortest capture
    after which [k] matches. *)
Fixpoint lazy_star (cls : ascii -> bool) (k : string -> option (list string))
  (s : string) : option (list string) :=
  match k s with
  | Some gs => Some (EmptyString :: gs)
  | None =>
      match s with
      | String a s' => if cls a then option_map (grow a) (lazy_star cls k s') else None
      | EmptyString => None
      end
  end.

(** [(cls+)] followed by [k]: the longest capture after which [k] matches. *)
Fixpoint greedy_plus (cls : ascii -> bool) (k : string -> option (list string))
  (s : string) : option (list string) :=
  match s with
  | String a s' =>
      if cls a then
        match greedy_plus cls k s' with
        | Some gs => Some (grow a gs)
        | None => option_map (cons (String a EmptyString)) (k s')
        end
      else None
  | EmptyString => None
  end.

Fixpoint re_match (p : pattern) : string -> option (list string) :=
  match p with
  | [] => fun _ => Some []
  | Lit c :: p' =>
      fun s =>
        match s with
        | String a s' => if Ascii.eqb a c then re_match p' s' else None
        | EmptyString => None
        end
  | LazyStar cls :: p' => lazy_star cls (re_match p')
  | GreedyPlus cls :: p' => greedy_plus cls (re_match p')
  end.

(** [m.group(i)] for [i >= 1] *)
Definition group (m : list string) (i : nat) : result string :=
  match i with
  | O => Raise (IndexError "no such group")
  | S j => match nth_error m j with
           | Some g => Ret g
           | None => Raise (IndexError "no such group")
           end
  end.

(** [r'1 NAME (.*?) /(.*?)/'] *)
Definition name_re : pattern :=
  (lits "1 NAME " ++ [LazyStar is_dot] ++ lits " /" ++ [LazyStar is_dot]
   ++ lits "/")%list.

(** [r'2 DATE (\d+) (\w+) (\d+)'] *)
Definition date_re : pattern :=
  (lits "2 DATE " ++ [GreedyPlus is_decimal] ++ lits " " ++ [GreedyPlus is_word]
   ++ lits " " ++ [GreedyPlus is_decimal])%list.

(** [re.sub(r'[^a-z0-9_]', '', s)] *)
Definition re_sub_non_id (s : string) : string := str_filter is_id_char s.

(* ================================================================= *)
(** ** Integers and dates *)

Definition digit_value (c : ascii) : Z := Z.of_N (code c) - 48.

(** The digits of a decimal literal: one or more digits, single underscores
    allowed between two digits. *)
Fixpoint int_digits (acc : Z) (after_digit : bool) (s : string) : option Z :=
  match s with
  | EmptyString => if after_digit then Some acc else None
  | String c s' =>
      if is_decimal c then int_digits (10 * acc + digit_value c) true s'
      else if is_code 95 c && after_digit then
        match s' with
        | String c' _ => if is_decimal c' then int_digits acc false s' else None
        | EmptyString => None
        end
      else None
  end.

(** [str(n)] for [n >= 0] *)
Definition dec (n : N) : string := NilEmpty.string_of_uint (N.to_uint n).

(** The limit on the number of digits the conversions between [int] and
    [str] accept ([sys.int_info.default_max_str_digits]). *)
Definition max_str_digits : nat := 4300.

(** The [ValueError] of [int()] for a literal of [n] digits, beyond the
    limit. *)
Definition int_limit_error (n : nat) : exn :=
  ValueError ("Exceeds the limit (4300 digits) for integer string conversion: value has "
              ++ dec (N.of_nat n)
              ++ " digits; use sys.set_int_max_str_digits() to increase the limit").

(** The [ValueError] of the conversion of an [int] to decimal text, beyond
    the limit. *)
Definition str_limit_error : exn :=
  ValueError "Exceeds the limit (4300 digits) for integer string conversion; use sys.set_int_max_str_digits() to increase the limit".

(** The digits and underscores [int()] scans at the front of a literal. *)
Fixpoint digit_run (s : string) : string :=
  match s with
  | String c s' =>
      if is_decimal c || is_code 95 c then String c (digit_run s') else EmptyString
  | EmptyString => EmptyString
  end.

(** [int(s)] for a [str]: white space around, an optional sign, the digits.
    The digits at the front are scanned and counted first: more than 4300 of
    them raise the [ValueError] of the limit, whatever follows them.  The
    message of the other [ValueError] shows [s] between quotes (not its full
    [repr]). *)
Definition py_int (s : string) : result Z :=
  let t := strip_by is_int_space s in
  let body :=
    match t with
    | String c r => if Ascii.eqb c "+" || Ascii.eqb c "-" then r else t
    | EmptyString => t
    end in
  let run := digit_run body in
  let n := String.length (str_filter is_decimal run) in
  let invalid :=
    Raise (ValueError ("invalid literal for int() with base 10: '" ++ s ++ "'")) in
  match int_digits 0 false run with
  | Some _ =>
      if (max_str_digits <? n)%nat then Raise (int_limit_error n)
      else
        match int_digits 0 false body with
        | Some z =>
            match t with
            | String c _ => Ret (if Ascii.eqb c "-" then Z.opp z else z)
            | EmptyString => invalid
            end
        | None => invalid
        end
  | None => invalid
  end.

Fixpoint zeros (n : nat) : string :=
  match n with
  | O => EmptyString
  | S n' => String "0" (zeros n')
  end.

(** [s.zfill(w)] for a string of digits *)
Definition zfill (w : nat) (s : string) : string := zeros (w - String.length s) ++ s.

(** The text of [f"{z:02d}"]: the sign counts in the width. *)
Definition pad_02d (z : Z) : string :=
  if (z <? 0)%Z then "-" ++ zfill 1 (dec (Z.abs_N z)) else zfill 2 (dec (Z.to_N z)).

(** [f"{z:02d}"]: an [int] of more than 4300 decimal digits is not
    converted. *)
Definition format_02d (z : Z) : result string :=
  if (10 ^ Z.of_nat max_str_digits <=? Z.abs z)%Z then Raise str_limit_error
  else Ret (pad_02d z).

(** The abbreviated month names of the C locale, as [_strptime] holds them. *)
Definition month_abbr : list string :=
  ["jan"; "feb"; "mar"; "apr"; "may"; "jun"; "jul"; "aug"; "sep"; "oct"; "nov"; "dec"].

(** [p] (in lower case) matches a prefix of [s] under [re.IGNORECASE];
    the rest of [s] is returned. *)
Fixpoint ci_prefix (p s : string) : option string :=
  match p with
  | EmptyString => Some s
  | String a p' =>
      match s with
      | String b s' => if Ascii.eqb (char_lower b) a then ci_prefix p' s' else None
      | EmptyString => None
      end
  end.

Fixpoint find_month (abbrs : list string) (i : Z) (s : string) : option (Z * string) :=
  match abbrs with
  | [] => None
  | a :: abbrs' =>
      match ci_prefix a s with
      | Some rest => Some (i, rest)
      | None => find_month abbrs' (i + 1) s
      end
  end.

(** [datetime.strptime(s, '%b').month] *)
Definition strptime_b (s : string) : result Z :=
  match find_month month_abbr 1 s with
  | None => Raise (ValueError ("time data '" ++ s ++ "' does not match format '%b'"))
  | Some (m, rest) =>
      if nonempty rest then Raise (ValueError ("unconverted data remains: " ++ rest))
      else Ret m
  end.

(* ================================================================= *)
(** ** [create_person_id] ([main.py], lines 45 to 82) *)

Definition create_person_id (name birth_date : string) : result (option string) :=
  match re_match name_re name with
  | None => Ret None
  | Some name_match =>
      (g1 <- group name_match 1 ;;
       let given_name := strip g1 in
       g2 <- group name_match 2 ;;
       let surname := strip g2 in
       match re_match date_re birth_date with
       | None => Ret None
       | Some date_match =>
           d <- group date_match 1 ;;
           day <- py_int d ;;
           month <- group date_match 2 ;;
           year <- group date_match 3 ;;
           match strptime_b month with
           | Raise e => if is_ValueError e then Ret None else Raise e
           | Ret month_num =>
               mm <- format_02d month_num ;;
               dd <- format_02d day ;;
               let date_part := year ++ "-" ++ mm ++ "-" ++ dd in
               let name_parts := (map strip (split given_name) ++ [surname])%list in
               let name_part := lower (join "_" name_parts) in
               let name_part := re_sub_non_id name_part in
               Ret (Some (date_part ++ "_" ++ name_part))
           end
       end)%result
  end.

(* ================================================================= *)
(** ** Paths

    [pathlib.PurePosixPath]: a root and the components after it.  Empty
    components and [.] are dropped when a path is built from a string. *)

Record Path : Type := { root : string; parts : list string }.

Definition path_root (s : string) : string :=
  match s with
  | String "/" (String "/" (String "/" _)) => "/"
  | String "/" (String "/" _) => "//"
  | String "/" _ => "/"
  | _ => ""
  end.

Definition is_component (x : string) : bool := nonempty x && negb (x =? ".").

(** [Path(s)] *)
Definition Path_of (s : string) : Path :=
  {| root := path_root s; parts := filter is_component (split_on "/" s) |}.

(** [p / s] *)
Definition joinpath (p : Path) (s : string) : Path :=
  let q := Path_of s in
  if nonempty (root q) then q
  else {| root := root p; parts := (parts p ++ parts q)%list |}.

(** [str(p)] *)
Definition path_str (p : Path) : string :=
  match root p, parts p with
  | EmptyString, [] => "."
  | r, ps => r ++ join "/" ps
  end.

(* ================================================================= *)
(** ** Effects

    What the program does to the outside world is recorded, in order, in a
    trace.  [Call_download_photo] records the call of [download_photo]
    itself, with its arguments; the other events are the system calls. *)

Inductive event : Type :=
| Stdout (line : string)                              (* [print(line)] *)
| Mkdir (dir : Path)                                  (* [dir.mkdir(exist_ok=True)] *)
| OpenRead (file : string)                            (* [open(file, 'r')] *)
| Call_download_photo (url : string) (filename : Path)
| HttpGet (url : string)                              (* [requests.get(url)] *)
| OpenWrite (file : Path)                             (* [open(file, 'wb')] *)
| FileWrite (file : Path) (chunk : string)            (* [f.write(chunk)] *)
| Close (file : Path).                                (* leaving [with open(...)] *)

Definition trace := list event.

(** What [requests.get] returned: the error [raise_for_status] raises, if
    any, the chunks [iter_content] yields and the error that ends the stream,
    if any. *)
Record response : Type :=
  { status_error : option exn; chunks : list string; stream_error : option exn }.

(** The outside world.  Each oracle sees the trace so far. *)
Record Env : Type :=
  { os_path_exists : string -> bool;
    os_access_read : string -> bool;
    os_mkdir : trace -> Path -> option exn;
    (** the lines the file yields, and the error that ends the iteration *)
    os_open_read : trace -> string -> result (list string * option exn);
    requests_get : trace -> string -> result response;
    os_open_write : trace -> Path -> option exn;
    os_write : trace -> Path -> string -> option exn;
    (** closing the file flushes what was written, and can fail *)
    os_close : trace -> Path -> option exn }.

Definition IO (A : Type) : Type := trace -> result A * trace.

Definition ret {A : Type} (a : A) : IO A := fun t => (Ret a, t).

Definition raise {A : Type} (e : exn) : IO A := fun t => (Raise e, t).

Definition bind {A B : Type} (m : IO A) (k : A -> IO B) : IO B :=
  fun t =>
    match m t with
    | (Ret a, t') => k a t'
    | (Raise e, t') => (Raise e, t')
    end.

Definition lift {A : Type} (r : result A) : IO A := fun t => (r, t).

Definition emit (e : event) : IO unit := fun t => (Ret tt, (t ++ [e])%list).

(** [try: body except Exception as e: handler(e)] *)
Definition try_except {A : Type} (body : IO A) (handler : exn -> IO A) : IO A :=
  fun t =>
    match body t with
    | (Ret a, t') => (Ret a, t')
    | (Raise e, t') => handler e t'
    end.

Declare Scope io_scope.
Delimit Scope io_scope with io.
Notation "x <- m ;; k" := (bind m (fun x => k))
  (at level 61, m at next level, right associativity) : io_scope.
Notation "m ;;; k" := (bind m (fun _ => k))
  (at level 61, right associativity) : io_scope.

(** [print(line)]: the line goes to the standard output, which is taken to
    accept it. *)
Definition print (line : string) : IO unit := emit (Stdout line).

(** The state of the scan: the local variables of [process_gedcom_file]. *)
Record scan_state : Type :=
  { current_person : option string;
    current_name : option string;
    current_birth_date : option string;
    photo_count : Z }.

Definition initial_state : scan_state :=
  {| current_person := None; current_name := None;
     current_birth_date := None; photo_count := 0 |}.

Section Program.

Variable env : Env.

Local Open Scope io_scope.

(** The action of a system call whose oracle answers with an optional
    error: the event is recorded, then the error raised. *)
Definition syscall (ev : event) (answer : trace -> option exn) : IO unit :=
  fun t =>
    match answer t with
    | Some e => (Raise e, (t ++ [ev])%list)
    | None => (Ret tt, (t ++ [ev])%list)
    end.

Definition http_get (url : string) : IO response :=
  fun t => (requests_get env t url, (t ++ [HttpGet url])%list).

Definition raise_for_status (r : response) : IO unit :=
  match status_error r with
  | Some e => raise e
  | None => ret tt
  end.

(** [for chunk in response.iter_content(chunk_size=8192): f.write(chunk)] *)
Fixpoint write_chunks (file : Path) (cs : list string) (stop : option exn) : IO unit :=
  match cs with
  | [] => match stop with Some e => raise e | None => ret tt end
  | c :: cs' =>
      syscall (FileWrite file c) (fun t => os_write env t file c) ;;;
      write_chunks file cs' stop
  end.

(** [validate_file] ([main.py], lines 34 to 42) *)
Definition validate_file (file_path : string) : IO bool :=
  if negb (os_path_exists env file_path) then
    print ("Error: File '" ++ file_path ++ "' does not exist.") ;;;
    ret false
  else if negb (os_access_read env file_path) then
    print ("Error: File '" ++ file_path ++ "' is not readable.") ;;;
    ret false
  else ret true.

(** Leaving the block of [with open(...) as f]: the file is closed, whether
    the block returned or raised; an error of the closing replaces the
    outcome of the block. *)
Definition closing {A : Type} (file : Path) (block : IO A) : IO A :=
  fun t =>
    match block t with
    | (r, t') =>
        match os_close env t' file with
        | Some e => (Raise e, (t' ++ [Close file])%list)
        | None => (r, (t' ++ [Close file])%list)
        end
    end.

(** The [try] block of [download_photo] ([main.py], lines 88 to 94). *)
Definition download_photo_try (url : string) (filename : Path) : IO bool :=
  response <- http_get url ;;
  raise_for_status response ;;;
  syscall (OpenWrite filename) (fun t => os_open_write env t filename) ;;;
  closing filename
    (write_chunks filename (chunks response) (stream_error response)) ;;;
  ret true.

(** [download_photo] ([main.py], lines 85 to 97); the first event records
    the call. *)
Definition download_photo (url : string) (filename : Path) : IO bool :=
  emit (Call_download_photo url filename) ;;;
  try_except
    (download_photo_try url filename)
    (fun e =>
       print ("Error downloading " ++ url ++ ": " ++ exn_str e) ;;;
       ret false).

(** The body of the loop of [process_gedcom_file], for one line of the
    file ([main.py], lines 113 to 142); each [continue] is the end of a
    branch. *)
Definition process_line (photos_dir : Path) (st : scan_state) (raw : string)
  : IO scan_state :=
  let line := strip raw in
  if startswith "0 @I" line && contains " INDI" line then
    ret {| current_person := Some line; current_name := None;
           current_birth_date := None; photo_count := 0 |}
  else if startswith "1 NAME " line then
    ret {| current_person := current_person st; current_name := Some line;
           current_birth_date := current_birth_date st;
           photo_count := photo_count st |}
  else if startswith "2 DATE " line then
    ret {| current_person := current_person st; current_name := current_name st;
           current_birth_date := Some line; photo_count := photo_count st |}
  else if startswith "2 FILE " line then
    match current_name st, current_birth_date st with
    | Some name, Some birth_date =>
        if nonempty name && nonempty birth_date then
          person_id <- lift (create_person_id name birth_date) ;;
          match person_id with
          | Some id =>
              if nonempty id then
                let url := slice_from 7 line in
                let count := (photo_count st + 1)%Z in
                nn <- lift (format_02d count) ;;
                let filename := joinpath photos_dir (id ++ "_" ++ nn ++ ".jpg") in
                print ("Downloading " ++ url ++ " to " ++ path_str filename) ;;;
                download_photo url filename ;;;
                ret {| current_person := current_person st;
                       current_name := current_name st;
                       current_birth_date := current_birth_date st;
                       photo_count := count |}
              else ret st
          | None => ret st
          end
        else ret st
    | _, _ => ret st
    end
  else ret st.

(** [for line in f: ...] *)
Fixpoint scan (photos_dir : Path) (lines : list string) (st : scan_state)
  : IO scan_state :=
  match lines with
  | [] => ret st
  | raw :: lines' =>
      st' <- process_line photos_dir st raw ;;
      scan photos_dir lines' st'
  end.

(** [process_gedcom_file] ([main.py], lines 100 to 142) *)
Definition process_gedcom_file (file_path : string) : IO unit :=
  let photos_dir := Path_of "./photos" in
  syscall (Mkdir photos_dir) (fun t => os_mkdir env t photos_dir) ;;;
  f <- (fun t => (os_open_read env t file_path, (t ++ [OpenRead file_path])%list)) ;;
  scan photos_dir (fst f) initial_state ;;;
  match snd f with
  | Some e => raise e
  | None => ret tt
  end.

(** [main] ([main.py], lines 145 to 152), after [parse_args] returned [args]
    with [args.ged_file]. *)
Definition main (ged_file : string) : IO Z :=
  valid <- validate_file ged_file ;;
  if negb valid then ret 1%Z
  else process_gedcom_file ged_file ;;; ret 0%Z.

End Program.

(** The exit status of [sys.exit(main())]: an exception that nothing
    catches ends the interpreter with status 1. *)
Definition exit_status (r : result Z) : Z :=
  match r with
  | Ret z => z
  | Raise _ => 1
  end.

(** The calls of [download_photo] in a trace, in order. *)
Definition calls (t : trace) : list (string * Path) :=
  flat_map (fun ev => match ev with
                      | Call_download_photo u f => [(u, f)]
                      | _ => []
                      end) t.

(** An outside world in which everything works and every URL serves the
    same two chunks. *)
Definition friendly : Env :=
  {| os_path_exists := fun _ => true;
     os_access_read := fun _ => true;
     os_mkdir := fun _ _ => None;
     os_open_read := fun _ _ => Ret ([], None);
     requests_get := fun _ _ =>
       Ret {| status_error := None; chunks := ["JFIF"; "data"]; stream_error := None |};
     os_open_write := fun _ _ => None;
     os_write := fun _ _ _ => None;
     os_close := fun _ _ => None |}.

(** An outside world that holds one file, [family.ged], and in which every
    request fails with an HTTP error. *)
Definition offline (lines : list string) : Env :=
  {| os_path_exists := fun f => f =? "family.ged";
     os_access_read := fun f => f =? "family.ged";
     os_mkdir := fun _ _ => None;
     os_open_read := fun _ f =>
       if f =? "family.ged" then Ret (lines, None)
       else Raise (OtherError "FileNotFoundError" "No such file or directory");
     requests_get := fun _ url =>
       Ret {| status_error := Some (OtherError "HTTPError" ("404 Client Error: Not Found for url: " ++ url));
              chunks := []; stream_error := None |};
     os_open_write := fun _ _ => None;
     os_write := fun _ _ _ => None;
     os_close := fun _ _ => None |}.

(** An outside world in which every URL serves two chunks and the disk is
    full at the second. *)
Definition disk_full : Env :=
  {| os_path_exists := fun _ => true;
     os_access_read := fun _ => true;
     os_mkdir := fun _ _ => None;
     os_open_read := fun _ _ => Ret ([], None);
     requests_get := fun _ _ =>
       Ret {| status_error := None; chunks := ["JFIF"; "data"]; stream_error := None |};
     os_open_write := fun _ _ => None;
     os_write := fun _ _ c =>
       if c =? "data" then Some (OtherError "OSError" "[Errno 28] No space left on device")
       else None;
     os_close := fun _ _ => None |}.

(** An outside world in which every write is accepted and the closing of
    the file fails. *)
Definition flush_fails : Env :=
  {| os_path_exists := fun _ => true;
     os_access_read := fun _ => true;
     os_mkdir := fun _ _ => None;
     os_open_read := fun _ _ => Ret ([], None);
     requests_get := fun _ _ =>
       Ret {| status_error := None; chunks := ["JFIF"; "data"]; stream_error := None |};
     os_open_write := fun _ _ => None;
     os_write := fun _ _ _ => None;
     os_close := fun _ _ => Some (OtherError "OSError" "[Errno 5] Input/output error") |}.

Definition scenario : list string :=
  ["0 @I1@ INDI"; "1 NAME John /Smith/"; "2 DATE 15 Jan 1980";
   "2 FILE http://example.com/a.jpg"; "2 FILE http://example.com/b.jpg"].

(* ================================================================= *)
(** * Notions used to state and to prove the properties *)

(** The subject a match covers: the literals and the captures, in order. *)
Fixpoint instantiate (p : pattern) (gs : list string) : string :=
  match p with
  | [] => ""
  | Lit c :: p' => String c (instantiate p' gs)
  | LazyStar _ :: p' | GreedyPlus _ :: p' =>
      match gs with
      | g :: gs' => g ++ instantiate p' gs'
      | [] => ""
      end
  end.

(** Every capture holds characters of its class only, and one at least under
    [+]. *)
Fixpoint captures_ok (p : pattern) (gs : list string) : Prop :=
  match p with
  | [] => gs = []
  | Lit _ :: p' => captures_ok p' gs
  | LazyStar cls :: p' =>
      match gs with
      | g :: gs' => str_all cls g = true /\ captures_ok p' gs'
      | [] => False
      end
  | GreedyPlus cls :: p' =>
      match gs with
      | g :: gs' => str_all cls g = true /\ g <> "" /\ captures_ok p' gs'
      | [] => False
      end
  end.

(** The number a string of decimal digits denotes. *)
Fixpoint digits_value (acc : Z) (s : string) : Z :=
  match s with
  | EmptyString => acc
  | String c s' => digits_value (10 * acc + digit_value c) s'
  end.

Definition int_of_digits (s : string) : Z := digits_value 0 s.

(** Lower case, and every character outside [[a-z0-9_]] deleted. *)
Definition normalize (s : string) : string := re_sub_non_id (lower s).

(** The name part of an identifier, from the two captures of the name
    pattern. *)
Definition name_part (g1 g2 : string) : string :=
  re_sub_non_id (lower (join "_" (map strip (split (strip g1)) ++ [strip g2])%list)).

(** A given name: characters that are not white space, one at least. *)
Definition is_name_word (w : string) : bool :=
  nonempty w && str_all (fun c => negb (is_space c)) w.

(** The kinds of line the scanner tells apart. *)
Definition is_boundary (raw : string) : bool :=
  startswith "0 @I" (strip raw) && contains " INDI" (strip raw).

Definition is_name_line (raw : string) : bool := startswith "1 NAME " (strip raw).

Definition is_date_line (raw : string) : bool := startswith "2 DATE " (strip raw).

Definition is_file_line (raw : string) : bool := startswith "2 FILE " (strip raw).

(** The URL of a photo line. *)
Definition photo_url (raw : string) : string := slice_from 7 (strip raw).

(** The file the [n]-th photo of the person [id] goes to. *)
Definition target (id : string) (n : Z) : Path :=
  Path_of ("./photos/" ++ id ++ "_" ++ pad_02d n ++ ".jpg").

(** A character that is not the separator of paths. *)
Definition not_slash (c : ascii) : bool := negb (Ascii.eqb c "/").

(** The identifier a photo line gets in the state [st], if any: what the two
    tests of the loop body let through when [create_person_id] returns. *)
Definition derived_id (st : scan_state) : option string :=
  match current_name st, current_birth_date st with
  | Some name, Some birth_date =>
      if nonempty name && nonempty birth_date then
        match create_person_id name birth_date with
        | Ret (Some id) => if nonempty id then Some id else None
        | _ => None
        end
      else None
  | _, _ => None
  end.

(** The exception the loop body raises at a photo line in the state [st],
    if any: the one of [create_person_id], or the one of the format of the
    counter. *)
Definition photo_error (st : scan_state) : option exn :=
  match current_name st, current_birth_date st with
  | Some name, Some birth_date =>
      if nonempty name && nonempty birth_date then
        match create_person_id name birth_date with
        | Raise e => Some e
        | Ret (Some id) =>
            if nonempty id then
              match format_02d (photo_count st + 1) with
              | Raise e => Some e
              | Ret _ => None
              end
            else None
        | Ret None => None
        end
      else None
  | _, _ => None
  end.

(** The exception the loop body raises at the line [raw] in the state [st],
    if any. *)
Definition line_error (st : scan_state) (raw : string) : option exn :=
  if is_boundary raw then None
  else if is_name_line raw then None
  else if is_date_line raw then None
  else if is_file_line raw then photo_error st
  else None.

(** The state after a line that raises nothing, and the download the line
    asks for: the loop body without its effects. *)
Definition advance (st : scan_state) (raw : string) : scan_state :=
  if is_boundary raw then
    {| current_person := Some (strip raw); current_name := None;
       current_birth_date := None; photo_count := 0 |}
  else if is_name_line raw then
    {| current_person := current_person st; current_name := Some (strip raw);
       current_birth_date := current_birth_date st; photo_count := photo_count st |}
  else if is_date_line raw then
    {| current_person := current_person st; current_name := current_name st;
       current_birth_date := Some (strip raw); photo_count := photo_count st |}
  else if is_file_line raw then
    match derived_id st with
    | Some _ =>
        {| current_person := current_person st; current_name := current_name st;
           current_birth_date := current_birth_date st;
           photo_count := photo_count st + 1 |}
    | None => st
    end
  else st.

Definition request (photos_dir : Path) (st : scan_state) (raw : string)
  : list (string * Path) :=
  if is_boundary raw then []
  else if is_name_line raw then []
  else if is_date_line raw then []
  else if is_file_line raw then
    match derived_id st with
    | Some id =>
        [(photo_url raw,
          joinpath photos_dir (id ++ "_" ++ pad_02d (photo_count st + 1) ++ ".jpg"))]
    | None => []
    end
  else [].

(** The exception that ends the loop over [lines], if any: the one of the
    first line that raises. *)
Fixpoint scan_error (st : scan_state) (lines : list string) : option exn :=
  match lines with
  | [] => None
  | raw :: lines' =>
      match line_error st raw with
      | Some e => Some e
      | None => scan_error (advance st raw) lines'
      end
  end.

(** The downloads the loop asks for, up to the first line that raises. *)
Fixpoint requests (photos_dir : Path) (st : scan_state) (lines : list string)
  : list (string * Path) :=
  match lines with
  | [] => []
  | raw :: lines' =>
      match line_error st raw with
      | Some _ => []
      | None =>
          (request photos_dir st raw
           ++ requests photos_dir (advance st raw) lines')%list
      end
  end.

Definition advance_all (st : scan_state) (lines : list string) : scan_state :=
  fold_left advance lines st.

(** What the loop over [lines] ends with. *)
Definition scan_result (st : scan_state) (lines : list string) : result scan_state :=
  match scan_error st lines with
  | Some e => Raise e
  | None => Ret (advance_all st lines)
  end.

(** An identifier is derived in the state [st]: a name line and a date line
    are stored, and [create_person_id] returns [id] for them. *)
Definition derives (st : scan_state) (id : string) : Prop :=
  exists name birth_date,
    current_name st = Some name /\ current_birth_date st = Some birth_date
    /\ create_person_id name birth_date = Ret (Some id).

(** No identifier is derived in the state [st], and nothing is raised: the
    name or the date is missing, or [create_person_id] returns [None] for
    them. *)
Definition no_identifier (st : scan_state) : Prop :=
  current_name st = None \/ current_birth_date st = None
  \/ exists name birth_date,
       current_name st = Some name /\ current_birth_date st = Some birth_date
       /\ create_person_id name birth_date = Ret None.

(** The counter after the next photo is within the limit of the format. *)
Definition formats_next (st : scan_state) : Prop :=
  (Z.abs (photo_count st + 1) < 10 ^ Z.of_nat max_str_digits)%Z.

(** The day of a date line has at most 4300 digits, so that [int()]
    converts it. *)
Definition day_within_limit (line : string) : bool :=
  match re_match date_re line with
  | Some (d :: _) => (String.length d <=? max_str_digits)%nat
  | _ => true
  end.

(** The date a state stores, if any, has a day within the limit. *)
Definition stored_day_within_limit (st : scan_state) : Prop :=
  match current_birth_date st with
  | Some birth_date => day_within_limit birth_date = true
  | None => True
  end.

(** ** The photos of a record, in the words of the specification *)

(** The last line of the kind [kind] among [lines], stripped. *)
Fixpoint last_of (kind : string -> bool) (lines : list string) : option string :=
  match lines with
  | [] => None
  | raw :: lines' =>
      match last_of kind lines' with
      | Some l => Some l
      | None => if kind raw then Some (strip raw) else None
      end
  end.

(** The identifier of the person after the lines [seen] of a record: the
    one [create_person_id] returns for the last name line and the last date
    line. *)
Definition identifier_after (seen : list string) : option string :=
  match last_of is_name_line seen, last_of is_date_line seen with
  | Some name, Some birth_date =>
      match create_person_id name birth_date with
      | Ret (Some id) => Some id
      | _ => None
      end
  | _, _ => None
  end.

(** The photos of a record: the URL and the identifier of each photo line
    for which an identifier is derived, in order; [seen] holds the lines of
    the record before [lines]. *)
Fixpoint photos_of (seen lines : list string) : list (string * string) :=
  match lines with
  | [] => []
  | raw :: lines' =>
      ((if is_file_line raw then
          match identifier_after seen with
          | Some id => [(photo_url raw, id)]
          | None => []
          end
        else [])
       ++ photos_of (seen ++ [raw]) lines')%list
  end.

(** The photos numbered from [n] on, each with the file of its number. *)
Fixpoint number_from (n : Z) (ps : list (string * string)) : list (string * Path) :=
  match ps with
  | [] => []
  | (url, id) :: ps' => (url, target id n) :: number_from (n + 1) ps'
  end.

(** The state but for the line of the person boundary, which the loop
    stores and never reads. *)
Definition same_record (st1 st2 : scan_state) : Prop :=
  current_name st1 = current_name st2
  /\ current_birth_date st1 = current_birth_date st2
  /\ photo_count st1 = photo_count st2.

(** Two runs of the loop end alike: in states that agree but for the line of
    the boundary, or with the same exception. *)
Definition same_outcome (r1 r2 : result scan_state) : Prop :=
  match r1, r2 with
  | Ret st1, Ret st2 => same_record st1 st2
  | Raise e1, Raise e2 => e1 = e2
  | _, _ => False
  end.

(** ** Characters of identifiers and of file names *)

(** Any character but [c]. *)
Definition is_not (c : ascii) (d : ascii) : bool := negb (Ascii.eqb d c).

(** The characters [[a-z0-9_]] and [-]. *)
Definition is_safe (c : ascii) : bool := is_id_char c || is_code 45 c.

(** The first character of [s] is a decimal digit. *)
Definition starts_with_digit (s : string) : bool :=
  match s with String c _ => is_decimal c | EmptyString => false end.


(** ** Readings of a trace *)

(** The URLs requested in a trace, in order. *)
Definition gets (t : trace) : list string :=
  flat_map (fun ev => match ev with HttpGet u => [u] | _ => [] end) t.

(** The files opened for writing, written to or closed, in order. *)
Definition written (t : trace) : list Path :=
  flat_map (fun ev => match ev with
                      | OpenWrite f | FileWrite f _ | Close f => [f]
                      | _ => []
                      end) t.

(** The lines printed, in order. *)
Definition prints (t : trace) : list string :=
  flat_map (fun ev => match ev with Stdout l => [l] | _ => [] end) t.

(** Every write of the chunks [cs] to [file] succeeds, after the trace [t]. *)
Fixpoint writes_ok (env : Env) (t : trace) (file : Path) (cs : list string) : bool :=
  match cs with
  | [] => true
  | c :: cs' =>
      match os_write env t file c with
      | None => writes_ok env (t ++ [FileWrite file c])%list file cs'
      | Some _ => false
      end
  end.

(** The line [download_photo] prints for the exception [e]. *)
Definition failure_line (url : string) (e : exn) : string :=
  ("Error downloading " ++ url ++ ": " ++ exn_str e)%string.

(** The line the loop prints before a download. *)
Definition announcement (c : string * Path) : string :=
  ("Downloading " ++ fst c ++ " to " ++ path_str (snd c))%string.

(** Every call of [download_photo] in the trace comes right after the line
    that announces it, and no other line printed starts with
    [Downloading ]. *)
Fixpoint announced (t : trace) : Prop :=
  match t with
  | [] => True
  | Stdout l :: t' =>
      match t' with
      | Call_download_photo u f :: t'' => l = announcement (u, f) /\ announced t''
      | _ => startswith "Downloading " l = false /\ announced t'
      end
  | Call_download_photo _ _ :: _ => False
  | _ :: t' => announced t'
  end.

(** The events of a download after its call and its request: the file of the
    call is opened, written to and closed, and no other; a line printed
    reports a failure. *)
Definition download_event (file : Path) (ev : event) : Prop :=
  match ev with
  | OpenWrite f | FileWrite f _ | Close f => f = file
  | Stdout l => startswith "Downloading " l = false
  | _ => False
  end.

(** An event that is no call and prints no line that starts with
    [Downloading ]. *)
Definition quiet_event (ev : event) : Prop :=
  match ev with
  | Call_download_photo _ _ => False
  | Stdout l => startswith "Downloading " l = false
  | _ => True
  end.

(** The trace does not start with a call. *)
Definition no_call_first (t : trace) : Prop :=
  match t with
  | Call_download_photo _ _ :: _ => False
  | _ => True
  end.

(** What a line adds to the trace: nothing, or the announcement, the call,
    the request and the events of the download. *)
Definition line_events (reqs : list (string * Path)) (new : trace) : Prop :=
  (reqs = [] /\ new = [])
  \/ exists url file rest,
       reqs = [(url, file)]
       /\ new = (Stdout (announcement (url, file)) :: Call_download_photo url file
                 :: HttpGet url :: rest)%list
       /\ Forall (download_event file) rest.


(** A line of one of the four kinds the loop tells apart. *)
Definition is_relevant (raw : string) : bool :=
  is_boundary raw || is_name_line raw || is_date_line raw || is_file_line raw.

(* ================================================================= *)
(** * Properties *)

(** ** Characters *)

Ltac by_char c :=
  destruct c as [[] [] [] [] [] [] [] []]; vm_compute; intros; congruence.

Lemma decimal_not_int_space c : is_decimal c = true -> is_int_space c = false.
Proof. by_char c. Qed.

Lemma decimal_not_sign c :
  is_decimal c = true -> Ascii.eqb c "+" = false /\ Ascii.eqb c "-" = false.
Proof. destruct c as [[] [] [] [] [] [] [] []]; vm_compute; intros; split; congruence. Qed.

Lemma space_lower_dropped c : is_space c = true -> is_id_char (char_lower c) = false.
Proof. by_char c. Qed.

Lemma lower_letter_is_word c : in_range 97 122 (char_lower c) = true -> is_word c = true.
Proof. by_char c. Qed.

Lemma id_char_not_slash c : is_id_char c = true -> Ascii.eqb c "/" = false.
Proof. by_char c. Qed.

Lemma decimal_not_slash c : is_decimal c = true -> Ascii.eqb c "/" = false.
Proof. by_char c. Qed.

Lemma digit_value_range c : is_decimal c = true -> (0 <= digit_value c <= 9)%Z.
Proof.
  destruct c as [[] [] [] [] [] [] [] []]; vm_compute; intros; split; congruence.
Qed.

(** ** Strings *)

Lemma append_assoc (a b c : string) : (a ++ b) ++ c = a ++ (b ++ c).
Proof. induction a as [|x a IH]; simpl; [reflexivity | now rewrite IH]. Qed.

Ltac normalize_append :=
  repeat (progress (rewrite ?append_assoc; cbn [append])).

Lemma append_nil_r (a : string) : a ++ "" = a.
Proof. induction a as [|x a IH]; simpl; [reflexivity | now rewrite IH]. Qed.

Lemma length_append (a b : string) :
  String.length (a ++ b) = (String.length a + String.length b)%nat.
Proof. induction a as [|x a IH]; simpl; [reflexivity | now rewrite IH]. Qed.

Lemma str_all_append p (a b : string) :
  str_all p (a ++ b) = str_all p a && str_all p b.
Proof.
  induction a as [|x a IH]; simpl; [reflexivity|].
  now rewrite IH, andb_assoc.
Qed.

Lemma str_filter_append p (a b : string) :
  str_filter p (a ++ b) = str_filter p a ++ str_filter p b.
Proof.
  induction a as [|x a IH]; simpl; [reflexivity|].
  destruct (p x); simpl; now rewrite IH.
Qed.

Lemma str_map_append f (a b : string) :
  str_map f (a ++ b) = str_map f a ++ str_map f b.
Proof. induction a as [|x a IH]; simpl; [reflexivity | now rewrite IH]. Qed.

Lemma str_all_filter p (s : string) : str_all p (str_filter p s) = true.
Proof.
  induction s as [|x s IH]; simpl; [reflexivity|].
  destruct (p x) eqn:E; simpl; [now rewrite E | exact IH].
Qed.

Lemma str_all_impl (p q : ascii -> bool) (s : string) :
  (forall c, p c = true -> q c = true) -> str_all p s = true -> str_all q s = true.
Proof.
  intros H. induction s as [|x s IH]; simpl; [reflexivity|].
  intros E. apply andb_true_iff in E as [E1 E2].
  now rewrite (H _ E1), IH.
Qed.

Lemma nonempty_true (s : string) : nonempty s = true <-> s <> "".
Proof. destruct s; simpl; split; congruence. Qed.

Lemma prefix_append (a s : string) : startswith a (a ++ s) = true.
Proof.
  induction a as [|x a IH]; simpl; [reflexivity|].
  now rewrite Ascii.eqb_refl.
Qed.

Lemma prefix_split (a s : string) :
  startswith a s = true -> exists r, s = a ++ r.
Proof.
  revert s. induction a as [|x a IH]; intros s H.
  - now exists s.
  - destruct s as [|y s]; simpl in H; [discriminate|].
    destruct (Ascii.eqb_spec x y) as [->|]; [|discriminate].
    destruct (IH _ H) as [r ->]. now exists r.
Qed.

(** ** The matcher *)

Lemma lazy_star_sound cls k s r :
  lazy_star cls k s = Some r ->
  exists g gs s2, r = g :: gs /\ s = g ++ s2 /\ str_all cls g = true /\ k s2 = Some gs.
Proof.
  revert r. induction s as [|a s IH]; intros r; simpl.
  - destruct (k "") as [gs|] eqn:K; [|discriminate].
    intros [= <-]. now exists "", gs, "".
  - destruct (k (String a s)) as [gs|] eqn:K.
    + intros [= <-]. now exists "", gs, (String a s).
    + destruct (cls a) eqn:C; [|discriminate].
      destruct (lazy_star cls k s) as [r'|] eqn:L; [|discriminate].
      intros [= <-].
      destruct (IH _ eq_refl) as (g & gs & s2 & -> & -> & G & K2).
      exists (String a g), gs, s2. simpl. now rewrite C, G.
Qed.

Lemma greedy_plus_sound cls k s r :
  greedy_plus cls k s = Some r ->
  exists g gs s2,
    r = g :: gs /\ s = g ++ s2 /\ str_all cls g = true /\ g <> "" /\ k s2 = Some gs.
Proof.
  revert r. induction s as [|a s IH]; intros r; simpl; [discriminate|].
  destruct (cls a) eqn:C; [|discriminate].
  destruct (greedy_plus cls k s) as [r'|] eqn:G.
  - intros [= <-].
    destruct (IH _ eq_refl) as (g & gs & s2 & -> & -> & A & _ & K2).
    exists (String a g), gs, s2. simpl. rewrite C, A. repeat split; congruence.
  - destruct (k s) as [gs|] eqn:K; [|discriminate].
    intros [= <-]. exists (String a ""), gs, s. simpl. rewrite C.
    repeat split; congruence.
Qed.

(** A successful match covers a prefix of the subject, and its captures are
    in their classes. *)
Lemma re_match_sound p : forall s gs,
  re_match p s = Some gs ->
  captures_ok p gs /\ exists rest, s = instantiate p gs ++ rest.
Proof.
  induction p as [|[c|cls|cls] p IH]; intros s gs; simpl.
  - intros [= <-]. split; [reflexivity | now exists s].
  - destruct s as [|a s]; [discriminate|].
    destruct (Ascii.eqb_spec a c) as [->|]; [|discriminate].
    intros H. destruct (IH _ _ H) as (Hc & rest & ->).
    split; [exact Hc | now exists rest].
  - intros H.
    destruct (lazy_star_sound _ _ _ _ H) as (g & gs' & s2 & -> & -> & G & K).
    destruct (IH _ _ K) as (Hc & rest & ->).
    split; [now split | exists rest; now rewrite append_assoc].
  - intros H.
    destruct (greedy_plus_sound _ _ _ _ H) as (g & gs' & s2 & -> & -> & G & Hne & K).
    destruct (IH _ _ K) as (Hc & rest & ->).
    split; [now repeat split | exists rest; now rewrite append_assoc].
Qed.

Lemma lazy_star_complete cls k (g rest : string) gs :
  str_all cls g = true -> k rest = Some gs -> lazy_star cls k (g ++ rest) <> None.
Proof.
  induction g as [|a g IH]; intros A K.
  - simpl. destruct rest; simpl; now rewrite K.
  - simpl in A. apply andb_true_iff in A as [C A]. simpl.
    destruct (k (String a (g ++ rest))); [discriminate|].
    rewrite C. destruct (lazy_star cls k (g ++ rest)); [discriminate|].
    now destruct (IH A K).
Qed.

Lemma greedy_plus_complete cls k (g rest : string) gs :
  str_all cls g = true -> g <> "" -> k rest = Some gs ->
  greedy_plus cls k (g ++ rest) <> None.
Proof.
  intros A Hne K. induction g as [|a g IH]; [congruence|].
  simpl in A. apply andb_true_iff in A as [C A]. simpl. rewrite C.
  destruct (greedy_plus cls k (g ++ rest)) eqn:G; [discriminate|].
  destruct g as [|b g]; [simpl; now rewrite K|].
  destruct (IH A); [discriminate | reflexivity].
Qed.

(** The matcher finds a match whenever there is one: a subject that starts
    with the literals and with captures in their classes is matched. *)
Lemma re_match_complete p : forall gs rest,
  captures_ok p gs -> re_match p (instantiate p gs ++ rest) <> None.
Proof.
  induction p as [|[c|cls|cls] p IH]; intros gs rest; simpl.
  - discriminate.
  - rewrite Ascii.eqb_refl. apply IH.
  - destruct gs as [|g gs]; [tauto|]. intros [A C].
    rewrite append_assoc.
    destruct (re_match p (instantiate p gs ++ rest)) as [r|] eqn:K;
      [|now destruct (IH gs rest C)].
    now apply lazy_star_complete with r.
  - destruct gs as [|g gs]; [tauto|]. intros (A & Hne & C).
    rewrite append_assoc.
    destruct (re_match p (instantiate p gs ++ rest)) as [r|] eqn:K;
      [|now destruct (IH gs rest C)].
    now apply greedy_plus_complete with r.
Qed.

(** [re_match] succeeds on the subjects of the pattern, and on them only. *)
Lemma re_match_iff p s :
  re_match p s <> None <->
  exists gs rest, captures_ok p gs /\ s = instantiate p gs ++ rest.
Proof.
  split.
  - destruct (re_match p s) as [gs|] eqn:E; [|congruence]. intros _.
    destruct (re_match_sound p s gs E) as (C & rest & ->). now exists gs, rest.
  - intros (gs & rest & C & ->). now apply re_match_complete.
Qed.

(** The shortest capture wins: when the rest of the pattern fails at every
    earlier position, [(cls*?)] captures [g]. *)
Lemma lazy_star_first cls k (g rest : string) gs :
  str_all cls g = true ->
  (forall g1 g2, g = g1 ++ g2 -> g2 <> "" -> k (g2 ++ rest) = None) ->
  k rest = Some gs ->
  lazy_star cls k (g ++ rest) = Some (g :: gs).
Proof.
  induction g as [|a g IH]; intros A F K.
  - simpl. destruct rest; simpl; now rewrite K.
  - simpl in A. apply andb_true_iff in A as [C A].
    assert (F0 : k (String a (g ++ rest)) = None)
      by (apply (F "" (String a g)); [reflexivity | discriminate]).
    simpl. rewrite F0, C, IH; [reflexivity | exact A | | exact K].
    intros g1 g2 -> Hne. apply (F (String a g1) g2); [reflexivity | exact Hne].
Qed.

Lemma greedy_plus_stops cls k (rest : string) :
  match rest with String c _ => cls c = false | EmptyString => True end ->
  greedy_plus cls k rest = None.
Proof. destruct rest as [|c rest]; simpl; [reflexivity | now intros ->]. Qed.

(** The longest capture wins: [(cls+)] captures the whole run [g] when the
    rest of the pattern matches after it. *)
Lemma greedy_plus_longest cls k (g rest : string) gs :
  str_all cls g = true -> g <> "" ->
  match rest with String c _ => cls c = false | EmptyString => True end ->
  k rest = Some gs ->
  greedy_plus cls k (g ++ rest) = Some (g :: gs).
Proof.
  intros A Hne Stop K.
  induction g as [|a g IH]; [congruence|].
  simpl in A. apply andb_true_iff in A as [C A].
  simpl. rewrite C.
  destruct g as [|b g].
  - simpl. rewrite (greedy_plus_stops cls k rest Stop), K. reflexivity.
  - rewrite IH; [reflexivity | exact A | discriminate].
Qed.

Lemma re_match_lits (l : string) p s :
  re_match (lits l ++ p)%list (l ++ s) = re_match p s.
Proof.
  induction l as [|c l IH]; [reflexivity|].
  cbn. rewrite Ascii.eqb_refl. exact IH.
Qed.

(** ** The two patterns *)

Lemma re_match_lits_inv (l : string) p s gs :
  re_match (lits l ++ p)%list s = Some gs ->
  exists s', s = l ++ s' /\ re_match p s' = Some gs.
Proof.
  revert s. induction l as [|c l IH]; intros s H.
  - now exists s.
  - cbn in H. destruct s as [|a s]; [discriminate|].
    destruct (Ascii.eqb_spec a c) as [->|]; [|discriminate].
    destruct (IH _ H) as (s' & -> & K). now exists s'.
Qed.

Lemma re_match_lits_fail (l : string) p s :
  startswith l s = false -> re_match (lits l ++ p)%list s = None.
Proof.
  intros F. destruct (re_match (lits l ++ p)%list s) as [gs|] eqn:E; [|reflexivity].
  destruct (re_match_lits_inv _ _ _ _ E) as (s' & -> & _).
  now rewrite prefix_append in F.
Qed.

Lemma contains_suffix (sub g1 g2 : string) :
  contains sub (g1 ++ g2) = false -> contains sub g2 = false.
Proof.
  induction g1 as [|c g1 IH]; simpl; [easy|].
  intros H. apply orb_false_iff in H as [_ H]. now apply IH.
Qed.

Lemma contains_prefix_false (sub s : string) :
  contains sub s = false -> startswith sub s = false.
Proof. destruct s; simpl; intros H; now apply orb_false_iff in H as [H _]. Qed.

(** No separator inside [g2] and [g2] not empty: the separator does not
    start at the front of [g2 ++ " /" ++ rest]. *)
Lemma separator_not_in_front (g2 rest : string) :
  g2 <> "" -> startswith " /" g2 = false ->
  startswith " /" (g2 ++ " /" ++ rest) = false.
Proof.
  destruct g2 as [|a [|b g2]]; [congruence | |]; intros _; simpl.
  - intros _. now rewrite andb_false_r.
  - now rewrite !andb_true_r.
Qed.

Lemma slash_not_in_front (g2 rest : string) :
  g2 <> "" -> startswith "/" g2 = false -> startswith "/" (g2 ++ rest) = false.
Proof.
  destruct g2 as [|a g2]; [congruence|]; intros _; simpl.
  now rewrite !andb_true_r.
Qed.

(** A line [1 NAME <given> /<surname>/] is matched, and the captures are the
    given names and the surname. *)
Lemma name_re_form (given surname : string) :
  str_all is_dot given = true -> contains " /" given = false ->
  str_all is_dot surname = true -> contains "/" surname = false ->
  re_match name_re ("1 NAME " ++ given ++ " /" ++ surname ++ "/")
  = Some [given; surname].
Proof.
  intros Dg Sg Ds Ss. unfold name_re.
  rewrite re_match_lits.
  change (re_match ([LazyStar is_dot] ++ ?p)%list) with (lazy_star is_dot (re_match p)).
  apply lazy_star_first; [exact Dg | |].
  - intros g1 g2 -> Hne. apply re_match_lits_fail.
    apply separator_not_in_front; [exact Hne|].
    apply contains_prefix_false. eapply contains_suffix, Sg.
  - rewrite re_match_lits.
    change (re_match ([LazyStar is_dot] ++ ?p)%list) with (lazy_star is_dot (re_match p)).
    apply lazy_star_first; [exact Ds | | reflexivity].
    intros g1 g2 -> Hne.
    rewrite <- (app_nil_r (lits "/")). apply re_match_lits_fail.
    apply slash_not_in_front; [exact Hne|].
    apply contains_prefix_false. eapply contains_suffix, Ss.
Qed.

(** A line [2 DATE <d> <mon> <yyyy>] is matched, and the captures are the
    day, the month and the year. *)
Lemma date_re_form (d mon yyyy : string) :
  str_all is_decimal d = true -> d <> "" ->
  str_all is_word mon = true -> mon <> "" ->
  str_all is_decimal yyyy = true -> yyyy <> "" ->
  re_match date_re ("2 DATE " ++ d ++ " " ++ mon ++ " " ++ yyyy)
  = Some [d; mon; yyyy].
Proof.
  intros Dd Nd Dm Nm Dy Ny. unfold date_re.
  rewrite re_match_lits.
  change (re_match ([GreedyPlus is_decimal] ++ ?p)%list)
    with (greedy_plus is_decimal (re_match p)).
  apply greedy_plus_longest; [exact Dd | exact Nd | reflexivity |].
  rewrite re_match_lits.
  change (re_match ([GreedyPlus is_word] ++ ?p)%list)
    with (greedy_plus is_word (re_match p)).
  apply greedy_plus_longest; [exact Dm | exact Nm | reflexivity |].
  rewrite re_match_lits.
  change (re_match [GreedyPlus is_decimal]) with (greedy_plus is_decimal (re_match [])).
  rewrite <- (append_nil_r yyyy) at 1.
  apply greedy_plus_longest; [exact Dy | exact Ny | exact I | reflexivity].
Qed.

(** What the captures of the two patterns look like. *)
Lemma name_re_captures name gs :
  re_match name_re name = Some gs ->
  exists g1 g2 rest,
    gs = [g1; g2] /\ name = "1 NAME " ++ g1 ++ " /" ++ g2 ++ "/" ++ rest.
Proof.
  intros H. destruct (re_match_sound _ _ _ H) as (C & rest & ->).
  destruct gs as [|g1 [|g2 [|? ?]]]; cbn in C;
    [ destruct C | destruct C as (_ & []) |
    | destruct C as (_ & _ & C); discriminate ].
  exists g1, g2, rest. split; [reflexivity|].
  cbn. now normalize_append.
Qed.

Lemma date_re_captures date gs :
  re_match date_re date = Some gs ->
  exists d mon y rest,
    gs = [d; mon; y] /\ date = "2 DATE " ++ d ++ " " ++ mon ++ " " ++ y ++ rest
    /\ str_all is_decimal d = true /\ d <> ""
    /\ str_all is_word mon = true /\ mon <> ""
    /\ str_all is_decimal y = true /\ y <> "".
Proof.
  intros H. destruct (re_match_sound _ _ _ H) as (C & rest & ->).
  destruct gs as [|d [|mon [|y [|? ?]]]]; cbn in C;
    [ destruct C | destruct C as (_ & _ & []) | destruct C as (_ & _ & _ & _ & [])
    | | destruct C as (_ & _ & _ & _ & _ & _ & C); discriminate ].
  destruct C as (Dd & Nd & Dm & Nm & Dy & Ny & _).
  exists d, mon, y, rest. repeat split; try assumption.
  cbn. now normalize_append.
Qed.



(** ** [int()] and the format [02d] *)

Lemma lstrip_by_id sp (s : string) :
  match s with String c _ => sp c = false | EmptyString => True end ->
  lstrip_by sp s = s.
Proof. destruct s as [|c s]; simpl; [reflexivity | now intros ->]. Qed.

Lemma rstrip_by_id sp (s : string) :
  str_all (fun c => negb (sp c)) s = true -> rstrip_by sp s = s.
Proof.
  induction s as [|c s IH]; simpl; [reflexivity|].
  intros H. apply andb_true_iff in H as [C A].
  rewrite (IH A). apply negb_true_iff in C. rewrite C. now destruct s.
Qed.

Lemma strip_by_id sp (s : string) :
  str_all (fun c => negb (sp c)) s = true -> strip_by sp s = s.
Proof.
  intros A. unfold strip_by. rewrite lstrip_by_id.
  - now apply rstrip_by_id.
  - destruct s as [|c s]; [exact I|]. simpl in A.
    apply andb_true_iff in A as [C _]. now apply negb_true_iff in C.
Qed.

Lemma int_digits_all (s : string) : forall acc,
  str_all is_decimal s = true -> int_digits acc true s = Some (digits_value acc s).
Proof.
  induction s as [|c s IH]; intros acc; simpl; [reflexivity|].
  intros H. apply andb_true_iff in H as [C A]. rewrite C. now apply IH.
Qed.

Lemma int_digits_start (s : string) acc :
  str_all is_decimal s = true -> s <> "" ->
  int_digits acc false s = Some (digits_value acc s).
Proof.
  destruct s as [|c s]; [congruence|]. simpl.
  intros H _. apply andb_true_iff in H as [C A]. rewrite C.
  now apply int_digits_all.
Qed.

Lemma digit_run_digits (s : string) :
  str_all is_decimal s = true -> digit_run s = s.
Proof.
  induction s as [|c s IH]; [reflexivity|]. cbn [str_all digit_run].
  intros H. apply andb_true_iff in H as [C A]. now rewrite C, (IH A).
Qed.

Lemma str_filter_id p (s : string) : str_all p s = true -> str_filter p s = s.
Proof.
  induction s as [|c s IH]; [reflexivity|]. cbn [str_all str_filter].
  intros H. apply andb_true_iff in H as [C A]. now rewrite C, (IH A).
Qed.

(** [int()] of a run of digits is the number the digits denote, when the run
    has at most 4300 digits; a longer run raises. *)
Lemma py_int_digits (d : string) :
  str_all is_decimal d = true -> d <> "" ->
  py_int d = if (max_str_digits <? String.length d)%nat
             then Raise (int_limit_error (String.length d))
             else Ret (int_of_digits d).
Proof.
  intros A Hne. unfold py_int.
  rewrite strip_by_id.
  2:{ eapply str_all_impl; [|exact A].
      intros c C. now rewrite (decimal_not_int_space _ C). }
  destruct d as [|c d]; [congruence|].
  assert (C : is_decimal c = true) by (simpl in A; now apply andb_true_iff in A).
  destruct (decimal_not_sign _ C) as [-> ->]. cbn [orb].
  rewrite (digit_run_digits _ A), (str_filter_id _ _ A).
  rewrite (int_digits_start _ _ A Hne).
  destruct (max_str_digits <? String.length (String c d))%nat; reflexivity.
Qed.

Lemma py_int_short (d : string) :
  str_all is_decimal d = true -> d <> "" ->
  (String.length d <= max_str_digits)%nat -> py_int d = Ret (int_of_digits d).
Proof.
  intros A Hne L. rewrite (py_int_digits d A Hne).
  now apply Nat.ltb_ge in L as ->.
Qed.

Lemma py_int_long (d : string) :
  str_all is_decimal d = true ->
  (max_str_digits < String.length d)%nat ->
  py_int d = Raise (int_limit_error (String.length d)).
Proof.
  intros A L. rewrite (py_int_digits d A).
  - now apply Nat.ltb_lt in L as ->.
  - intros ->. cbn in L. lia.
Qed.

Lemma digits_value_nonneg (s : string) : forall acc,
  (0 <= acc)%Z -> str_all is_decimal s = true -> (0 <= digits_value acc s)%Z.
Proof.
  induction s as [|c s IH]; intros acc Hacc; cbn [digits_value str_all]; [easy|].
  intros H. apply andb_true_iff in H as [C A].
  apply IH; [|exact A]. pose proof (digit_value_range _ C). lia.
Qed.

Lemma int_of_digits_nonneg (s : string) :
  str_all is_decimal s = true -> (0 <= int_of_digits s)%Z.
Proof. now apply digits_value_nonneg. Qed.

Lemma digits_value_bound (s : string) : forall acc,
  (0 <= acc)%Z -> str_all is_decimal s = true ->
  (digits_value acc s < (acc + 1) * 10 ^ Z.of_nat (String.length s))%Z.
Proof.
  induction s as [|c s IH]; intros acc Hacc; cbn [digits_value str_all String.length].
  - intros _. cbn. lia.
  - intros H. apply andb_true_iff in H as [C A].
    pose proof (digit_value_range _ C) as R.
    specialize (IH (10 * acc + digit_value c)%Z ltac:(lia) A).
    rewrite Nat2Z.inj_succ, Z.pow_succ_r by lia.
    assert (P : (0 < 10 ^ Z.of_nat (String.length s))%Z) by (apply Z.pow_pos_nonneg; lia).
    nia.
Qed.

(** A run of at most 4300 digits denotes a number below [10 ^ 4300]. *)
Lemma int_of_digits_bound (s : string) :
  str_all is_decimal s = true -> (String.length s <= max_str_digits)%nat ->
  (0 <= int_of_digits s < 10 ^ Z.of_nat max_str_digits)%Z.
Proof.
  intros A L. split; [now apply int_of_digits_nonneg|].
  pose proof (digits_value_bound s 0%Z ltac:(lia) A) as B.
  fold (int_of_digits s) in B.
  assert (M : (10 ^ Z.of_nat (String.length s) <= 10 ^ Z.of_nat max_str_digits)%Z)
    by (apply Z.pow_le_mono_r; lia).
  lia.
Qed.

(** A short literal is within the limit. *)
Ltac within_limit := unfold max_str_digits; cbn [String.length]; lia.

(** The format converts the integers below [10 ^ 4300] in absolute value,
    and no other. *)
Lemma format_02d_within z :
  (Z.abs z < 10 ^ Z.of_nat max_str_digits)%Z -> format_02d z = Ret (pad_02d z).
Proof.
  intros H. unfold format_02d. now apply Z.leb_gt in H as ->.
Qed.

Lemma format_02d_beyond z :
  (10 ^ Z.of_nat max_str_digits <= Z.abs z)%Z -> format_02d z = Raise str_limit_error.
Proof.
  intros H. unfold format_02d. now apply Z.leb_le in H as ->.
Qed.

Lemma ten_le_limit : (10 ^ 2 <= 10 ^ Z.of_nat max_str_digits)%Z.
Proof. apply Z.pow_le_mono_r; [lia|]. unfold max_str_digits. lia. Qed.

Lemma format_02d_month_num m : (1 <= m <= 12)%Z -> format_02d m = Ret (pad_02d m).
Proof.
  intros H. apply format_02d_within. pose proof ten_le_limit.
  change (10 ^ 2)%Z with 100%Z in *. lia.
Qed.

Lemma format_02d_day (d : string) :
  str_all is_decimal d = true -> (String.length d <= max_str_digits)%nat ->
  format_02d (int_of_digits d) = Ret (pad_02d (int_of_digits d)).
Proof.
  intros A L. apply format_02d_within.
  pose proof (int_of_digits_bound d A L). lia.
Qed.

Lemma zfill_length w (s : string) : (w <= String.length (zfill w s))%nat.
Proof.
  unfold zfill. rewrite length_append.
  assert (L : forall n, String.length (zeros n) = n)
    by (induction n; simpl; congruence).
  rewrite L. lia.
Qed.

(** The format [02d] never gives less than two characters. *)
Lemma pad_02d_length z : (2 <= String.length (pad_02d z))%nat.
Proof.
  unfold pad_02d. destruct (z <? 0)%Z.
  - cbn [append String.length]. pose proof (zfill_length 1 (dec (Z.abs_N z))). lia.
  - apply zfill_length.
Qed.

(** One digit is padded with one zero. *)
Lemma pad_02d_small z :
  (0 <= z < 10)%Z -> pad_02d z = String "0" (dec (Z.to_N z)).
Proof.
  intros H.
  assert (E : (z = 0 \/ z = 1 \/ z = 2 \/ z = 3 \/ z = 4 \/ z = 5 \/ z = 6
               \/ z = 7 \/ z = 8 \/ z = 9)%Z) by lia.
  repeat (destruct E as [->|E]; [reflexivity|]). now subst.
Qed.

Lemma pad_02d_month m : (1 <= m <= 12)%Z -> String.length (pad_02d m) = 2%nat.
Proof.
  intros H.
  assert (E : (m = 1 \/ m = 2 \/ m = 3 \/ m = 4 \/ m = 5 \/ m = 6 \/ m = 7
               \/ m = 8 \/ m = 9 \/ m = 10 \/ m = 11 \/ m = 12)%Z) by lia.
  repeat (destruct E as [->|E]; [reflexivity|]). now subst.
Qed.

Lemma string_of_uint_digits u :
  str_all is_decimal (NilEmpty.string_of_uint u) = true.
Proof. induction u; simpl; auto. Qed.

Lemma dec_digits n : str_all is_decimal (dec n) = true.
Proof. apply string_of_uint_digits. Qed.

Lemma zeros_digits n : str_all is_decimal (zeros n) = true.
Proof. induction n; simpl; auto. Qed.

(** ** Month names *)

Lemma str_all_map p f (s : string) :
  str_all p (str_map f s) = str_all (fun c => p (f c)) s.
Proof. induction s as [|c s IH]; simpl; [reflexivity | now rewrite IH]. Qed.

Lemma month_abbr_letters a :
  In a month_abbr -> str_all (in_range 97 122) a = true /\ a <> "".
Proof.
  intros H. unfold month_abbr in H.
  repeat (destruct H as [<-|H]; [split; [reflexivity | discriminate]|]).
  destruct H.
Qed.

(** A name that is, up to case, a month abbreviation is made of word
    characters. *)
Lemma month_name_word (mon : string) :
  In (lower mon) month_abbr -> str_all is_word mon = true /\ mon <> "".
Proof.
  intros H. destruct (month_abbr_letters _ H) as [L Hne]. split.
  - unfold lower in L. rewrite str_all_map in L.
    eapply str_all_impl; [|exact L]. exact lower_letter_is_word.
  - intros ->. now apply Hne.
Qed.

Lemma ci_prefix_sound (a : string) : forall s rest,
  ci_prefix a s = Some rest -> exists pre, s = pre ++ rest /\ lower pre = a.
Proof.
  induction a as [|x a IH]; intros s rest; simpl.
  - intros [= ->]. now exists "".
  - destruct s as [|b s]; [discriminate|].
    destruct (Ascii.eqb_spec (char_lower b) x) as [<-|]; [|discriminate].
    intros H. destruct (IH _ _ H) as (pre & -> & <-).
    now exists (String b pre).
Qed.

Lemma find_month_sound abbrs : forall i s m rest,
  find_month abbrs i s = Some (m, rest) ->
  exists k a, nth_error abbrs k = Some a /\ m = (i + Z.of_nat k)%Z
              /\ ci_prefix a s = Some rest.
Proof.
  induction abbrs as [|a abbrs IH]; intros i s m rest; simpl; [discriminate|].
  destruct (ci_prefix a s) as [r|] eqn:E.
  - intros [= <- <-]. exists 0%nat, a. repeat split; [lia | exact E].
  - intros H. destruct (IH _ _ _ _ H) as (k & a' & N & -> & P).
    exists (S k), a'. repeat split; [exact N | lia | exact P].
Qed.

(** [strptime] resolves exactly the names that are, up to case, one of the
    twelve abbreviations, to the rank of the abbreviation. *)
Lemma strptime_b_sound (mon : string) m :
  strptime_b mon = Ret m ->
  exists k, nth_error month_abbr k = Some (lower mon) /\ m = Z.of_nat (S k).
Proof.
  unfold strptime_b.
  destruct (find_month month_abbr 1 mon) as [[m' rest]|] eqn:F; [|discriminate].
  destruct rest as [|? ?]; [|discriminate]. simpl. intros [= <-].
  destruct (find_month_sound _ _ _ _ _ F) as (k & a & N & -> & P).
  destruct (ci_prefix_sound _ _ _ P) as (pre & -> & <-).
  exists k. rewrite append_nil_r. split; [exact N | lia].
Qed.

Lemma strptime_b_complete (mon : string) k :
  nth_error month_abbr k = Some (lower mon) -> strptime_b mon = Ret (Z.of_nat (S k)).
Proof.
  intros H.
  do 12 (destruct k as [|k];
         [ destruct mon as [|c1 [|c2 [|c3 [|c4 mon]]]]; try discriminate H;
           injection H as H1 H2 H3;
           unfold strptime_b, month_abbr; cbn [find_month ci_prefix];
           rewrite <- H1, <- H2, <- H3; cbn; reflexivity |]).
  destruct k; discriminate H.
Qed.

Lemma strptime_b_range (mon : string) m : strptime_b mon = Ret m -> (1 <= m <= 12)%Z.
Proof.
  intros H. destruct (strptime_b_sound _ _ H) as (k & N & ->).
  assert (k < List.length month_abbr)%nat by (apply nth_error_Some; congruence).
  simpl in H0. lia.
Qed.

Lemma strptime_b_raises (mon : string) e :
  strptime_b mon = Raise e -> is_ValueError e = true.
Proof.
  unfold strptime_b.
  destruct (find_month month_abbr 1 mon) as [[m rest]|]; [|now intros [= <-]].
  destruct (nonempty rest); [now intros [= <-] | discriminate].
Qed.

(** ** The name part *)

Lemma split_lstrip (s : string) : split (lstrip_by is_space s) = split s.
Proof.
  induction s as [|c s IH]; [reflexivity|].
  cbn [lstrip_by]. destruct (is_space c) eqn:C; [|reflexivity].
  rewrite IH. cbn [split]. now rewrite C.
Qed.

Lemma rstrip_by_head sp c (s : string) r0 r :
  rstrip_by sp (String c s) = String r0 r -> r0 = c.
Proof.
  cbn [rstrip_by]. destruct (rstrip_by sp s); [destruct (sp c)|]; congruence.
Qed.

Lemma split_cons_nonspace c (s : string) :
  is_space c = false ->
  split (String c s) =
  match s with
  | EmptyString => [String c ""]
  | String c' _ =>
      if is_space c' then String c "" :: split s
      else match split s with
           | w :: ws => String c w :: ws
           | [] => [String c ""]
           end
  end.
Proof. intros C. cbn [split]. now rewrite C. Qed.

Lemma split_rstrip (s : string) : split (rstrip_by is_space s) = split s.
Proof.
  induction s as [|c s IH]; [reflexivity|].
  cbn [rstrip_by]. destruct (rstrip_by is_space s) as [|r0 r] eqn:R.
  - destruct (is_space c) eqn:C.
    + cbn [split]. now rewrite C.
    + rewrite (split_cons_nonspace c s C), <- IH. cbn [split].
      rewrite C. destruct s as [|c' s']; [reflexivity|].
      now destruct (is_space c').
  - destruct (is_space c) eqn:C.
    + cbn [split]. rewrite C. exact IH.
    + rewrite !(split_cons_nonspace c _ C), IH.
      destruct s as [|c' s']; [discriminate R|].
      now rewrite (rstrip_by_head _ _ _ _ _ R).
Qed.

Lemma split_strip (s : string) : split (strip s) = split s.
Proof. unfold strip, strip_by. now rewrite split_rstrip, split_lstrip. Qed.

(** The parts [split] returns hold no white space. *)
Lemma split_words (s : string) :
  Forall (fun w => str_all (fun c => negb (is_space c)) w = true) (split s).
Proof.
  induction s as [|c s IH]; [constructor|].
  destruct (is_space c) eqn:C; [cbn [split]; now rewrite C|].
  assert (One : str_all (fun c => negb (is_space c)) (String c "") = true)
    by (simpl; now rewrite C).
  rewrite (split_cons_nonspace c s C). destruct s as [|c' s'].
  - now repeat constructor.
  - destruct (is_space c'); [now constructor|].
    destruct (split (String c' s')) as [|w ws]; [now repeat constructor|].
    inversion IH as [|? ? W WS]; subst. constructor; [|exact WS].
    simpl. now rewrite C.
Qed.

Lemma map_strip_split (s : string) : map strip (split s) = split s.
Proof.
  induction (split_words s) as [|w ws W _ IH]; [reflexivity|].
  simpl. rewrite IH. unfold strip. now rewrite (strip_by_id is_space w W).
Qed.

Lemma normalize_append (a b : string) : normalize (a ++ b) = normalize a ++ normalize b.
Proof.
  unfold normalize, re_sub_non_id, lower.
  now rewrite str_map_append, str_filter_append.
Qed.

Lemma normalize_space c (s : string) :
  is_space c = true -> normalize (String c s) = normalize s.
Proof.
  intros C. unfold normalize, re_sub_non_id, lower. simpl.
  now rewrite (space_lower_dropped c C).
Qed.

Lemma normalize_cons c (s s' : string) :
  normalize s = normalize s' -> normalize (String c s) = normalize (String c s').
Proof.
  intros H. change (String c s) with (String c "" ++ s).
  change (String c s') with (String c "" ++ s').
  now rewrite !normalize_append, H.
Qed.

Lemma normalize_lstrip (s : string) : normalize (lstrip_by is_space s) = normalize s.
Proof.
  induction s as [|c s IH]; [reflexivity|].
  cbn [lstrip_by]. destruct (is_space c) eqn:C; [|reflexivity].
  now rewrite IH, (normalize_space c s C).
Qed.

Lemma normalize_rstrip (s : string) : normalize (rstrip_by is_space s) = normalize s.
Proof.
  induction s as [|c s IH]; [reflexivity|].
  cbn [rstrip_by]. destruct (rstrip_by is_space s) as [|r0 r] eqn:R.
  - destruct (is_space c) eqn:C.
    + now rewrite (normalize_space c s C), <- IH.
    + now apply normalize_cons.
  - now apply normalize_cons.
Qed.

(** White space around a part does not show in the identifier. *)
Lemma normalize_strip (s : string) : normalize (strip s) = normalize s.
Proof. unfold strip, strip_by. now rewrite normalize_rstrip, normalize_lstrip. Qed.

Lemma join_cons sep w (ws : list string) :
  ws <> [] -> join sep (w :: ws) = w ++ sep ++ join sep ws.
Proof. destruct ws; [congruence | reflexivity]. Qed.

Lemma normalize_join_last (ws : list string) (x y : string) :
  normalize x = normalize y ->
  normalize (join "_" (ws ++ [x])%list) = normalize (join "_" (ws ++ [y])%list).
Proof.
  intros H. induction ws as [|w ws IH]; [exact H|].
  cbn [app]. rewrite !join_cons by (now destruct ws).
  now rewrite !normalize_append, IH.
Qed.

(** The name part, in the words of the specification: the given-name parts
    and the surname, joined by underscores and normalized. *)
Lemma name_part_words (given surname : string) :
  name_part given surname = normalize (join "_" (split given ++ [surname])%list).
Proof.
  unfold name_part. rewrite split_strip, map_strip_split.
  apply normalize_join_last, normalize_strip.
Qed.

(** Normalizing after the join is normalizing each part. *)
Lemma normalize_join (ws : list string) :
  normalize (join "_" ws) = join "_" (map normalize ws).
Proof.
  induction ws as [|w ws IH]; [reflexivity|].
  destruct ws as [|w' ws]; [reflexivity|].
  rewrite (join_cons "_" w) by discriminate. cbn [map].
  rewrite (join_cons "_" (normalize w)) by discriminate.
  now rewrite !normalize_append, IH.
Qed.

(** ** The identifier builder, case by case *)

Lemma create_person_id_spec (name birth_date : string) :
  create_person_id name birth_date =
  match re_match name_re name, re_match date_re birth_date with
  | Some [g1; g2], Some [d; mon; y] =>
      if (max_str_digits <? String.length d)%nat
      then Raise (int_limit_error (String.length d))
      else
        match strptime_b mon with
        | Ret m =>
            Ret (Some (y ++ "-" ++ pad_02d m ++ "-" ++ pad_02d (int_of_digits d)
                       ++ "_" ++ name_part g1 g2))
        | Raise _ => Ret None
        end
  | _, _ => Ret None
  end.
Proof.
  unfold create_person_id.
  destruct (re_match name_re name) as [gs|] eqn:N; [|reflexivity].
  destruct (name_re_captures _ _ N) as (g1 & g2 & rest & -> & _).
  cbn [group nth_error rbind].
  destruct (re_match date_re birth_date) as [ds|] eqn:D; [|reflexivity].
  destruct (date_re_captures _ _ D) as (d & mon & y & rest' & -> & _ & Dd & Nd & _).
  cbn [group nth_error rbind].
  rewrite (py_int_digits d Dd Nd).
  destruct (max_str_digits <? String.length d)%nat eqn:L; [reflexivity|].
  apply Nat.ltb_ge in L. cbn [rbind].
  destruct (strptime_b mon) as [m|e] eqn:S.
  - rewrite (format_02d_month_num m (strptime_b_range _ _ S)).
    rewrite (format_02d_day d Dd L). cbn [rbind].
    unfold name_part. now normalize_append.
  - now rewrite (strptime_b_raises _ _ S).
Qed.

(** The equation when the day is within the limit. *)
Lemma create_person_id_short (name birth_date g1 g2 d mon y : string) :
  re_match name_re name = Some [g1; g2] ->
  re_match date_re birth_date = Some [d; mon; y] ->
  (String.length d <= max_str_digits)%nat ->
  create_person_id name birth_date =
  match strptime_b mon with
  | Ret m =>
      Ret (Some (y ++ "-" ++ pad_02d m ++ "-" ++ pad_02d (int_of_digits d)
                 ++ "_" ++ name_part g1 g2))
  | Raise _ => Ret None
  end.
Proof.
  intros N D L. rewrite create_person_id_spec, N, D.
  now apply Nat.ltb_ge in L as ->.
Qed.

(** What [create_person_id] ends with: no identifier, an identifier, or the
    error of the limit of [int()]. *)
Lemma create_person_id_cases (name birth_date : string) :
  create_person_id name birth_date = Ret None
  \/ (exists g1 g2 d mon y m,
        re_match name_re name = Some [g1; g2]
        /\ re_match date_re birth_date = Some [d; mon; y]
        /\ (String.length d <= max_str_digits)%nat
        /\ strptime_b mon = Ret m
        /\ create_person_id name birth_date
           = Ret (Some (y ++ "-" ++ pad_02d m ++ "-" ++ pad_02d (int_of_digits d)
                        ++ "_" ++ name_part g1 g2)))
  \/ (exists g1 g2 d mon y,
        re_match name_re name = Some [g1; g2]
        /\ re_match date_re birth_date = Some [d; mon; y]
        /\ (max_str_digits < String.length d)%nat
        /\ create_person_id name birth_date
           = Raise (int_limit_error (String.length d))).
Proof.
  rewrite create_person_id_spec.
  destruct (re_match name_re name) as [[|g1 [|g2 [|? ?]]]|]; auto.
  destruct (re_match date_re birth_date) as [ds|] eqn:D; auto.
  destruct (date_re_captures _ _ D) as (d & mon & y & rest & -> & _).
  destruct (max_str_digits <? String.length d)%nat eqn:L.
  - apply Nat.ltb_lt in L. right; right. now exists g1, g2, d, mon, y.
  - apply Nat.ltb_ge in L. destruct (strptime_b mon) as [m|] eqn:S; auto.
    right; left. now exists g1, g2, d, mon, y, m.
Qed.

(** ** Given names *)

Lemma split_word (w : string) : is_name_word w = true -> split w = [w].
Proof.
  unfold is_name_word. intros H. apply andb_true_iff in H as [Hne A].
  induction w as [|c w IH]; [discriminate|].
  cbn [str_all] in A. apply andb_true_iff in A as [C A].
  apply negb_true_iff in C. rewrite (split_cons_nonspace c w C).
  destruct w as [|c' w]; [reflexivity|].
  assert (C' : is_space c' = false)
    by (cbn [str_all] in A; apply andb_true_iff in A as [C' _];
        now apply negb_true_iff in C').
  rewrite C'. now rewrite (IH eq_refl A).
Qed.

Lemma split_word_space (w rest : string) :
  is_name_word w = true -> split (w ++ String " " rest) = w :: split rest.
Proof.
  unfold is_name_word. intros H. apply andb_true_iff in H as [Hne A].
  induction w as [|c w IH]; [discriminate|].
  cbn [str_all] in A. apply andb_true_iff in A as [C A].
  apply negb_true_iff in C. cbn [append].
  rewrite (split_cons_nonspace c _ C).
  destruct w as [|c' w].
  - cbn [append]. change (is_space " ") with true. cbv iota.
    cbn [split]. change (is_space " ") with true. now cbv iota.
  - assert (C' : is_space c' = false)
      by (cbn [str_all] in A; apply andb_true_iff in A as [C' _];
          now apply negb_true_iff in C').
    cbn [append]. rewrite C'.
    change (String c' (w ++ String " " rest)) with (String c' w ++ String " " rest).
    now rewrite (IH eq_refl A).
Qed.

(** The parts [split] gives for given names written with one space between
    them are the given names. *)
Lemma split_join_words (ws : list string) :
  forallb is_name_word ws = true -> split (join " " ws) = ws.
Proof.
  induction ws as [|w ws IH]; [reflexivity|].
  cbn [forallb]. intros H. apply andb_true_iff in H as [W A].
  destruct ws as [|w' ws]; [now apply split_word|].
  rewrite join_cons by discriminate.
  change (w ++ " " ++ join " " (w' :: ws)) with (w ++ String " " (join " " (w' :: ws))).
  rewrite (split_word_space _ _ W). now rewrite (IH A).
Qed.

Lemma words_have_no_line_break (ws : list string) :
  forallb is_name_word ws = true -> str_all is_dot (join " " ws) = true.
Proof.
  assert (W : forall w, is_name_word w = true -> str_all is_dot w = true).
  { intros w H. apply andb_true_iff in H as [_ A].
    eapply str_all_impl; [|exact A]. intros c. by_char c. }
  induction ws as [|w ws IH]; [reflexivity|].
  cbn [forallb]. intros H. apply andb_true_iff in H as [Hw A].
  destruct ws as [|w' ws]; [now apply W|].
  rewrite join_cons by discriminate.
  rewrite !str_all_append, (W w Hw), (IH A). reflexivity.
Qed.

(** ** The identifier builder: the claims *)

(** C1 (amended). For every name line [1 NAME <given> /<surname>/] and
    every date line [2 DATE <d> <mon> <yyyy>] whose day has at most 4300
    digits and whose month is, up to case, the abbreviation of rank [k]
    (counted from 0), [create_person_id] returns the year as written, the
    month number [k + 1] and the day as integers padded to two digits, joined
    by [-], then [_] and the given-name parts and the surname joined by [_],
    in lower case, every character outside [[a-z0-9_]] deleted.  The
    given-name parts are the runs without white space; for given names
    written with one space between them, they are the given names.  The
    result is a function of the two lines only: two calls on the same lines
    end alike. *)
Theorem create_person_id_valid :
  (forall (given surname d mon yyyy : string) (k : nat),
     str_all is_dot given = true -> contains " /" given = false ->
     str_all is_dot surname = true -> contains "/" surname = false ->
     str_all is_decimal d = true -> nonempty d = true ->
     (String.length d <= max_str_digits)%nat ->
     str_all is_decimal yyyy = true -> nonempty yyyy = true ->
     nth_error month_abbr k = Some (lower mon) ->
     create_person_id ("1 NAME " ++ given ++ " /" ++ surname ++ "/")
                      ("2 DATE " ++ d ++ " " ++ mon ++ " " ++ yyyy)
     = Ret (Some (yyyy ++ "-" ++ pad_02d (Z.of_nat (S k)) ++ "-"
                  ++ pad_02d (int_of_digits d) ++ "_"
                  ++ normalize (join "_" (split given ++ [surname])%list))))
  /\ (forall (names : list string) (surname d mon yyyy : string) (k : nat),
        forallb is_name_word names = true ->
        contains " /" (join " " names) = false ->
        str_all is_dot surname = true -> contains "/" surname = false ->
        str_all is_decimal d = true -> nonempty d = true ->
        (String.length d <= max_str_digits)%nat ->
        str_all is_decimal yyyy = true -> nonempty yyyy = true ->
        nth_error month_abbr k = Some (lower mon) ->
        create_person_id ("1 NAME " ++ join " " names ++ " /" ++ surname ++ "/")
                         ("2 DATE " ++ d ++ " " ++ mon ++ " " ++ yyyy)
        = Ret (Some (yyyy ++ "-" ++ pad_02d (Z.of_nat (S k)) ++ "-"
                     ++ pad_02d (int_of_digits d) ++ "_"
                     ++ join "_" (map normalize (names ++ [surname])%list))))
  /\ (forall (name birth_date : string) r1 r2,
        create_person_id name birth_date = r1 ->
        create_person_id name birth_date = r2 -> r1 = r2).
Proof.
  assert (General : forall (given surname d mon yyyy : string) (k : nat),
     str_all is_dot given = true -> contains " /" given = false ->
     str_all is_dot surname = true -> contains "/" surname = false ->
     str_all is_decimal d = true -> nonempty d = true ->
     (String.length d <= max_str_digits)%nat ->
     str_all is_decimal yyyy = true -> nonempty yyyy = true ->
     nth_error month_abbr k = Some (lower mon) ->
     create_person_id ("1 NAME " ++ given ++ " /" ++ surname ++ "/")
                      ("2 DATE " ++ d ++ " " ++ mon ++ " " ++ yyyy)
     = Ret (Some (yyyy ++ "-" ++ pad_02d (Z.of_nat (S k)) ++ "-"
                  ++ pad_02d (int_of_digits d) ++ "_"
                  ++ normalize (join "_" (split given ++ [surname])%list)))).
  { intros given surname d mon yyyy k Dg Sg Ds Ss Dd Nd Ld Dy Ny M.
    apply nonempty_true in Nd, Ny.
    destruct (month_name_word mon (nth_error_In _ _ M)) as [Wm Nm].
    rewrite (create_person_id_short _ _ given surname d mon yyyy
               (name_re_form given surname Dg Sg Ds Ss)
               (date_re_form d mon yyyy Dd Nd Wm Nm Dy Ny) Ld).
    rewrite (strptime_b_complete mon k M).
    now rewrite name_part_words. }
  split; [exact General|]. split.
  - intros names surname d mon yyyy k W Sg Ds Ss Dd Nd Ld Dy Ny M.
    rewrite (General (join " " names) surname d mon yyyy k
               (words_have_no_line_break names W) Sg Ds Ss Dd Nd Ld Dy Ny M).
    now rewrite (split_join_words names W), normalize_join.
  - intros name birth_date r1 r2 <- <-. reflexivity.
Qed.

(** The scenario of the specification, and a person with two given names. *)
Lemma create_person_id_john_smith :
  create_person_id "1 NAME John /Smith/" "2 DATE 15 Jan 1980"
  = Ret (Some "1980-01-15_john_smith")
  /\ create_person_id "1 NAME Mary Ann /O'Neil/" "2 DATE 7 mar 1975"
     = Ret (Some "1975-03-07_mary_ann_oneil").
Proof.
  split.
  - apply (proj1 create_person_id_valid "John" "Smith" "15" "Jan" "1980" 0%nat);
      try reflexivity. within_limit.
  - apply (proj1 (proj2 create_person_id_valid) ["Mary"; "Ann"] "O'Neil" "7" "mar"
             "1975" 2%nat); try reflexivity. within_limit.
Defined.

(** A date line of the form [2 DATE <d> <mon> <yyyy>] with a recognized
    month and a day of 4301 digits: [create_person_id] raises the
    [ValueError] of [int()] and returns no identifier. *)
Lemma long_day_has_no_identifier :
  str_all is_decimal ("1" ++ zeros 4300) = true
  /\ String.length ("1" ++ zeros 4300) = 4301%nat
  /\ nth_error month_abbr 2 = Some (lower "mar")
  /\ create_person_id ("1 NAME " ++ "Mary Ann" ++ " /" ++ "O'Neil" ++ "/")
       ("2 DATE " ++ ("1" ++ zeros 4300) ++ " " ++ "mar" ++ " " ++ "1975")
     = Raise (int_limit_error 4301).
Proof.
  split; [vm_compute; reflexivity|]. split; [vm_compute; reflexivity|].
  split; vm_compute; reflexivity.
Qed.




(** C8. The identifier starts with the year as the date line writes it, [-],
    the month number on two digits, [-], and the day of the date line read as
    an integer and padded to two digits; the day is not checked against the
    month, so that any day of at most 4300 digits is accepted and 31 Feb
    gives [-02-31]. *)
Theorem date_part_format :
  (forall name birth_date id,
     create_person_id name birth_date = Ret (Some id) ->
     exists d mon yyyy rest m names,
       birth_date = "2 DATE " ++ d ++ " " ++ mon ++ " " ++ yyyy ++ rest
       /\ str_all is_decimal d = true /\ str_all is_decimal yyyy = true
       /\ (String.length d <= max_str_digits)%nat
       /\ strptime_b mon = Ret m /\ (1 <= m <= 12)%Z
       /\ id = yyyy ++ "-" ++ pad_02d m ++ "-" ++ pad_02d (int_of_digits d)
               ++ "_" ++ names
       /\ String.length (pad_02d m) = 2%nat
       /\ (2 <= String.length (pad_02d (int_of_digits d)))%nat
       /\ ((int_of_digits d < 10)%Z ->
           pad_02d (int_of_digits d) = String "0" (dec (Z.to_N (int_of_digits d)))))
  /\ (forall given surname d mon yyyy,
        str_all is_dot given = true -> contains " /" given = false ->
        str_all is_dot surname = true -> contains "/" surname = false ->
        str_all is_decimal d = true -> nonempty d = true ->
        (String.length d <= max_str_digits)%nat ->
        str_all is_decimal yyyy = true -> nonempty yyyy = true ->
        In (lower mon) month_abbr ->
        exists m names,
          create_person_id ("1 NAME " ++ given ++ " /" ++ surname ++ "/")
                           ("2 DATE " ++ d ++ " " ++ mon ++ " " ++ yyyy)
          = Ret (Some (yyyy ++ "-" ++ pad_02d m ++ "-"
                       ++ pad_02d (int_of_digits d) ++ "_" ++ names)))
  /\ create_person_id "1 NAME John /Smith/" "2 DATE 31 Feb 1980"
     = Ret (Some "1980-02-31_john_smith").
Proof.
  split; [|split; [|vm_compute; reflexivity]].
  - intros name birth_date id E.
    destruct (create_person_id_cases name birth_date)
      as [N | [(g1 & g2 & d & mon & y & m & _ & D & L & S & E') | (? & ? & ? & ? & ? & _ & _ & _ & R)]];
      [congruence | | congruence].
    rewrite E' in E. injection E as <-.
    destruct (date_re_captures _ _ D)
      as (d' & mon' & y' & rest & [= <- <- <-] & -> & Dd & _ & _ & _ & Dy & _).
    exists d, mon, y, rest, m, (name_part g1 g2).
    pose proof (strptime_b_range _ _ S) as R.
    repeat split; try assumption; try apply R.
    + now apply pad_02d_month.
    + apply pad_02d_length.
    + intros Small. apply pad_02d_small.
      split; [now apply int_of_digits_nonneg | exact Small].
  - intros given surname d mon yyyy Dg Sg Ds Ss Dd Nd Ld Dy Ny M.
    apply nonempty_true in Nd, Ny.
    destruct (month_name_word mon M) as [Wm Nm].
    apply In_nth_error in M as [k M].
    exists (Z.of_nat (S k)), (name_part given surname).
    rewrite (create_person_id_short _ _ given surname d mon yyyy
               (name_re_form given surname Dg Sg Ds Ss)
               (date_re_form d mon yyyy Dd Nd Wm Nm Dy Ny) Ld).
    now rewrite (strptime_b_complete mon k M).
Qed.

(** Day 99 of February, and a day of one digit. *)
Lemma date_part_format_examples :
  (exists m names,
     create_person_id "1 NAME John /Smith/" "2 DATE 99 FEB 1980"
     = Ret (Some ("1980" ++ "-" ++ pad_02d m ++ "-" ++ pad_02d 99 ++ "_" ++ names)))
  /\ (exists d mon yyyy rest m names,
        "2 DATE 7 mar 1975"
        = "2 DATE " ++ d ++ " " ++ mon ++ " " ++ yyyy ++ rest
        /\ str_all is_decimal d = true /\ str_all is_decimal yyyy = true
        /\ (String.length d <= max_str_digits)%nat
        /\ strptime_b mon = Ret m /\ (1 <= m <= 12)%Z
        /\ "1975-03-07_mary_ann_oneil"
           = yyyy ++ "-" ++ pad_02d m ++ "-" ++ pad_02d (int_of_digits d)
             ++ "_" ++ names
        /\ String.length (pad_02d m) = 2%nat
        /\ (2 <= String.length (pad_02d (int_of_digits d)))%nat
        /\ ((int_of_digits d < 10)%Z ->
            pad_02d (int_of_digits d) = String "0" (dec (Z.to_N (int_of_digits d))))).
Proof.
  destruct date_part_format as (Shape & Any & _). split.
  - apply (Any "John" "Smith" "99" "FEB" "1980"); try reflexivity.
    + within_limit.
    + right; left; reflexivity.
  - apply (Shape "1 NAME Mary Ann /O'Neil/"). vm_compute. reflexivity.
Defined.

(** ** The file of a photo *)

Lemma split_on_none (s : string) :
  str_all not_slash s = true -> split_on "/" s = [s].
Proof.
  induction s as [|c s IH]; [reflexivity|].
  cbn [str_all split_on]. intros H. apply andb_true_iff in H as [C A].
  unfold not_slash in C. apply negb_true_iff in C. now rewrite C, (IH A).
Qed.

Lemma long_is_component (s : string) :
  (2 <= String.length s)%nat -> is_component s = true.
Proof.
  destruct s as [|a [|b s]]; cbn [String.length]; try lia. intros _.
  unfold is_component. cbn [nonempty andb]. apply negb_true_iff.
  cbn [String.eqb]. destruct (Ascii.eqb a "."); reflexivity.
Qed.

(** A file name without separator is put under [photos]. *)
Lemma photos_parts (fname : string) :
  str_all not_slash fname = true -> is_component fname = true ->
  Path_of ("./photos/" ++ fname) = {| root := ""; parts := ["photos"; fname] |}.
Proof.
  intros A C. unfold Path_of. cbn [append path_root]. cbn [split_on].
  cbn [Ascii.eqb Bool.eqb]. rewrite (split_on_none fname A).
  cbn. now rewrite C.
Qed.

Lemma photos_path (fname : string) :
  str_all not_slash fname = true -> is_component fname = true ->
  joinpath (Path_of "./photos") fname = Path_of ("./photos/" ++ fname).
Proof.
  intros A C.
  assert (P : Path_of fname = {| root := ""; parts := [fname] |}).
  { unfold Path_of. rewrite (split_on_none fname A). cbn [filter]. rewrite C.
    f_equal. destruct fname as [|c fname]; [reflexivity|].
    cbn [str_all] in A. apply andb_true_iff in A as [A _].
    unfold not_slash in A. apply negb_true_iff in A.
    destruct (Ascii.eqb_spec c "/") as [->|N]; [discriminate|].
    unfold path_root.
    destruct c as [[] [] [] [] [] [] [] []]; try reflexivity. now destruct N. }
  unfold joinpath. rewrite P. cbn [root nonempty parts].
  rewrite (photos_parts fname A C). reflexivity.
Qed.

Lemma pad_02d_not_slash z : str_all not_slash (pad_02d z) = true.
Proof.
  assert (D : forall s, str_all is_decimal s = true -> str_all not_slash s = true).
  { intros s. apply str_all_impl. intros c C. unfold not_slash.
    now rewrite (decimal_not_slash c C). }
  unfold pad_02d. destruct (z <? 0)%Z.
  - cbn [append str_all]. unfold zfill.
    rewrite str_all_append, !D; [reflexivity | apply dec_digits | apply zeros_digits].
  - unfold zfill.
    rewrite str_all_append, !D; [reflexivity | apply dec_digits | apply zeros_digits].
Qed.

(** An identifier holds no separator of paths, and it is not empty. *)
Lemma identifier_not_slash (name birth_date id : string) :
  create_person_id name birth_date = Ret (Some id) ->
  str_all not_slash id = true /\ id <> "".
Proof.
  intros E.
  destruct (create_person_id_cases name birth_date)
    as [N | [(g1 & g2 & d & mon & y & m & _ & D & _ & _ & E')
            | (? & ? & ? & ? & ? & _ & _ & _ & R)]];
    [congruence | | congruence].
  rewrite E' in E. injection E as <-.
  destruct (date_re_captures _ _ D)
    as (d' & mon' & y' & rest & [= <- <- <-] & _ & _ & _ & _ & _ & Dy & Ny).
  split.
  - repeat (progress (rewrite ?str_all_append; cbn [str_all])).
    rewrite !pad_02d_not_slash.
    replace (str_all not_slash y) with true.
    2:{ symmetry. eapply str_all_impl; [|exact Dy].
        intros c C. unfold not_slash. now rewrite (decimal_not_slash c C). }
    replace (str_all not_slash (name_part g1 g2)) with true; [reflexivity|].
    symmetry. unfold name_part, re_sub_non_id.
    eapply str_all_impl; [|apply str_all_filter].
    intros c C. unfold not_slash. now rewrite (id_char_not_slash c C).
  - destruct y; [congruence | discriminate].
Qed.

(** The file [download_photo] is called with is
    [./photos/<identifier>_<NN>.jpg]. *)
Lemma target_joinpath (name birth_date id : string) n :
  create_person_id name birth_date = Ret (Some id) ->
  joinpath (Path_of "./photos") (id ++ "_" ++ pad_02d n ++ ".jpg") = target id n.
Proof.
  intros E. destruct (identifier_not_slash _ _ _ E) as [A Hne].
  unfold target. apply photos_path.
  - now rewrite !str_all_append, A, pad_02d_not_slash.
  - apply long_is_component. rewrite !length_append. cbn [String.length]. lia.
Qed.

Lemma target_parts (name birth_date id : string) n :
  create_person_id name birth_date = Ret (Some id) ->
  target id n
  = {| root := "";
       parts := ["photos"; (id ++ "_" ++ pad_02d n ++ ".jpg")%string] |}.
Proof.
  intros E. destruct (identifier_not_slash _ _ _ E) as [A Hne].
  unfold target. apply photos_parts.
  - now rewrite !str_all_append, A, pad_02d_not_slash.
  - apply long_is_component. rewrite !length_append. cbn [String.length]. lia.
Qed.


(* ================================================================= *)
(** ** Traces *)

Local Open Scope list_scope.

Lemma calls_app (t1 t2 : trace) : calls (t1 ++ t2) = calls t1 ++ calls t2.
Proof. apply flat_map_app. Qed.

Lemma gets_app (t1 t2 : trace) : gets (t1 ++ t2) = gets t1 ++ gets t2.
Proof. apply flat_map_app. Qed.

Lemma written_app (t1 t2 : trace) : written (t1 ++ t2) = written t1 ++ written t2.
Proof. apply flat_map_app. Qed.

Lemma prints_app (t1 t2 : trace) : prints (t1 ++ t2) = prints t1 ++ prints t2.
Proof. apply flat_map_app. Qed.

Lemma download_events_read file (rest : trace) :
  Forall (download_event file) rest ->
  calls rest = [] /\ gets rest = [] /\ Forall (eq file) (written rest).
Proof.
  induction rest as [|ev rest IH]; intros F; [now repeat split|].
  inversion F as [|? ? E F']; subst. destruct (IH F') as (C & G & W).
  destruct ev; cbn in E; try contradiction; subst;
    (split; [exact C|]; split; [exact G|]); cbn; try assumption;
    now constructor.
Qed.

Lemma file_writes_only file (cs : list string) :
  Forall (download_event file) (map (FileWrite file) cs).
Proof. induction cs; constructor; [reflexivity | assumption]. Qed.

(** The loop of [write_chunks] writes the chunks in order and stops at the
    first write that fails. *)
Lemma write_chunks_shape env file cs stop : forall t,
  exists r k,
    write_chunks env file cs stop t = (r, t ++ map (FileWrite file) (firstn k cs)).
Proof.
  induction cs as [|c cs IH]; intros t; cbn [write_chunks].
  - exists (match stop with Some e => Raise e | None => Ret tt end), 0%nat.
    cbn. rewrite app_nil_r. now destruct stop.
  - unfold bind, syscall. destruct (os_write env t file c) as [e|].
    + now exists (Raise e), 1%nat.
    + destruct (IH (t ++ [FileWrite file c])) as (r & k & ->).
      exists r, (S k). cbn. now rewrite <- app_assoc.
Qed.

Lemma write_chunks_ok env file cs stop : forall t t',
  write_chunks env file cs stop t = (Ret tt, t') <->
  writes_ok env t file cs = true /\ stop = None
  /\ t' = t ++ map (FileWrite file) cs.
Proof.
  induction cs as [|c cs IH]; intros t t'; cbn [write_chunks writes_ok map].
  - rewrite app_nil_r. destruct stop as [e|]; unfold raise, ret; split.
    + discriminate.
    + now intros (_ & [=] & _).
    + now intros [= <-].
    + now intros (_ & _ & ->).
  - unfold bind, syscall. destruct (os_write env t file c) as [e|].
    + split; [discriminate | now intros ([=] & _)].
    + rewrite IH, <- app_assoc. reflexivity.
Qed.

(** The chunks before a write that fails are written, the failing write is
    the last event, and its error is raised. *)
Lemma write_chunks_fails env file (done : list string) c (rest : list string) stop e :
  forall t,
  writes_ok env t file done = true ->
  os_write env (t ++ map (FileWrite file) done) file c = Some e ->
  write_chunks env file (done ++ c :: rest) stop t
  = (Raise e, t ++ map (FileWrite file) (done ++ [c])).
Proof.
  induction done as [|d done IH]; intros t; cbn [writes_ok app map write_chunks].
  - rewrite app_nil_r. intros _ W. unfold bind, syscall. now rewrite W.
  - unfold bind, syscall. destruct (os_write env t file d) as [e'|]; [discriminate|].
    intros Ok W. rewrite (IH (t ++ [FileWrite file d]) Ok).
    + now rewrite <- app_assoc.
    + now rewrite <- app_assoc.
Qed.

(** What one call of [download_photo] adds to the trace: the call, one
    request for the URL, then events of the file of the call and at most
    one printed line, which reports the failure; and it returns. *)
Lemma download_photo_events env url filename t :
  exists b rest,
    download_photo env url filename t
    = (Ret b, t ++ Call_download_photo url filename :: HttpGet url :: rest)
    /\ Forall (download_event filename) rest.
Proof.
  unfold download_photo, download_photo_try, bind, emit, try_except, http_get,
    raise_for_status, syscall, closing, print, emit. fold (failure_line url).
  set (t1 := t ++ [Call_download_photo url filename]).
  assert (Fail : forall e, download_event filename (Stdout (failure_line url e)))
    by (intros e; reflexivity).
  destruct (requests_get env t1 url) as [resp|e].
  - destruct (status_error resp) as [e|]; unfold raise, ret.
    + exists false, [Stdout (failure_line url e)].
      unfold t1. rewrite <- !app_assoc. cbn [app]. split; [reflexivity|].
      now repeat constructor.
    + destruct (os_open_write env (t1 ++ [HttpGet url]) filename) as [e|].
      * exists false, [OpenWrite filename; Stdout (failure_line url e)].
        unfold t1. rewrite <- !app_assoc. cbn [app]. split; [reflexivity|].
        now repeat constructor.
      * destruct (write_chunks_shape env filename (chunks resp) (stream_error resp)
                    ((t1 ++ [HttpGet url]) ++ [OpenWrite filename]))
          as (r & k & ->).
        pose proof (file_writes_only filename (firstn k (chunks resp))) as W.
        set (ws := map (FileWrite filename) (firstn k (chunks resp))) in *.
        assert (Shape : forall tail : trace,
                   Forall (download_event filename) tail ->
                   Forall (download_event filename)
                     (OpenWrite filename :: ws ++ Close filename :: tail)).
        { intros tail T. constructor; [reflexivity|]. apply Forall_app.
          split; [exact W|]. constructor; [reflexivity | exact T]. }
        destruct (os_close env _ filename) as [e2|].
        -- exists false, (OpenWrite filename :: ws ++ [Close filename;
                                                       Stdout (failure_line url e2)]).
           unfold t1. rewrite <- !app_assoc. cbn [app]. split; [reflexivity|].
           apply Shape. now repeat constructor.
        -- destruct r as [[]|e].
           ++ exists true, (OpenWrite filename :: ws ++ [Close filename]).
              unfold t1. rewrite <- !app_assoc. cbn [app]. split; [reflexivity|].
              apply Shape. constructor.
           ++ exists false, (OpenWrite filename :: ws ++ [Close filename;
                                                          Stdout (failure_line url e)]).
              unfold t1. rewrite <- !app_assoc. cbn [app]. split; [reflexivity|].
              apply Shape. now repeat constructor.
  - exists false, [Stdout (failure_line url e)].
    unfold t1. rewrite <- !app_assoc. cbn [app]. split; [reflexivity|].
    now repeat constructor.
Qed.

(** ** The loop body and its effect-free reading *)

Lemma download_event_quiet file ev : download_event file ev -> quiet_event ev.
Proof. destruct ev; cbn; auto. Qed.

Lemma announced_quiet_app (a b : trace) :
  Forall quiet_event a -> announced b -> no_call_first b -> announced (a ++ b).
Proof.
  induction a as [|ev a IH]; intros Q A N; [exact A|].
  inversion Q as [|? ? Qe Qa]; subst. specialize (IH Qa A N).
  destruct ev; cbn in Qe; try contradiction; cbn [app announced]; try exact IH.
  assert (K : no_call_first (a ++ b)).
  { destruct a as [|ev' a]; [exact N|]. inversion Qa as [|? ? Qe' _]; subst.
    destruct ev'; cbn in Qe'; try contradiction; exact I. }
  destruct (a ++ b) as [|[] ?]; cbn in K; try contradiction; now split.
Qed.

Lemma line_events_announced reqs (new b : trace) :
  line_events reqs new -> announced b -> no_call_first b ->
  announced (new ++ b) /\ no_call_first (new ++ b).
Proof.
  intros [[_ ->] | (url & file & rest & _ & -> & F)] A N; [now split|].
  split; [|exact I]. cbn [app announced]. split; [reflexivity|].
  apply (announced_quiet_app (HttpGet url :: rest)); try assumption.
  constructor; [exact I|].
  eapply Forall_impl; [|exact F]. apply download_event_quiet.
Qed.

Lemma line_events_read reqs (new : trace) :
  line_events reqs new ->
  calls new = reqs /\ gets new = map fst reqs
  /\ Forall (fun f => In f (map snd reqs)) (written new).
Proof.
  intros [[-> ->] | (url & file & rest & -> & -> & F)]; [now repeat split|].
  destruct (download_events_read file rest F) as (C & G & W).
  unfold calls, gets, written in *. cbn. rewrite C, G.
  repeat split. eapply Forall_impl; [|exact W]. intros f <-. now left.
Qed.

(** One line: the loop body raises what [line_error] gives, with the trace
    as it is; else it returns the state [advance] gives, and the trace grows
    by the events of the download [request] gives. *)
Lemma process_line_events env photos_dir st raw t :
  match line_error st raw with
  | Some e => process_line env photos_dir st raw t = (Raise e, t)
  | None =>
      exists new,
        process_line env photos_dir st raw t = (Ret (advance st raw), t ++ new)
        /\ line_events (request photos_dir st raw) new
  end.
Proof.
  unfold process_line, line_error, photo_error, advance, request, is_boundary, is_name_line,
    is_date_line, is_file_line, derived_id, photo_url.
  set (line := strip raw).
  assert (Quiet : forall s : scan_state, exists new : trace,
             ret s t = (Ret s, t ++ new) /\ line_events [] new).
  { intros s. exists []. rewrite app_nil_r. split; [reflexivity|]. now left. }
  destruct (startswith "0 @I" line && contains " INDI" line); [apply Quiet|].
  destruct (startswith "1 NAME " line); [apply Quiet|].
  destruct (startswith "2 DATE " line); [apply Quiet|].
  destruct (startswith "2 FILE " line); [|apply Quiet].
  destruct (current_name st) as [name|]; [|apply Quiet].
  destruct (current_birth_date st) as [birth_date|]; [|apply Quiet].
  destruct (nonempty name && nonempty birth_date); [|apply Quiet].
  unfold bind, lift, print, emit.
  destruct (create_person_id name birth_date) as [[id|]|e]; cbv beta iota;
    [| apply Quiet | reflexivity].
  destruct (nonempty id); [|apply Quiet].
  unfold format_02d.
  destruct (10 ^ Z.of_nat max_str_digits <=? Z.abs (photo_count st + 1))%Z;
    cbv beta iota; [reflexivity|].
  match goal with
  | |- context [download_photo env ?u ?f ?t'] =>
      destruct (download_photo_events env u f t') as (b & rest & -> & F)
  end.
  eexists (_ :: _ :: _ :: rest). rewrite <- app_assoc. cbn [app].
  split; [reflexivity|]. right. eexists _, _, rest.
  split; [reflexivity|]. split; [reflexivity | exact F].
Qed.

Lemma scan_result_cons st raw (lines : list string) :
  scan_result st (raw :: lines)
  = match line_error st raw with
    | Some e => Raise e
    | None => scan_result (advance st raw) lines
    end.
Proof. unfold scan_result. cbn [scan_error advance_all fold_left].
  now destruct (line_error st raw). Qed.

(** The loop: it ends as [scan_result] says, and the trace grows by the
    events of the downloads [requests] gives. *)
Lemma scan_events env photos_dir lines : forall st t,
  exists new,
    scan env photos_dir lines st t = (scan_result st lines, t ++ new)
    /\ calls new = requests photos_dir st lines
    /\ gets new = map fst (requests photos_dir st lines)
    /\ Forall (fun f => In f (map snd (requests photos_dir st lines))) (written new)
    /\ announced new /\ no_call_first new.
Proof.
  induction lines as [|raw lines IH]; intros st t.
  - exists []. rewrite app_nil_r. repeat split. constructor.
  - rewrite scan_result_cons. cbn [scan requests]. unfold bind.
    pose proof (process_line_events env photos_dir st raw t) as P.
    destruct (line_error st raw) as [e|].
    + rewrite P. exists []. rewrite app_nil_r. repeat split. constructor.
    + destruct P as (new1 & -> & L).
      destruct (IH (advance st raw) (t ++ new1)) as (new2 & -> & C2 & G2 & W2 & A2 & N2).
      destruct (line_events_read _ _ L) as (C1 & G1 & W1).
      destruct (line_events_announced _ _ _ L A2 N2) as [A N].
      exists (new1 ++ new2).
      rewrite app_assoc, calls_app, gets_app, written_app, !map_app, C1, C2, G1, G2.
      repeat split; try assumption. apply Forall_app. split.
      * eapply Forall_impl; [|exact W1]. intros f H. apply in_or_app. now left.
      * eapply Forall_impl; [|exact W2]. intros f H. apply in_or_app. now right.
Qed.

(** The loop raises nothing when [scan_error] finds nothing. *)
Lemma scan_effect env photos_dir lines st t :
  scan_error st lines = None ->
  exists new,
    scan env photos_dir lines st t = (Ret (advance_all st lines), t ++ new)
    /\ calls new = requests photos_dir st lines.
Proof.
  intros E. destruct (scan_events env photos_dir lines st t) as (new & S & C & _).
  exists new. unfold scan_result in S. rewrite E in S. now split.
Qed.

(** A loop that returned raised nothing, and ended in the state
    [advance_all] gives. *)
Lemma scan_returned env photos_dir lines st t st' t' :
  scan env photos_dir lines st t = (Ret st', t') ->
  scan_error st lines = None /\ st' = advance_all st lines
  /\ exists new, t' = t ++ new /\ calls new = requests photos_dir st lines.
Proof.
  intros E. destruct (scan_events env photos_dir lines st t) as (new & S & C & _).
  rewrite S in E. unfold scan_result in E.
  destruct (scan_error st lines); [discriminate|].
  injection E as <- <-. repeat split. now exists new.
Qed.

Lemma scan_app env photos_dir (l1 l2 : list string) st t :
  scan env photos_dir (l1 ++ l2) st t
  = bind (scan env photos_dir l1 st) (scan env photos_dir l2) t.
Proof.
  revert st t. induction l1 as [|raw l1 IH]; intros st t; [reflexivity|].
  cbn [scan app]. unfold bind.
  destruct (process_line env photos_dir st raw t) as [[st'|e] t']; [|reflexivity].
  apply IH.
Qed.

Lemma advance_all_app (l1 l2 : list string) st :
  advance_all st (l1 ++ l2) = advance_all (advance_all st l1) l2.
Proof. apply fold_left_app. Qed.

Lemma scan_error_app (l1 l2 : list string) : forall st,
  scan_error st (l1 ++ l2)
  = match scan_error st l1 with
    | Some e => Some e
    | None => scan_error (advance_all st l1) l2
    end.
Proof.
  induction l1 as [|raw l1 IH]; intros st; [reflexivity|].
  cbn [app scan_error advance_all fold_left].
  destruct (line_error st raw); [reflexivity | apply IH].
Qed.

Lemma requests_app photos_dir (l1 l2 : list string) : forall st,
  requests photos_dir st (l1 ++ l2)
  = requests photos_dir st l1
    ++ match scan_error st l1 with
       | Some _ => []
       | None => requests photos_dir (advance_all st l1) l2
       end.
Proof.
  induction l1 as [|raw l1 IH]; intros st; [reflexivity|].
  cbn [app requests scan_error advance_all fold_left].
  destruct (line_error st raw); [reflexivity|].
  now rewrite IH, app_assoc.
Qed.

(** ** The kinds of line *)

Lemma startswith_other (p q s : string) :
  startswith p s = true -> (forall r, startswith q (p ++ r) = false) ->
  startswith q s = false.
Proof. intros P Q. destruct (prefix_split _ _ P) as [r ->]. apply Q. Qed.

Lemma name_line_kind raw : is_name_line raw = true -> is_boundary raw = false.
Proof.
  unfold is_name_line, is_boundary. intros H.
  now rewrite (startswith_other "1 NAME " "0 @I" _ H).
Qed.

Lemma date_line_kind raw :
  is_date_line raw = true -> is_boundary raw = false /\ is_name_line raw = false.
Proof.
  unfold is_date_line, is_boundary, is_name_line. intros H.
  now rewrite (startswith_other "2 DATE " "0 @I" _ H),
              (startswith_other "2 DATE " "1 NAME " _ H).
Qed.

Lemma file_line_kind raw :
  is_file_line raw = true ->
  is_boundary raw = false /\ is_name_line raw = false /\ is_date_line raw = false.
Proof.
  unfold is_file_line, is_date_line, is_boundary, is_name_line. intros H.
  now rewrite (startswith_other "2 FILE " "0 @I" _ H),
              (startswith_other "2 FILE " "1 NAME " _ H),
              (startswith_other "2 FILE " "2 DATE " _ H).
Qed.

Lemma line_error_file st raw :
  is_file_line raw = true -> line_error st raw = photo_error st.
Proof.
  intros H. unfold line_error.
  destruct (file_line_kind _ H) as (-> & -> & ->). now rewrite H.
Qed.

Lemma line_error_other st raw : is_file_line raw = false -> line_error st raw = None.
Proof.
  intros H. unfold line_error. rewrite H.
  now destruct (is_boundary raw), (is_name_line raw), (is_date_line raw).
Qed.

Lemma advance_name st raw :
  is_name_line raw = true ->
  advance st raw =
  {| current_person := current_person st; current_name := Some (strip raw);
     current_birth_date := current_birth_date st; photo_count := photo_count st |}
  /\ forall photos_dir, request photos_dir st raw = [].
Proof.
  intros H. unfold advance, request. now rewrite (name_line_kind _ H), H.
Qed.

Lemma advance_date st raw :
  is_date_line raw = true ->
  advance st raw =
  {| current_person := current_person st; current_name := current_name st;
     current_birth_date := Some (strip raw); photo_count := photo_count st |}
  /\ forall photos_dir, request photos_dir st raw = [].
Proof.
  intros H. unfold advance, request.
  destruct (date_line_kind _ H) as [-> ->]. now rewrite H.
Qed.

Lemma advance_file st raw :
  is_file_line raw = true ->
  match derived_id st with
  | Some id =>
      advance st raw =
      {| current_person := current_person st; current_name := current_name st;
         current_birth_date := current_birth_date st;
         photo_count := photo_count st + 1 |}
      /\ forall photos_dir,
           request photos_dir st raw =
           [(photo_url raw,
             joinpath photos_dir
               (id ++ "_" ++ pad_02d (photo_count st + 1) ++ ".jpg")%string)]
  | None => advance st raw = st /\ forall photos_dir, request photos_dir st raw = []
  end.
Proof.
  intros H. unfold advance, request.
  destruct (file_line_kind _ H) as (-> & -> & ->). rewrite H.
  now destruct (derived_id st).
Qed.

Lemma advance_other st raw :
  is_boundary raw = false -> is_file_line raw = false ->
  photo_count (advance st raw) = photo_count st
  /\ forall photos_dir, request photos_dir st raw = [].
Proof.
  intros B F. unfold advance, request. rewrite B, F.
  now destruct (is_name_line raw), (is_date_line raw).
Qed.

(** The lines [create_person_id] returns an identifier for are not empty. *)
Lemma identified_lines_nonempty (name birth_date id : string) :
  create_person_id name birth_date = Ret (Some id) ->
  nonempty name = true /\ nonempty birth_date = true /\ nonempty id = true.
Proof.
  intros E. destruct (identifier_not_slash _ _ _ E) as [_ Hid].
  destruct (create_person_id_cases name birth_date)
    as [N | [(g1 & g2 & d & mon & y & m & N & D & _)
            | (? & ? & ? & ? & ? & _ & _ & _ & R)]];
    [congruence | | congruence].
  destruct (name_re_captures _ _ N) as (? & ? & ? & _ & ->).
  destruct (date_re_captures _ _ D) as (? & ? & ? & ? & _ & -> & _).
  repeat split. now destruct id.
Qed.

(** The lines [create_person_id] raises for are not empty. *)
Lemma raising_lines_nonempty (name birth_date : string) e :
  create_person_id name birth_date = Raise e ->
  nonempty name = true /\ nonempty birth_date = true.
Proof.
  intros E.
  destruct (create_person_id_cases name birth_date)
    as [N | [(? & ? & ? & ? & ? & ? & _ & _ & _ & _ & R)
            | (? & ? & ? & ? & ? & N & D & _)]];
    [congruence | congruence |].
  destruct (name_re_captures _ _ N) as (? & ? & ? & _ & ->).
  destruct (date_re_captures _ _ D) as (? & ? & ? & ? & _ & -> & _).
  now split.
Qed.

(** The identifier of a state is the one [create_person_id] returns for the
    stored name and date. *)
Lemma derived_id_some st id :
  derived_id st = Some id <->
  exists name birth_date,
    current_name st = Some name /\ current_birth_date st = Some birth_date
    /\ create_person_id name birth_date = Ret (Some id).
Proof.
  unfold derived_id. split.
  - destruct (current_name st) as [name|]; [|discriminate].
    destruct (current_birth_date st) as [birth_date|]; [|discriminate].
    destruct (nonempty name && nonempty birth_date); [|discriminate].
    destruct (create_person_id name birth_date) as [[id'|]|] eqn:E; try discriminate.
    destruct (nonempty id'); [|discriminate].
    intros [= <-]. now exists name, birth_date.
  - intros (name & birth_date & -> & -> & E). rewrite E.
    destruct (identified_lines_nonempty _ _ _ E) as (-> & -> & ->). reflexivity.
Qed.

Lemma derives_derived_id st id : derives st id -> derived_id st = Some id.
Proof. apply derived_id_some. Qed.

Lemma derived_id_none_name st : current_name st = None -> derived_id st = None.
Proof. unfold derived_id. now intros ->. Qed.

Lemma derived_id_none_date st : current_birth_date st = None -> derived_id st = None.
Proof. unfold derived_id. intros ->. now destruct (current_name st). Qed.

(** A state without identifier and without error. *)
Lemma no_identifier_reads st :
  no_identifier st -> derived_id st = None /\ photo_error st = None.
Proof.
  unfold derived_id, photo_error.
  intros [N | [D | (name & birth_date & N & D & E)]].
  - now rewrite N.
  - rewrite D. now destruct (current_name st).
  - rewrite N, D, E. now destruct (nonempty name && nonempty birth_date).
Qed.

(** A state that derives an identifier, with a counter the format
    converts. *)
Lemma derives_reads st id :
  derives st id -> formats_next st ->
  derived_id st = Some id /\ photo_error st = None
  /\ format_02d (photo_count st + 1) = Ret (pad_02d (photo_count st + 1)).
Proof.
  intros D F. pose proof (derives_derived_id st id D) as DI.
  pose proof (format_02d_within _ F) as Fm.
  split; [exact DI|]. split; [|exact Fm].
  destruct D as (name & birth_date & N & Dt & E).
  unfold photo_error. rewrite N, Dt, E, Fm.
  destruct (identified_lines_nonempty _ _ _ E) as (-> & -> & ->). reflexivity.
Qed.

(* ================================================================= *)
(** ** The scanner: the claims *)

Local Open Scope Z_scope.

Lemma no_name_line_keeps_none (mid : list string) : forall st,
  current_name st = None ->
  Forall (fun l => is_name_line l = false) mid ->
  current_name (advance_all st mid) = None.
Proof.
  induction mid as [|l mid IH]; intros st E F; [exact E|].
  inversion F as [|? ? Fl Fm]; subst. cbn [advance_all fold_left].
  apply IH; [|exact Fm]. unfold advance. rewrite Fl.
  destruct (is_boundary l); [reflexivity|].
  destruct (is_date_line l); [exact E|].
  destruct (is_file_line l); [|exact E]. now destruct (derived_id st).
Qed.

Lemma no_date_line_keeps_none (mid : list string) : forall st,
  current_birth_date st = None ->
  Forall (fun l => is_date_line l = false) mid ->
  current_birth_date (advance_all st mid) = None.
Proof.
  induction mid as [|l mid IH]; intros st E F; [exact E|].
  inversion F as [|? ? Fl Fm]; subst. cbn [advance_all fold_left].
  apply IH; [|exact Fm]. unfold advance. rewrite Fl.
  destruct (is_boundary l); [reflexivity|].
  destruct (is_name_line l); [exact E|].
  destruct (is_file_line l); [|exact E]. now destruct (derived_id st).
Qed.

Lemma advance_all_boundary st b (mid : list string) :
  is_boundary b = true ->
  advance_all st (b :: mid)
  = advance_all {| current_person := Some (strip b); current_name := None;
                   current_birth_date := None; photo_count := 0 |} mid.
Proof. intros B. cbn [advance_all fold_left]. unfold advance at 2. now rewrite B. Qed.

(** A photo line met in a state without identifier changes nothing. *)
Lemma photo_line_without_id env photos_dir st raw t :
  is_file_line raw = true -> no_identifier st ->
  process_line env photos_dir st raw t = (Ret st, t).
Proof.
  intros F N. destruct (no_identifier_reads st N) as [D E].
  pose proof (process_line_events env photos_dir st raw t) as P.
  rewrite (line_error_file st raw F), E in P. destruct P as (new & -> & L).
  pose proof (advance_file st raw F) as A. rewrite D in A. destruct A as [-> R].
  rewrite (R photos_dir) in L.
  destruct L as [[_ ->] | (? & ? & ? & [=] & _)]. now rewrite app_nil_r.
Qed.

(** C4. A photo line met while the name line or the date line of the current
    person is absent produces no download attempt: the scan of the lines up to
    and including it ends in the same state and with the same trace (nothing
    printed, requested or written) as the scan of the lines before it.  This
    holds when the state stores no name or no date, and so when no name line,
    or no date line, was met since the last person boundary. *)
Theorem photo_line_skipped_without_name_or_date :
  (forall env lines raw st t0 t,
     scan env (Path_of "./photos") lines initial_state t0 = (Ret st, t) ->
     is_file_line raw = true ->
     current_name st = None \/ current_birth_date st = None ->
     scan env (Path_of "./photos") (lines ++ [raw]) initial_state t0 = (Ret st, t)
     /\ forall id, ~ derives st id)
  /\ (forall env before b mid raw t0,
        is_boundary b = true ->
        Forall (fun l => is_name_line l = false) mid
        \/ Forall (fun l => is_date_line l = false) mid ->
        is_file_line raw = true ->
        scan env (Path_of "./photos") (before ++ b :: mid ++ [raw]) initial_state t0
        = scan env (Path_of "./photos") (before ++ b :: mid) initial_state t0).
Proof.
  assert (Skip : forall st, current_name st = None \/ current_birth_date st = None ->
                            no_identifier st)
    by (intros st [E|E]; [now left | now right; left]).
  split.
  - intros env lines raw st t0 t S F Absent. split.
    + rewrite scan_app. unfold bind. rewrite S. cbn [scan]. unfold bind.
      rewrite (photo_line_without_id env _ st raw t F (Skip st Absent)).
      reflexivity.
    + intros id D. apply derived_id_some in D.
      rewrite (proj1 (no_identifier_reads st (Skip st Absent))) in D.
      discriminate.
  - intros env before b mid raw t0 B Absent F.
    replace (before ++ b :: mid ++ [raw]) with ((before ++ b :: mid) ++ [raw])
      by (now rewrite <- app_assoc).
    rewrite scan_app. unfold bind.
    destruct (scan env (Path_of "./photos") (before ++ b :: mid) initial_state t0)
      as [[st1|e] t1] eqn:S; [|reflexivity].
    destruct (scan_returned _ _ _ _ _ _ _ S) as (_ & -> & _).
    cbn [scan]. unfold bind.
    rewrite photo_line_without_id; [reflexivity | exact F |].
    apply Skip. rewrite advance_all_app, (advance_all_boundary _ b mid B).
    destruct Absent as [N|D].
    + left. now apply no_name_line_keeps_none.
    + right. now apply no_date_line_keeps_none.
Qed.

(** No name, so the photo line is skipped: the record of a person whose date
    line is missing. *)
Lemma photo_line_skipped_example :
  scan friendly (Path_of "./photos")
    (["0 @I1@ INDI"; "1 NAME John /Smith/"] ++ ["2 FILE http://example.com/a.jpg"])
    initial_state []
  = (Ret {| current_person := Some "0 @I1@ INDI";
            current_name := Some "1 NAME John /Smith/";
            current_birth_date := None; photo_count := 0 |}, [])
  /\ forall id,
       ~ derives {| current_person := Some "0 @I1@ INDI";
                    current_name := Some "1 NAME John /Smith/";
                    current_birth_date := None; photo_count := 0 |} id.
Proof.
  exact (proj1 photo_line_skipped_without_name_or_date friendly
           ["0 @I1@ INDI"; "1 NAME John /Smith/"] "2 FILE http://example.com/a.jpg"
           _ [] [] eq_refl eq_refl (or_intror eq_refl)).
Defined.

(** A photo line met in a state that derives [id] prints the download, calls
    [download_photo] for the file of the next number, and counts the photo
    whatever [download_photo] returns. *)
Lemma photo_line_with_id env st raw t id :
  is_file_line raw = true -> derives st id -> formats_next st ->
  exists ok new,
    download_photo env (photo_url raw) (target id (photo_count st + 1))
      (t ++ [Stdout ("Downloading " ++ photo_url raw ++ " to "
                     ++ path_str (target id (photo_count st + 1)))%string])
    = (Ret ok, t ++ new)
    /\ process_line env (Path_of "./photos") st raw t
       = (Ret {| current_person := current_person st; current_name := current_name st;
                 current_birth_date := current_birth_date st;
                 photo_count := photo_count st + 1 |}, t ++ new)
    /\ calls new = [(photo_url raw, target id (photo_count st + 1))].
Proof.
  intros F D Fm.
  destruct (derives_reads st id D Fm) as (DI & _ & Fmt).
  destruct D as (name & birth_date & En & Ed & Eid).
  destruct (identified_lines_nonempty _ _ _ Eid) as (Nn & Nd & Ni).
  destruct (file_line_kind raw F) as (B & N & Dt).
  unfold process_line, is_boundary, is_name_line, is_date_line,
    is_file_line, photo_url in *.
  rewrite B, N, Dt, F, En, Ed, Nn, Nd. cbn [andb].
  unfold bind, lift, print, emit. rewrite Eid, Ni, Fmt. cbv beta iota.
  rewrite (target_joinpath name birth_date id _ Eid).
  match goal with
  | |- context [download_photo env ?u ?f ?t'] =>
      destruct (download_photo_events env u f t') as (ok & rest & E & W)
  end.
  rewrite E. unfold ret. rewrite <- app_assoc in *. cbn [app] in *.
  exists ok. eexists. split; [reflexivity|]. split; [reflexivity|].
  destruct (download_events_read _ _ W) as (C & _).
  unfold calls in *. cbn. now rewrite C.
Qed.

(** C10. The photo counter goes up by one exactly on a photo line for which
    an identifier is derived, whatever [download_photo] returns for it; it
    stays as it is, and so does the trace, on a photo line for which no
    identifier is derived (the name or the date is missing, or
    [create_person_id] returns [None]) and on every other line that is not a
    person boundary; two photo lines in a row get two numbers in a row, in
    every outside world.  The counter is one the format converts (below
    [10 ^ 4300]). *)
Theorem photo_count_increments :
  (forall env st raw t id,
     is_file_line raw = true -> derives st id -> formats_next st ->
     exists ok new,
       download_photo env (photo_url raw) (target id (photo_count st + 1))
         (t ++ [Stdout ("Downloading " ++ photo_url raw ++ " to "
                        ++ path_str (target id (photo_count st + 1)))%string])
       = (Ret ok, t ++ new)
       /\ process_line env (Path_of "./photos") st raw t
          = (Ret {| current_person := current_person st;
                    current_name := current_name st;
                    current_birth_date := current_birth_date st;
                    photo_count := photo_count st + 1 |}, t ++ new)
       /\ calls new = [(photo_url raw, target id (photo_count st + 1))])
  /\ (forall env st raw t,
        is_file_line raw = true -> no_identifier st ->
        process_line env (Path_of "./photos") st raw t = (Ret st, t))
  /\ (forall env st raw t,
        is_file_line raw = false -> is_boundary raw = false ->
        exists st',
          process_line env (Path_of "./photos") st raw t = (Ret st', t)
          /\ photo_count st' = photo_count st)
  /\ (forall env st raw raw' t id,
        is_file_line raw = true -> is_file_line raw' = true -> derives st id ->
        0 <= photo_count st -> photo_count st + 2 < 10 ^ Z.of_nat max_str_digits ->
        exists st' new,
          scan env (Path_of "./photos") [raw; raw'] st t = (Ret st', t ++ new)
          /\ calls new = [(photo_url raw, target id (photo_count st + 1));
                          (photo_url raw', target id (photo_count st + 2))]
          /\ photo_count st' = photo_count st + 2).
Proof.
  split; [exact photo_line_with_id|]. split; [|split].
  - intros env st raw t F N. now apply photo_line_without_id.
  - intros env st raw t F B.
    pose proof (process_line_events env (Path_of "./photos") st raw t) as P.
    rewrite (line_error_other st raw F) in P. destruct P as (new & E & L).
    destruct (advance_other st raw B F) as [Cnt R].
    rewrite (R (Path_of "./photos")) in L.
    destruct L as [[_ ->] | (? & ? & ? & [=] & _)].
    rewrite app_nil_r in E. now exists (advance st raw).
  - intros env st raw raw' t id F F' D Pos Lim. cbn [scan]. unfold bind.
    assert (F1 : formats_next st) by (unfold formats_next; lia).
    destruct (photo_line_with_id env st raw t id F D F1) as (ok1 & new1 & _ & -> & C1).
    match goal with
    | |- context [process_line env _ ?s raw' _] =>
        assert (F2 : formats_next s)
          by (unfold formats_next; cbn [photo_count]; lia);
        destruct (photo_line_with_id env s raw' (t ++ new1) id F' D F2)
          as (ok2 & new2 & _ & -> & C2)
    end.
    eexists. exists (new1 ++ new2). unfold ret. rewrite app_assoc.
    split; [reflexivity|].
    cbn [photo_count] in *. rewrite calls_app, C1, C2.
    replace (photo_count st + 1 + 1)%Z with (photo_count st + 2)%Z by lia.
    split; [reflexivity | lia].
Qed.

(** Every request fails: [download_photo] returns [False] for the first
    photo, and the two photos still get the numbers 1 and 2; and a photo line
    met while the month of the stored date is none leaves the counter. *)
Lemma photo_count_increments_offline :
  (exists st' new,
     scan (offline []) (Path_of "./photos")
       ["2 FILE http://example.com/a.jpg"; "2 FILE http://example.com/b.jpg"]
       {| current_person := Some "0 @I1@ INDI";
          current_name := Some "1 NAME John /Smith/";
          current_birth_date := Some "2 DATE 15 Jan 1980"; photo_count := 0 |} []
     = (Ret st', [] ++ new)
     /\ calls new = [("http://example.com/a.jpg", target "1980-01-15_john_smith" (0 + 1));
                     ("http://example.com/b.jpg", target "1980-01-15_john_smith" (0 + 2))]
     /\ photo_count st' = (0 + 2)%Z)
  /\ fst (download_photo (offline []) "http://example.com/a.jpg"
            (target "1980-01-15_john_smith" 1) []) = Ret false
  /\ process_line (offline []) (Path_of "./photos")
       {| current_person := Some "0 @I1@ INDI";
          current_name := Some "1 NAME John /Smith/";
          current_birth_date := Some "2 DATE 15 Sept 1980"; photo_count := 3 |}
       "2 FILE http://example.com/a.jpg" []
     = (Ret {| current_person := Some "0 @I1@ INDI";
               current_name := Some "1 NAME John /Smith/";
               current_birth_date := Some "2 DATE 15 Sept 1980"; photo_count := 3 |}, []).
Proof.
  destruct photo_count_increments as (_ & Skip & _ & Two).
  split; [|split; [vm_compute; reflexivity|]].
  - apply (Two (offline [])
             {| current_person := Some "0 @I1@ INDI";
                current_name := Some "1 NAME John /Smith/";
                current_birth_date := Some "2 DATE 15 Jan 1980"; photo_count := 0 |}
             "2 FILE http://example.com/a.jpg" "2 FILE http://example.com/b.jpg" []
             "1980-01-15_john_smith" eq_refl eq_refl).
    + exists "1 NAME John /Smith/", "2 DATE 15 Jan 1980".
      repeat split; vm_compute; reflexivity.
    + cbn [photo_count]. lia.
    + cbn [photo_count]. pose proof ten_le_limit.
      change (10 ^ 2) with 100 in *. lia.
  - apply Skip; [reflexivity|]. right; right.
    exists "1 NAME John /Smith/", "2 DATE 15 Sept 1980".
    repeat split; vm_compute; reflexivity.
Defined.

Lemma name_kept (mid : list string) : forall st name,
  current_name st = Some name ->
  Forall (fun l => is_boundary l = false /\ is_name_line l = false) mid ->
  current_name (advance_all st mid) = Some name.
Proof.
  induction mid as [|l mid IH]; intros st name E F; [exact E|].
  inversion F as [|? ? [B N] Fm]; subst. cbn [advance_all fold_left].
  apply IH; [|exact Fm]. unfold advance. rewrite B, N.
  destruct (is_date_line l); [exact E|].
  destruct (is_file_line l); [|exact E]. now destruct (derived_id st).
Qed.

Lemma date_kept (mid : list string) : forall st birth_date,
  current_birth_date st = Some birth_date ->
  Forall (fun l => is_boundary l = false /\ is_date_line l = false) mid ->
  current_birth_date (advance_all st mid) = Some birth_date.
Proof.
  induction mid as [|l mid IH]; intros st birth_date E F; [exact E|].
  inversion F as [|? ? [B D] Fm]; subst. cbn [advance_all fold_left].
  apply IH; [|exact Fm]. unfold advance. rewrite B, D.
  destruct (is_name_line l); [exact E|].
  destruct (is_file_line l); [|exact E]. now destruct (derived_id st).
Qed.

(** A line that asks for no download and raises nothing leaves the trace. *)
Lemma process_line_silent env photos_dir st raw t :
  line_error st raw = None -> request photos_dir st raw = [] ->
  process_line env photos_dir st raw t = (Ret (advance st raw), t).
Proof.
  intros E R. pose proof (process_line_events env photos_dir st raw t) as P.
  rewrite E in P. destruct P as (new & -> & L). rewrite R in L.
  destruct L as [[_ ->] | (? & ? & ? & [=] & _)]. now rewrite app_nil_r.
Qed.

Lemma process_line_name env photos_dir st raw t :
  is_name_line raw = true ->
  process_line env photos_dir st raw t
  = (Ret {| current_person := current_person st; current_name := Some (strip raw);
            current_birth_date := current_birth_date st;
            photo_count := photo_count st |}, t).
Proof.
  intros N. destruct (advance_name st raw N) as [A R]. rewrite <- A.
  apply process_line_silent; [|apply R].
  unfold line_error. now rewrite (name_line_kind _ N), N.
Qed.

Lemma process_line_date env photos_dir st raw t :
  is_date_line raw = true ->
  process_line env photos_dir st raw t
  = (Ret {| current_person := current_person st; current_name := current_name st;
            current_birth_date := Some (strip raw);
            photo_count := photo_count st |}, t).
Proof.
  intros D. destruct (advance_date st raw D) as [A R]. rewrite <- A.
  apply process_line_silent; [|apply R].
  unfold line_error. destruct (date_line_kind _ D) as [-> ->]. now rewrite D.
Qed.

(** C6. A name line, and a date line, replaces the stored value: the state
    changes in that field only and the trace stays as it is, so that the
    downloads made before are what they were.  After a run of lines that
    starts with a name line and holds no other name line and no boundary,
    the stored name is that line, and a photo line derives its identifier
    from it and from the stored date; and so for a date line. *)
Theorem later_name_or_date_wins :
  (forall env st raw t,
     is_name_line raw = true ->
     process_line env (Path_of "./photos") st raw t
     = (Ret {| current_person := current_person st; current_name := Some (strip raw);
               current_birth_date := current_birth_date st;
               photo_count := photo_count st |}, t))
  /\ (forall env st raw t,
        is_date_line raw = true ->
        process_line env (Path_of "./photos") st raw t
        = (Ret {| current_person := current_person st;
                  current_name := current_name st;
                  current_birth_date := Some (strip raw);
                  photo_count := photo_count st |}, t))
  /\ (forall env st raw mid photo t st1 t1,
        is_name_line raw = true ->
        Forall (fun l => is_boundary l = false /\ is_name_line l = false) mid ->
        is_file_line photo = true ->
        scan env (Path_of "./photos") (raw :: mid) st t = (Ret st1, t1) ->
        current_name st1 = Some (strip raw)
        /\ forall birth_date id,
             current_birth_date st1 = Some birth_date ->
             create_person_id (strip raw) birth_date = Ret (Some id) ->
             formats_next st1 ->
             exists st2 new2,
               process_line env (Path_of "./photos") st1 photo t1
               = (Ret st2, t1 ++ new2)
               /\ photo_count st2 = photo_count st1 + 1
               /\ calls new2 = [(photo_url photo, target id (photo_count st1 + 1))])
  /\ (forall env st raw mid photo t st1 t1,
        is_date_line raw = true ->
        Forall (fun l => is_boundary l = false /\ is_date_line l = false) mid ->
        is_file_line photo = true ->
        scan env (Path_of "./photos") (raw :: mid) st t = (Ret st1, t1) ->
        current_birth_date st1 = Some (strip raw)
        /\ forall name id,
             current_name st1 = Some name ->
             create_person_id name (strip raw) = Ret (Some id) ->
             formats_next st1 ->
             exists st2 new2,
               process_line env (Path_of "./photos") st1 photo t1
               = (Ret st2, t1 ++ new2)
               /\ photo_count st2 = photo_count st1 + 1
               /\ calls new2 = [(photo_url photo, target id (photo_count st1 + 1))]).
Proof.
  split; [intros; now apply process_line_name|].
  split; [intros; now apply process_line_date|].
  split.
  - intros env st raw mid photo t st1 t1 N M F S.
    destruct (scan_returned _ _ _ _ _ _ _ S) as (_ & -> & _).
    assert (K : current_name (advance_all st (raw :: mid)) = Some (strip raw)).
    { cbn [advance_all fold_left]. apply name_kept; [|exact M].
      now rewrite (proj1 (advance_name st raw N)). }
    split; [exact K|]. intros birth_date id Hd Hid Fm.
    destruct (photo_line_with_id env (advance_all st (raw :: mid)) photo t1 id F)
      as (ok & new2 & _ & E & C);
      [now exists (strip raw), birth_date | exact Fm |].
    eexists. exists new2. split; [exact E|]. now split.
  - intros env st raw mid photo t st1 t1 N M F S.
    destruct (scan_returned _ _ _ _ _ _ _ S) as (_ & -> & _).
    assert (K : current_birth_date (advance_all st (raw :: mid)) = Some (strip raw)).
    { cbn [advance_all fold_left]. apply date_kept; [|exact M].
      now rewrite (proj1 (advance_date st raw N)). }
    split; [exact K|]. intros name id Hn Hid Fm.
    destruct (photo_line_with_id env (advance_all st (raw :: mid)) photo t1 id F)
      as (ok & new2 & _ & E & C);
      [now exists name, (strip raw) | exact Fm |].
    eexists. exists new2. split; [exact E|]. now split.
Qed.

(** A second name line after a first photo: the first photo keeps the file it
    got, the second one is filed under the new name, with the next number. *)
Lemma later_name_wins_example :
  process_line friendly (Path_of "./photos")
    {| current_person := Some "0 @I1@ INDI";
       current_name := Some "1 NAME John /Smith/";
       current_birth_date := Some "2 DATE 15 Jan 1980"; photo_count := 1 |}
    "1 NAME Johnny /Smythe/"
    [Call_download_photo "http://example.com/a.jpg" (target "1980-01-15_john_smith" 1)]
  = (Ret {| current_person := Some "0 @I1@ INDI";
            current_name := Some "1 NAME Johnny /Smythe/";
            current_birth_date := Some "2 DATE 15 Jan 1980"; photo_count := 1 |},
     [Call_download_photo "http://example.com/a.jpg" (target "1980-01-15_john_smith" 1)])
  /\ (current_name
        {| current_person := Some "0 @I1@ INDI";
           current_name := Some "1 NAME Johnny /Smythe/";
           current_birth_date := Some "2 DATE 15 Jan 1980"; photo_count := 1 |}
      = Some (strip "1 NAME Johnny /Smythe/")
      /\ forall birth_date id,
           Some "2 DATE 15 Jan 1980" = Some birth_date ->
           create_person_id (strip "1 NAME Johnny /Smythe/") birth_date = Ret (Some id) ->
           formats_next
             {| current_person := Some "0 @I1@ INDI";
                current_name := Some "1 NAME Johnny /Smythe/";
                current_birth_date := Some "2 DATE 15 Jan 1980"; photo_count := 1 |} ->
           exists st2 new2,
             process_line friendly (Path_of "./photos")
               {| current_person := Some "0 @I1@ INDI";
                  current_name := Some "1 NAME Johnny /Smythe/";
                  current_birth_date := Some "2 DATE 15 Jan 1980"; photo_count := 1 |}
               "2 FILE http://example.com/b.jpg"
               [Call_download_photo "http://example.com/a.jpg"
                  (target "1980-01-15_john_smith" 1)]
             = (Ret st2,
                [Call_download_photo "http://example.com/a.jpg"
                   (target "1980-01-15_john_smith" 1)] ++ new2)
             /\ photo_count st2 = 1 + 1
             /\ calls new2 = [(photo_url "2 FILE http://example.com/b.jpg", target id (1 + 1))])
  /\ calls (snd (scan friendly (Path_of "./photos")
                   ["1 NAME Johnny /Smythe/"; "2 FILE http://example.com/b.jpg"]
                   {| current_person := Some "0 @I1@ INDI";
                      current_name := Some "1 NAME John /Smith/";
                      current_birth_date := Some "2 DATE 15 Jan 1980";
                      photo_count := 1 |}
                   [Call_download_photo "http://example.com/a.jpg"
                      (target "1980-01-15_john_smith" 1)]))
     = [("http://example.com/a.jpg", Path_of "./photos/1980-01-15_john_smith_01.jpg");
        ("http://example.com/b.jpg", Path_of "./photos/1980-01-15_johnny_smythe_02.jpg")].
Proof.
  destruct later_name_or_date_wins as (Name & _ & After & _).
  split; [exact (Name friendly _ "1 NAME Johnny /Smythe/" _ eq_refl)|].
  split; [|vm_compute; reflexivity].
  apply (After friendly
           {| current_person := Some "0 @I1@ INDI";
              current_name := Some "1 NAME John /Smith/";
              current_birth_date := Some "2 DATE 15 Jan 1980"; photo_count := 1 |}
           "1 NAME Johnny /Smythe/" [] "2 FILE http://example.com/b.jpg"
           [Call_download_photo "http://example.com/a.jpg"
              (target "1980-01-15_john_smith" 1)]);
    [reflexivity | constructor | reflexivity | reflexivity].
Defined.

(** *** The photos of a record *)

Lemma last_of_snoc kind (seen : list string) raw :
  last_of kind (seen ++ [raw])
  = if kind raw then Some (strip raw) else last_of kind seen.
Proof.
  induction seen as [|a seen IH]; cbn [app last_of].
  - now destruct (kind raw).
  - rewrite IH. destruct (kind raw); [reflexivity|]. reflexivity.
Qed.

Lemma name_line_not_date raw : is_name_line raw = true -> is_date_line raw = false.
Proof.
  unfold is_name_line, is_date_line. intros H.
  now rewrite (startswith_other "1 NAME " "2 DATE " _ H).
Qed.

(** The identifier of a state that stores the last name line and the last
    date line of the lines seen. *)
Lemma derived_id_identifier st (seen : list string) :
  current_name st = last_of is_name_line seen ->
  current_birth_date st = last_of is_date_line seen ->
  derived_id st = identifier_after seen.
Proof.
  unfold derived_id, identifier_after. intros <- <-.
  destruct (current_name st) as [name|]; [|reflexivity].
  destruct (current_birth_date st) as [birth_date|]; [|reflexivity].
  destruct (create_person_id name birth_date) as [[id|]|e] eqn:E.
  - destruct (identified_lines_nonempty _ _ _ E) as (-> & -> & ->). reflexivity.
  - now destruct (nonempty name && nonempty birth_date).
  - now destruct (nonempty name && nonempty birth_date).
Qed.

(** The calls of a record are its photos, numbered from the counter on. *)
Lemma requests_numbered (lines : list string) : forall st (seen : list string),
  Forall (fun l => is_boundary l = false) lines ->
  current_name st = last_of is_name_line seen ->
  current_birth_date st = last_of is_date_line seen ->
  scan_error st lines = None ->
  requests (Path_of "./photos") st lines
  = number_from (photo_count st + 1) (photos_of seen lines)
  /\ photo_count (advance_all st lines)
     = photo_count st + Z.of_nat (List.length (photos_of seen lines)).
Proof.
  induction lines as [|raw lines IH]; intros st seen B Sn Sd E.
  - cbn. split; [reflexivity | lia].
  - inversion B as [|? ? B0 B1]; subst.
    cbn [scan_error requests photos_of] in *.
    change (advance_all st (raw :: lines)) with (advance_all (advance st raw) lines).
    destruct (line_error st raw) as [e|] eqn:LE; [discriminate|].
    pose proof (derived_id_identifier st seen Sn Sd) as DI.
    destruct (is_file_line raw) eqn:F.
    + pose proof (advance_file st raw F) as A. rewrite DI in A.
      destruct (file_line_kind raw F) as (_ & Nn & Nd).
      assert (K : forall id0 : option string,
                match id0 with
                | Some id =>
                    advance st raw =
                    {| current_person := current_person st;
                       current_name := current_name st;
                       current_birth_date := current_birth_date st;
                       photo_count := photo_count st + 1 |}
                | None => advance st raw = st
                end ->
                current_name (advance st raw) = last_of is_name_line (seen ++ [raw])
                /\ current_birth_date (advance st raw)
                   = last_of is_date_line (seen ++ [raw])
                /\ photo_count (advance st raw)
                   = photo_count st + match id0 with Some _ => 1 | None => 0 end).
      { intros [id0|] ->; rewrite !last_of_snoc, Nn, Nd; cbn; repeat split;
          try assumption; lia. }
      destruct (identifier_after seen) as [id|] eqn:I.
      * destruct A as [A R]. rewrite (R (Path_of "./photos")).
        destruct (K (Some id) A) as (Sn' & Sd' & Cn).
        apply derived_id_some in DI as (name & birth_date & _ & _ & Eid).
        rewrite (target_joinpath _ _ id _ Eid).
        destruct (IH _ (seen ++ [raw]) B1 Sn' Sd' E) as [Rq Cnt].
        rewrite Cn in Rq, Cnt. cbn [app number_from List.length].
        rewrite Rq. split; [reflexivity|]. rewrite Cnt. lia.
      * destruct A as [A R]. rewrite (R (Path_of "./photos")).
        destruct (K None A) as (Sn' & Sd' & Cn).
        destruct (IH _ (seen ++ [raw]) B1 Sn' Sd' E) as [Rq Cnt].
        rewrite Cn in Rq, Cnt. rewrite Z.add_0_r in Rq, Cnt. cbn [app]. now split.
    + destruct (advance_other st raw B0 F) as [Cnt0 R].
      rewrite (R (Path_of "./photos")). cbn [app].
      assert (S' : current_name (advance st raw) = last_of is_name_line (seen ++ [raw])
                   /\ current_birth_date (advance st raw)
                      = last_of is_date_line (seen ++ [raw])).
      { rewrite !last_of_snoc. unfold advance. rewrite B0, F.
        destruct (is_name_line raw) eqn:N.
        - rewrite (name_line_not_date raw N). now split.
        - destruct (is_date_line raw); now split. }
      destruct S' as [Sn' Sd'].
      destruct (IH _ (seen ++ [raw]) B1 Sn' Sd' E) as [Rq Cnt].
      rewrite Cnt0 in *. now split.
Qed.

(** C3 (amended). When the scan of the lines returns, the photos of each
    record are numbered from 1 on: after a person boundary the counter is 0,
    and the calls of [download_photo] made for the lines of the record are,
    in order, one for each photo line for which an identifier is derived
    from the last name line and the last date line before it, the [N]-th of
    them for the file [./photos/<identifier>_<NN>.jpg]; a photo line without
    identifier takes no number.  The files opened, written to or closed while
    the record is read are among these files. *)
Theorem photo_numbering env (before : list string) b (record : list string) t st1 t1 :
  is_boundary b = true ->
  Forall (fun l => is_boundary l = false) record ->
  scan env (Path_of "./photos") (before ++ b :: record) initial_state t = (Ret st1, t1) ->
  exists st0 t0 new,
    scan env (Path_of "./photos") (before ++ [b]) initial_state t = (Ret st0, t0)
    /\ photo_count st0 = 0
    /\ scan env (Path_of "./photos") record st0 t0 = (Ret st1, t0 ++ new)
    /\ t1 = t0 ++ new
    /\ calls new = number_from 1 (photos_of [] record)
    /\ photo_count st1 = Z.of_nat (List.length (photos_of [] record))
    /\ Forall (fun f => In f (map snd (number_from 1 (photos_of [] record))))
         (written new).
Proof.
  intros B NB S.
  replace (before ++ b :: record) with ((before ++ [b]) ++ record) in S
    by (now rewrite <- app_assoc).
  rewrite scan_app in S. unfold bind in S.
  destruct (scan env (Path_of "./photos") (before ++ [b]) initial_state t)
    as [[st0|e] t0] eqn:S0; [|discriminate].
  destruct (scan_returned _ _ _ _ _ _ _ S0) as (_ & E0 & _).
  assert (Fresh : st0 = {| current_person := Some (strip b); current_name := None;
                           current_birth_date := None; photo_count := 0 |}).
  { rewrite E0, advance_all_app. cbn [advance_all fold_left].
    unfold advance. now rewrite B. }
  destruct (scan_events env (Path_of "./photos") record st0 t0)
    as (new & S1 & C & _ & W & _).
  rewrite S1 in S. unfold scan_result in S.
  destruct (scan_error st0 record) eqn:Err; [discriminate|].
  injection S as <- <-.
  destruct (requests_numbered record st0 [] NB) as [Rq Cnt];
    [now rewrite Fresh | now rewrite Fresh | exact Err |].
  assert (P0 : photo_count st0 = 0) by now rewrite Fresh.
  rewrite P0 in Rq, Cnt. cbn in Rq.
  exists st0, t0, new. unfold scan_result in S1. rewrite Err in S1.
  repeat split; try assumption.
  - now rewrite C.
  - now rewrite <- Rq.
Qed.

(** The scenario of the specification: the two photos of John Smith. *)
Lemma photo_numbering_scenario :
  (exists st0 t0 new,
     scan friendly (Path_of "./photos") ([] ++ ["0 @I1@ INDI"]) initial_state []
     = (Ret st0, t0)
     /\ photo_count st0 = 0
     /\ scan friendly (Path_of "./photos") (tl scenario) st0 t0
        = (Ret {| current_person := Some "0 @I1@ INDI";
                  current_name := Some "1 NAME John /Smith/";
                  current_birth_date := Some "2 DATE 15 Jan 1980";
                  photo_count := 2 |}, t0 ++ new)
     /\ snd (scan friendly (Path_of "./photos") scenario initial_state []) = t0 ++ new
     /\ calls new = number_from 1 (photos_of [] (tl scenario))
     /\ 2 = Z.of_nat (List.length (photos_of [] (tl scenario)))
     /\ Forall (fun f => In f (map snd (number_from 1 (photos_of [] (tl scenario)))))
          (written new))
  /\ number_from 1 (photos_of [] (tl scenario))
     = [("http://example.com/a.jpg", Path_of "./photos/1980-01-15_john_smith_01.jpg");
        ("http://example.com/b.jpg", Path_of "./photos/1980-01-15_john_smith_02.jpg")].
Proof.
  split; [|vm_compute; reflexivity].
  apply (photo_numbering friendly [] "0 @I1@ INDI" (tl scenario) []).
  - reflexivity.
  - repeat constructor.
  - vm_compute. reflexivity.
Defined.

(** Three things the claim does not allow for.  A photo line met before the
    name takes no number: the second photo line of the record is filed as
    [_01].  A date line with a day of 4301 digits makes the loop stop at the
    next photo line, with a [ValueError] and no download.  And when the
    download fails, the photo gets its number and no file is written. *)
Lemma photo_line_before_name_takes_no_number :
  is_boundary "0 @I1@ INDI" = true
  /\ filter is_file_line
       ["2 FILE http://example.com/a.jpg"; "1 NAME John /Smith/";
        "2 DATE 15 Jan 1980"; "2 FILE http://example.com/b.jpg"]
     = ["2 FILE http://example.com/a.jpg"; "2 FILE http://example.com/b.jpg"]
  /\ scan friendly (Path_of "./photos")
       ["0 @I1@ INDI"; "2 FILE http://example.com/a.jpg"; "1 NAME John /Smith/";
        "2 DATE 15 Jan 1980"; "2 FILE http://example.com/b.jpg"] initial_state []
     = (Ret {| current_person := Some "0 @I1@ INDI";
               current_name := Some "1 NAME John /Smith/";
               current_birth_date := Some "2 DATE 15 Jan 1980"; photo_count := 1 |},
        [Stdout "Downloading http://example.com/b.jpg to photos/1980-01-15_john_smith_01.jpg";
         Call_download_photo "http://example.com/b.jpg"
           (Path_of "./photos/1980-01-15_john_smith_01.jpg");
         HttpGet "http://example.com/b.jpg";
         OpenWrite (Path_of "./photos/1980-01-15_john_smith_01.jpg");
         FileWrite (Path_of "./photos/1980-01-15_john_smith_01.jpg") "JFIF";
         FileWrite (Path_of "./photos/1980-01-15_john_smith_01.jpg") "data";
         Close (Path_of "./photos/1980-01-15_john_smith_01.jpg")])
  /\ (Path_of "./photos/1980-01-15_john_smith_01.jpg"
      <> Path_of "./photos/1980-01-15_john_smith_02.jpg")
  /\ scan friendly (Path_of "./photos")
       ["0 @I1@ INDI"; "1 NAME John /Smith/";
        ("2 DATE " ++ zeros 4300 ++ "5 Jan 1980")%string;
        "2 FILE http://example.com/a.jpg"; "2 FILE http://example.com/b.jpg"]
       initial_state []
     = (Raise (int_limit_error 4301), [])
  /\ scan (offline []) (Path_of "./photos") scenario initial_state []
     = (Ret {| current_person := Some "0 @I1@ INDI";
               current_name := Some "1 NAME John /Smith/";
               current_birth_date := Some "2 DATE 15 Jan 1980"; photo_count := 2 |},
        [Stdout "Downloading http://example.com/a.jpg to photos/1980-01-15_john_smith_01.jpg";
         Call_download_photo "http://example.com/a.jpg" (target "1980-01-15_john_smith" 1);
         HttpGet "http://example.com/a.jpg";
         Stdout "Error downloading http://example.com/a.jpg: 404 Client Error: Not Found for url: http://example.com/a.jpg";
         Stdout "Downloading http://example.com/b.jpg to photos/1980-01-15_john_smith_02.jpg";
         Call_download_photo "http://example.com/b.jpg" (target "1980-01-15_john_smith" 2);
         HttpGet "http://example.com/b.jpg";
         Stdout "Error downloading http://example.com/b.jpg: 404 Client Error: Not Found for url: http://example.com/b.jpg"])
  /\ written (snd (scan (offline []) (Path_of "./photos") scenario initial_state [])) = [].
Proof.
  split; [reflexivity|]. split; [vm_compute; reflexivity|].
  split; [vm_compute; reflexivity|]. split; [vm_compute; discriminate|].
  split; [vm_compute; reflexivity|]. split; vm_compute; reflexivity.
Qed.

(** *** Failed downloads *)

Lemma download_photo_failure env url filename t e t' :
  download_photo_try env url filename (t ++ [Call_download_photo url filename])
  = (Raise e, t') ->
  download_photo env url filename t
  = (Ret false, t' ++ [Stdout ("Error downloading " ++ url ++ ": " ++ exn_str e)%string]).
Proof.
  intros H. unfold download_photo, bind, emit, try_except. rewrite H.
  unfold print, emit, ret. reflexivity.
Qed.

(** C5. Whatever the [try] block of [download_photo] raises, [download_photo]
    prints [Error downloading <url>: <error>] and returns [False].  The block
    raises when the request fails, when the status is an error, when the file
    cannot be opened, when a write fails (the chunks before it are written
    and the file is closed), when the stream of chunks breaks, and when the
    closing of the file fails after every write succeeded.  [download_photo]
    itself returns in every outside world, so that a photo line for which an
    identifier is derived is counted and the loop goes on with the next
    line; and the loop ends alike, with the same calls, in every outside
    world. *)
Theorem failed_download_is_logged_and_survived :
  (forall env url filename t e t',
     download_photo_try env url filename (t ++ [Call_download_photo url filename])
     = (Raise e, t') ->
     download_photo env url filename t
     = (Ret false, t' ++ [Stdout ("Error downloading " ++ url ++ ": " ++ exn_str e)%string]))
  /\ (forall env url filename t e,
        requests_get env t url = Raise e ->
        download_photo_try env url filename t = (Raise e, t ++ [HttpGet url]))
  /\ (forall env url filename t resp e,
        requests_get env t url = Ret resp -> status_error resp = Some e ->
        download_photo_try env url filename t = (Raise e, t ++ [HttpGet url]))
  /\ (forall env url filename t resp e,
        requests_get env t url = Ret resp -> status_error resp = None ->
        os_open_write env (t ++ [HttpGet url]) filename = Some e ->
        download_photo_try env url filename t
        = (Raise e, t ++ [HttpGet url; OpenWrite filename]))
  /\ (forall env url filename t resp (done : list string) c (rest : list string) e,
        requests_get env t url = Ret resp -> status_error resp = None ->
        os_open_write env (t ++ [HttpGet url]) filename = None ->
        chunks resp = done ++ c :: rest ->
        writes_ok env (t ++ [HttpGet url; OpenWrite filename]) filename done = true ->
        os_write env
          ((t ++ [HttpGet url; OpenWrite filename]) ++ map (FileWrite filename) done)
          filename c = Some e ->
        os_close env
          ((t ++ [HttpGet url; OpenWrite filename])
           ++ map (FileWrite filename) (done ++ [c])) filename = None ->
        download_photo_try env url filename t
        = (Raise e,
           ((t ++ [HttpGet url; OpenWrite filename])
            ++ map (FileWrite filename) (done ++ [c])) ++ [Close filename]))
  /\ (forall env url filename t resp e,
        requests_get env t url = Ret resp -> status_error resp = None ->
        os_open_write env (t ++ [HttpGet url]) filename = None ->
        writes_ok env (t ++ [HttpGet url; OpenWrite filename]) filename (chunks resp)
        = true ->
        stream_error resp = Some e ->
        os_close env
          ((t ++ [HttpGet url; OpenWrite filename])
           ++ map (FileWrite filename) (chunks resp)) filename = None ->
        download_photo_try env url filename t
        = (Raise e,
           ((t ++ [HttpGet url; OpenWrite filename])
            ++ map (FileWrite filename) (chunks resp)) ++ [Close filename]))
  /\ (forall env url filename t resp e,
        requests_get env t url = Ret resp -> status_error resp = None ->
        os_open_write env (t ++ [HttpGet url]) filename = None ->
        writes_ok env (t ++ [HttpGet url; OpenWrite filename]) filename (chunks resp)
        = true ->
        stream_error resp = None ->
        os_close env
          ((t ++ [HttpGet url; OpenWrite filename])
           ++ map (FileWrite filename) (chunks resp)) filename = Some e ->
        download_photo_try env url filename t
        = (Raise e,
           ((t ++ [HttpGet url; OpenWrite filename])
            ++ map (FileWrite filename) (chunks resp)) ++ [Close filename]))
  /\ (forall env url filename t,
        exists ok t', download_photo env url filename t = (Ret ok, t'))
  /\ (forall env st raw (rest : list string) t id,
        is_file_line raw = true -> derives st id -> formats_next st ->
        exists ok new,
          download_photo env (photo_url raw) (target id (photo_count st + 1))
            (t ++ [Stdout ("Downloading " ++ photo_url raw ++ " to "
                           ++ path_str (target id (photo_count st + 1)))%string])
          = (Ret ok, t ++ new)
          /\ scan env (Path_of "./photos") (raw :: rest) st t
             = scan env (Path_of "./photos") rest
                 {| current_person := current_person st;
                    current_name := current_name st;
                    current_birth_date := current_birth_date st;
                    photo_count := photo_count st + 1 |} (t ++ new))
  /\ (forall env env' lines st t t',
        exists r new new',
          scan env (Path_of "./photos") lines st t = (r, t ++ new)
          /\ scan env' (Path_of "./photos") lines st t' = (r, t' ++ new')
          /\ calls new = calls new').
Proof.
  assert (T : forall (t : trace) url filename,
             (t ++ [HttpGet url]) ++ [OpenWrite filename]
             = t ++ [HttpGet url; OpenWrite filename])
    by (intros; now rewrite <- app_assoc).
  split; [exact download_photo_failure|].
  split.
  { intros env url filename t e R.
    unfold download_photo_try, bind, http_get. now rewrite R. }
  split.
  { intros env url filename t resp e R S.
    unfold download_photo_try, bind, http_get, raise_for_status. now rewrite R, S. }
  split.
  { intros env url filename t resp e R S O.
    unfold download_photo_try, bind, http_get, raise_for_status, syscall.
    rewrite R, S. unfold ret. rewrite O. now rewrite <- app_assoc. }
  split.
  { intros env url filename t resp done c rest e R S O Ch Ok W Cl.
    unfold download_photo_try, bind, http_get, raise_for_status, syscall, closing.
    rewrite R, S. unfold ret. rewrite O, T, Ch.
    rewrite (write_chunks_fails env filename done c rest (stream_error resp) e _ Ok W).
    now rewrite Cl. }
  split.
  { intros env url filename t resp e R S O Ok St Cl.
    unfold download_photo_try, bind, http_get, raise_for_status, syscall, closing.
    rewrite R, S. unfold ret. rewrite O, T.
    destruct (write_chunks_shape env filename (chunks resp) (stream_error resp)
                (t ++ [HttpGet url; OpenWrite filename])) as (r & k & W).
    assert (W' : write_chunks env filename (chunks resp) None
                   (t ++ [HttpGet url; OpenWrite filename])
                 = (Ret tt, (t ++ [HttpGet url; OpenWrite filename])
                            ++ map (FileWrite filename) (chunks resp)))
      by (apply write_chunks_ok; now repeat split).
    assert (Stop : forall cs t0 t1,
               write_chunks env filename cs None t0 = (Ret tt, t1) ->
               write_chunks env filename cs (Some e) t0 = (Raise e, t1)).
    { induction cs as [|c cs IH]; intros t0 t1; cbn [write_chunks].
      - unfold ret, raise. now intros [= <-].
      - unfold bind, syscall. destruct (os_write env t0 filename c); [discriminate|].
        apply IH. }
    rewrite St, (Stop _ _ _ W'). now rewrite Cl. }
  split.
  { intros env url filename t resp e R S O Ok St Cl.
    unfold download_photo_try, bind, http_get, raise_for_status, syscall, closing.
    rewrite R, S. unfold ret. rewrite O, T.
    assert (W' : write_chunks env filename (chunks resp) (stream_error resp)
                   (t ++ [HttpGet url; OpenWrite filename])
                 = (Ret tt, (t ++ [HttpGet url; OpenWrite filename])
                            ++ map (FileWrite filename) (chunks resp)))
      by (apply write_chunks_ok; now repeat split).
    rewrite W'. now rewrite Cl. }
  split.
  { intros env url filename t.
    destruct (download_photo_events env url filename t) as (b & rest & E & _).
    now exists b, (t ++ Call_download_photo url filename :: HttpGet url :: rest). }
  split.
  { intros env st raw rest t id F D Fm.
    destruct (photo_line_with_id env st raw t id F D Fm) as (ok & new & E & P & _).
    exists ok, new. split; [exact E|].
    cbn [scan]. unfold bind. now rewrite P. }
  intros env env' lines st t t'.
  destruct (scan_events env (Path_of "./photos") lines st t) as (new & E & C & _).
  destruct (scan_events env' (Path_of "./photos") lines st t') as (new' & E' & C' & _).
  exists (scan_result st lines), new, new'. now rewrite C, C'.
Qed.

(** An HTTP error, a full disk and a failing close: each is logged, and the
    loop goes on to the second photo. *)
Lemma failed_download_offline :
  download_photo (offline []) "http://example.com/a.jpg"
    (target "1980-01-15_john_smith" 1) []
  = (Ret false,
     [Call_download_photo "http://example.com/a.jpg" (target "1980-01-15_john_smith" 1);
      HttpGet "http://example.com/a.jpg"]
     ++ [Stdout ("Error downloading " ++ "http://example.com/a.jpg" ++ ": "
                 ++ exn_str (OtherError "HTTPError"
                      "404 Client Error: Not Found for url: http://example.com/a.jpg"))%string])
  /\ download_photo disk_full "http://example.com/a.jpg"
       (target "1980-01-15_john_smith" 1) []
     = (Ret false,
        [Call_download_photo "http://example.com/a.jpg" (target "1980-01-15_john_smith" 1);
         HttpGet "http://example.com/a.jpg";
         OpenWrite (target "1980-01-15_john_smith" 1);
         FileWrite (target "1980-01-15_john_smith" 1) "JFIF";
         FileWrite (target "1980-01-15_john_smith" 1) "data";
         Close (target "1980-01-15_john_smith" 1)]
        ++ [Stdout ("Error downloading " ++ "http://example.com/a.jpg" ++ ": "
                    ++ exn_str (OtherError "OSError"
                         "[Errno 28] No space left on device"))%string])
  /\ download_photo flush_fails "http://example.com/a.jpg"
       (target "1980-01-15_john_smith" 1) []
     = (Ret false,
        [Call_download_photo "http://example.com/a.jpg" (target "1980-01-15_john_smith" 1);
         HttpGet "http://example.com/a.jpg";
         OpenWrite (target "1980-01-15_john_smith" 1);
         FileWrite (target "1980-01-15_john_smith" 1) "JFIF";
         FileWrite (target "1980-01-15_john_smith" 1) "data";
         Close (target "1980-01-15_john_smith" 1)]
        ++ [Stdout ("Error downloading " ++ "http://example.com/a.jpg" ++ ": "
                    ++ exn_str (OtherError "OSError"
                         "[Errno 5] Input/output error"))%string])
  /\ scan disk_full (Path_of "./photos") scenario initial_state []
     = (Ret {| current_person := Some "0 @I1@ INDI";
               current_name := Some "1 NAME John /Smith/";
               current_birth_date := Some "2 DATE 15 Jan 1980"; photo_count := 2 |},
        [Stdout "Downloading http://example.com/a.jpg to photos/1980-01-15_john_smith_01.jpg";
         Call_download_photo "http://example.com/a.jpg" (target "1980-01-15_john_smith" 1);
         HttpGet "http://example.com/a.jpg";
         OpenWrite (target "1980-01-15_john_smith" 1);
         FileWrite (target "1980-01-15_john_smith" 1) "JFIF";
         FileWrite (target "1980-01-15_john_smith" 1) "data";
         Close (target "1980-01-15_john_smith" 1);
         Stdout "Error downloading http://example.com/a.jpg: [Errno 28] No space left on device";
         Stdout "Downloading http://example.com/b.jpg to photos/1980-01-15_john_smith_02.jpg";
         Call_download_photo "http://example.com/b.jpg" (target "1980-01-15_john_smith" 2);
         HttpGet "http://example.com/b.jpg";
         OpenWrite (target "1980-01-15_john_smith" 2);
         FileWrite (target "1980-01-15_john_smith" 2) "JFIF";
         FileWrite (target "1980-01-15_john_smith" 2) "data";
         Close (target "1980-01-15_john_smith" 2);
         Stdout "Error downloading http://example.com/b.jpg: [Errno 28] No space left on device"]).
Proof.
  destruct failed_download_is_logged_and_survived
    as (Logged & _ & Status & _ & Write & _ & Closing & _).
  split; [|split; [|split]].
  - apply (Logged (offline []) "http://example.com/a.jpg"
             (target "1980-01-15_john_smith" 1) []
             (OtherError "HTTPError"
                "404 Client Error: Not Found for url: http://example.com/a.jpg")
             [Call_download_photo "http://example.com/a.jpg"
                (target "1980-01-15_john_smith" 1);
              HttpGet "http://example.com/a.jpg"]).
    exact (Status (offline []) "http://example.com/a.jpg"
             (target "1980-01-15_john_smith" 1)
             [Call_download_photo "http://example.com/a.jpg"
                (target "1980-01-15_john_smith" 1)]
             {| status_error := Some (OtherError "HTTPError"
                  "404 Client Error: Not Found for url: http://example.com/a.jpg");
                chunks := []; stream_error := None |} _ eq_refl eq_refl).
  - apply (Logged disk_full "http://example.com/a.jpg"
             (target "1980-01-15_john_smith" 1) []
             (OtherError "OSError" "[Errno 28] No space left on device")
             [Call_download_photo "http://example.com/a.jpg"
                (target "1980-01-15_john_smith" 1);
              HttpGet "http://example.com/a.jpg";
              OpenWrite (target "1980-01-15_john_smith" 1);
              FileWrite (target "1980-01-15_john_smith" 1) "JFIF";
              FileWrite (target "1980-01-15_john_smith" 1) "data";
              Close (target "1980-01-15_john_smith" 1)]).
    exact (Write disk_full "http://example.com/a.jpg" (target "1980-01-15_john_smith" 1)
             [Call_download_photo "http://example.com/a.jpg"
                (target "1980-01-15_john_smith" 1)]
             {| status_error := None; chunks := ["JFIF"; "data"]; stream_error := None |}
             ["JFIF"] "data" [] _ eq_refl eq_refl eq_refl eq_refl eq_refl eq_refl eq_refl).
  - apply (Logged flush_fails "http://example.com/a.jpg"
             (target "1980-01-15_john_smith" 1) []
             (OtherError "OSError" "[Errno 5] Input/output error")
             [Call_download_photo "http://example.com/a.jpg"
                (target "1980-01-15_john_smith" 1);
              HttpGet "http://example.com/a.jpg";
              OpenWrite (target "1980-01-15_john_smith" 1);
              FileWrite (target "1980-01-15_john_smith" 1) "JFIF";
              FileWrite (target "1980-01-15_john_smith" 1) "data";
              Close (target "1980-01-15_john_smith" 1)]).
    exact (Closing flush_fails "http://example.com/a.jpg"
             (target "1980-01-15_john_smith" 1)
             [Call_download_photo "http://example.com/a.jpg"
                (target "1980-01-15_john_smith" 1)]
             {| status_error := None; chunks := ["JFIF"; "data"]; stream_error := None |}
             _ eq_refl eq_refl eq_refl eq_refl eq_refl eq_refl).
  - vm_compute. reflexivity.
Defined.

(** *** When the loop raises nothing *)

(** [create_person_id] raises nothing for a date line whose day is within
    the limit. *)
Lemma create_person_id_within_limit (name birth_date : string) :
  day_within_limit birth_date = true ->
  exists r, create_person_id name birth_date = Ret r.
Proof.
  intros L.
  destruct (create_person_id_cases name birth_date)
    as [N | [(? & ? & ? & ? & ? & ? & _ & _ & _ & _ & E)
            | (? & ? & d & ? & ? & _ & D & Long & _)]]; eauto.
  unfold day_within_limit in L. rewrite D in L.
  apply Nat.leb_le in L. lia.
Qed.

Lemma photo_error_none st :
  stored_day_within_limit st -> formats_next st -> photo_error st = None.
Proof.
  unfold stored_day_within_limit, photo_error. intros L F.
  destruct (current_name st) as [name|]; [|reflexivity].
  destruct (current_birth_date st) as [birth_date|]; [|reflexivity].
  destruct (nonempty name && nonempty birth_date); [|reflexivity].
  destruct (create_person_id_within_limit name birth_date L) as [[id|] ->];
    [|reflexivity].
  rewrite (format_02d_within _ F). now destruct (nonempty id).
Qed.

Lemma advance_count_bounds st raw :
  0 <= photo_count st ->
  0 <= photo_count (advance st raw) <= photo_count st + 1.
Proof.
  intros P. unfold advance.
  destruct (is_boundary raw); [cbn; lia|].
  destruct (is_name_line raw); [cbn; lia|].
  destruct (is_date_line raw); [cbn; lia|].
  destruct (is_file_line raw); [|lia].
  destruct (derived_id st); cbn; lia.
Qed.

Lemma advance_stored_day st raw :
  day_within_limit (strip raw) = true -> stored_day_within_limit st ->
  stored_day_within_limit (advance st raw).
Proof.
  intros L S. unfold advance, stored_day_within_limit in *.
  destruct (is_boundary raw); [exact I|].
  destruct (is_name_line raw); [exact S|].
  destruct (is_date_line raw); [exact L|].
  destruct (is_file_line raw); [|exact S].
  now destruct (derived_id st).
Qed.

(** The loop raises nothing over lines whose days are within the limit,
    fewer than the limit of the format allows. *)
Lemma scan_runs (lines : list string) : forall st,
  Forall (fun l => day_within_limit (strip l) = true) lines ->
  stored_day_within_limit st ->
  0 <= photo_count st ->
  photo_count st + Z.of_nat (List.length lines) < 10 ^ Z.of_nat max_str_digits ->
  scan_error st lines = None.
Proof.
  induction lines as [|raw lines IH]; intros st L S P B; [reflexivity|].
  inversion L as [|? ? L0 L1]; subst. cbn [scan_error List.length] in *.
  assert (E : line_error st raw = None).
  { destruct (is_file_line raw) eqn:F; [|now apply line_error_other].
    rewrite (line_error_file st raw F). apply photo_error_none; [exact S|].
    unfold formats_next. lia. }
  rewrite E. pose proof (advance_count_bounds st raw P).
  apply IH; [exact L1 | now apply advance_stored_day | lia | lia].
Qed.

(** *** The exit status *)

Lemma validate_file_cases env file_path t :
  validate_file env file_path t =
  if negb (os_path_exists env file_path) then
    (Ret false, t ++ [Stdout ("Error: File '" ++ file_path ++ "' does not exist.")%string])
  else if negb (os_access_read env file_path) then
    (Ret false, t ++ [Stdout ("Error: File '" ++ file_path ++ "' is not readable.")%string])
  else (Ret true, t).
Proof.
  unfold validate_file.
  destruct (os_path_exists env file_path); [destruct (os_access_read env file_path)|];
    reflexivity.
Qed.

(** C7. When the input file does not exist or is not readable, [main]
    prints the error and returns 1 without doing anything else: no directory
    made, no file opened, no line parsed.  Otherwise it returns 0 whenever
    [process_gedcom_file] returns, which it does when the directory can be
    made, the file is read to its end and the days of its lines are within
    the limit of [int()], whatever happens to the downloads. *)
Theorem exit_codes :
  (forall env ged_file t,
     os_path_exists env ged_file = false \/ os_access_read env ged_file = false ->
     exists msg,
       main env ged_file t = (Ret 1, t ++ [Stdout msg])
       /\ (msg = ("Error: File '" ++ ged_file ++ "' does not exist.")%string
           \/ msg = ("Error: File '" ++ ged_file ++ "' is not readable.")%string)
       /\ exit_status (fst (main env ged_file t)) = 1)
  /\ (forall env ged_file t t',
        os_path_exists env ged_file = true -> os_access_read env ged_file = true ->
        process_gedcom_file env ged_file t = (Ret tt, t') ->
        main env ged_file t = (Ret 0, t')
        /\ exit_status (fst (main env ged_file t)) = 0)
  /\ (forall env ged_file lines t,
        os_path_exists env ged_file = true -> os_access_read env ged_file = true ->
        (forall t1 dir, os_mkdir env t1 dir = None) ->
        (forall t1, os_open_read env t1 ged_file = Ret (lines, None)) ->
        Forall (fun l => day_within_limit (strip l) = true) lines ->
        Z.of_nat (List.length lines) < 10 ^ Z.of_nat max_str_digits ->
        exists t',
          main env ged_file t = (Ret 0, t')
          /\ exit_status (fst (main env ged_file t)) = 0).
Proof.
  split; [|split].
  - intros env ged_file t Bad. unfold main, bind.
    rewrite validate_file_cases.
    destruct (os_path_exists env ged_file); cbn [negb].
    + destruct Bad as [Bad|Bad]; [discriminate|]. rewrite Bad. cbn [negb].
      eexists. split; [reflexivity|]. split; [now right | reflexivity].
    + eexists. split; [reflexivity|]. split; [now left | reflexivity].
  - intros env ged_file t t' Ex Rd Done.
    unfold main, bind. rewrite validate_file_cases, Ex, Rd. cbn [negb].
    rewrite Done. now split.
  - intros env ged_file lines t Ex Rd Mk Op L B. unfold main, bind.
    rewrite validate_file_cases, Ex, Rd. cbn [negb].
    unfold process_gedcom_file, bind, syscall. rewrite Mk, Op. cbn [fst snd].
    assert (Runs : scan_error initial_state lines = None)
      by (apply scan_runs; [exact L | exact I | cbn; lia
                            | cbn [photo_count initial_state]; lia]).
    match goal with
    | |- context [scan env ?d lines ?s ?t0] =>
        destruct (scan_effect env d lines s t0 Runs) as (new & -> & _)
    end.
    unfold ret. eexists. now split.
Qed.

(** A file that does not exist; and a file that exists while every download
    fails. *)
Lemma exit_codes_examples :
  (exists msg,
     main (offline scenario) "nope.ged" [] = (Ret 1, [] ++ [Stdout msg])
     /\ (msg = ("Error: File '" ++ "nope.ged" ++ "' does not exist.")%string
         \/ msg = ("Error: File '" ++ "nope.ged" ++ "' is not readable.")%string)
     /\ exit_status (fst (main (offline scenario) "nope.ged" [])) = 1)
  /\ (exists t',
        main (offline scenario) "family.ged" [] = (Ret 0, t')
        /\ exit_status (fst (main (offline scenario) "family.ged" [])) = 0).
Proof.
  destruct exit_codes as (Bad & _ & Good). split.
  - apply (Bad (offline scenario) "nope.ged" []). now left.
  - apply (Good (offline scenario) "family.ged" scenario []); try reflexivity.
    repeat constructor.
Defined.

(** *** Lines before the first boundary *)

Lemma process_line_ignores_person env photos_dir st1 st2 raw t :
  same_record st1 st2 ->
  exists r1 r2 t',
    process_line env photos_dir st1 raw t = (r1, t')
    /\ process_line env photos_dir st2 raw t = (r2, t')
    /\ same_outcome r1 r2.
Proof.
  destruct st1 as [p1 n1 d1 c1], st2 as [p2 n2 d2 c2].
  intros (N & D & C). cbn in N, D, C. subst n2 d2 c2.
  unfold process_line. cbn [current_person current_name current_birth_date photo_count].
  set (line := strip raw).
  assert (Same : forall s1 s2 : scan_state, same_record s1 s2 ->
            exists r1 r2 t', ret s1 t = (r1, t') /\ ret s2 t = (r2, t')
                             /\ same_outcome r1 r2)
    by (intros s1 s2 S; now exists (Ret s1), (Ret s2), t).
  destruct (startswith "0 @I" line && contains " INDI" line);
    [apply Same; now repeat split|].
  destruct (startswith "1 NAME " line); [apply Same; now repeat split|].
  destruct (startswith "2 DATE " line); [apply Same; now repeat split|].
  destruct (startswith "2 FILE " line); [|apply Same; now repeat split].
  destruct n1 as [name|]; [|apply Same; now repeat split].
  destruct d1 as [birth_date|]; [|apply Same; now repeat split].
  destruct (nonempty name && nonempty birth_date); [|apply Same; now repeat split].
  unfold bind, lift, print, emit.
  destruct (create_person_id name birth_date) as [[id|]|e]; cbv beta iota.
  - destruct (nonempty id); [|apply Same; now repeat split].
    destruct (format_02d (c1 + 1)) as [nn|e]; cbv beta iota.
    + match goal with
      | |- context [download_photo env ?u ?f ?t'] =>
          destruct (download_photo_events env u f t') as (b & new & -> & _)
      end.
      unfold ret. do 3 eexists. split; [reflexivity|]. split; [reflexivity|].
      now repeat split.
    + now exists (Raise e), (Raise e), t.
  - apply Same; now repeat split.
  - now exists (Raise e), (Raise e), t.
Qed.

Lemma scan_ignores_person env photos_dir lines : forall st1 st2 t,
  same_record st1 st2 ->
  exists r1 r2 t',
    scan env photos_dir lines st1 t = (r1, t')
    /\ scan env photos_dir lines st2 t = (r2, t')
    /\ same_outcome r1 r2.
Proof.
  induction lines as [|raw lines IH]; intros st1 st2 t S.
  - now exists (Ret st1), (Ret st2), t.
  - cbn [scan]. unfold bind.
    destruct (process_line_ignores_person env photos_dir st1 st2 raw t S)
      as ([s1|e1] & [s2|e2] & t' & -> & -> & S'); cbn in S'; try contradiction.
    + apply IH, S'.
    + subst e2. now exists (Raise e1), (Raise e1), t'.
Qed.

(** C9. The scan does not need a person boundary: the lines of a file are
    processed from the initial state as they are after a boundary line put in
    front of them, with the same trace and the same outcome: the same stored
    name, date and counter, or the same exception.  So a name line, a date
    line and a photo line with no boundary line at all make a download
    call. *)
Theorem lines_before_first_boundary :
  (forall env lines b t,
     is_boundary b = true ->
     exists r r' t',
       scan env (Path_of "./photos") lines initial_state t = (r, t')
       /\ scan env (Path_of "./photos") (b :: lines) initial_state t = (r', t')
       /\ same_outcome r r')
  /\ (forall env t,
        exists st new,
          scan env (Path_of "./photos")
            ["1 NAME John /Smith/"; "2 DATE 15 Jan 1980";
             "2 FILE http://example.com/a.jpg"] initial_state t
          = (Ret st, t ++ new)
          /\ calls new = [("http://example.com/a.jpg",
                           Path_of "./photos/1980-01-15_john_smith_01.jpg")])
  /\ Forall (fun l => is_boundary l = false)
       ["1 NAME John /Smith/"; "2 DATE 15 Jan 1980"; "2 FILE http://example.com/a.jpg"].
Proof.
  split; [|split].
  - intros env lines b t B.
    cbn [scan]. unfold bind.
    assert (A : advance initial_state b
                = {| current_person := Some (strip b); current_name := None;
                     current_birth_date := None; photo_count := 0 |})
      by (unfold advance; now rewrite B).
    rewrite (process_line_silent env (Path_of "./photos") initial_state b t);
      [| unfold line_error; now rewrite B | unfold request; now rewrite B].
    rewrite A. apply scan_ignores_person. now repeat split.
  - intros env t.
    match goal with
    | |- context [scan env ?d ?l ?s t] =>
        assert (Runs : scan_error s l = None) by (vm_compute; reflexivity);
        destruct (scan_effect env d l s t Runs) as (new & -> & C)
    end.
    eexists. exists new. split; [reflexivity|]. rewrite C. vm_compute. reflexivity.
  - repeat constructor.
Qed.

(** The same three lines, read from the file of an outside world in which
    every download works. *)
Lemma lines_before_first_boundary_example :
  exists r r' t',
    scan friendly (Path_of "./photos")
      ["1 NAME John /Smith/"; "2 DATE 15 Jan 1980"; "2 FILE http://example.com/a.jpg"]
      initial_state [] = (r, t')
    /\ scan friendly (Path_of "./photos")
         ["0 @I1@ INDI"; "1 NAME John /Smith/"; "2 DATE 15 Jan 1980";
          "2 FILE http://example.com/a.jpg"] initial_state [] = (r', t')
    /\ same_outcome r r'.
Proof.
  exact (proj1 lines_before_first_boundary friendly
           ["1 NAME John /Smith/"; "2 DATE 15 Jan 1980"; "2 FILE http://example.com/a.jpg"]
           "0 @I1@ INDI" [] eq_refl).
Defined.

(* ================================================================= *)
(** * Further properties of the identifier builder *)

Local Open Scope string_scope.

(** ** Cutting a string at a separator *)

(** Two strings that agree after a run of characters of a class and a
    separator outside the class agree on the run and on the rest. *)
Lemma cut_at_first (p : ascii -> bool) c (a b x y : string) :
  str_all p a = true -> str_all p b = true -> p c = false ->
  a ++ String c x = b ++ String c y -> a = b /\ x = y.
Proof.
  intros A B C. revert b B. induction a as [|a0 a IH]; intros [|b0 b] B E.
  - now injection E.
  - cbn in E, B. injection E as E0 _. subst b0.
    apply andb_true_iff in B as [B _]. congruence.
  - cbn in E, A. injection E as E0 _. subst a0.
    apply andb_true_iff in A as [A _]. congruence.
  - cbn in E, A, B. injection E as E0 E. subst b0.
    apply andb_true_iff in A as [_ A]. apply andb_true_iff in B as [_ B].
    destruct (IH A b B E) as [-> ->]. now split.
Qed.

Lemma str_all_is_not_append c (a x : string) :
  str_all (is_not c) (a ++ String c x) = false.
Proof.
  induction a as [|a0 a IH]; cbn.
  - unfold is_not. now rewrite Ascii.eqb_refl.
  - rewrite IH. apply andb_false_r.
Qed.

(** Two strings that agree up to the last occurrence of a separator agree
    before it and after it. *)
Lemma cut_at_last c (a b x y : string) :
  str_all (is_not c) x = true -> str_all (is_not c) y = true ->
  a ++ String c x = b ++ String c y -> a = b /\ x = y.
Proof.
  intros X Y. revert b. induction a as [|a0 a IH]; intros [|b0 b] E.
  - now injection E.
  - cbn in E. injection E as _ E. subst x.
    now rewrite str_all_is_not_append in X.
  - cbn in E. injection E as _ E. subst y.
    now rewrite str_all_is_not_append in Y.
  - cbn in E. injection E as E0 E. subst b0.
    destruct (IH b E) as [-> ->]. now split.
Qed.

(** ** Reading back what the format [02d] writes *)

Ltac digit_arith :=
  unfold digit_value;
  match goal with
  | |- context [Z.of_N (code ?c)] =>
      let v := eval vm_compute in (Z.of_N (code c)) in
      change (Z.of_N (code c)) with v
  end; lia.

Lemma digits_value_of_uint_acc (d : Decimal.uint) : forall acc : positive,
  digits_value (Z.pos acc) (NilEmpty.string_of_uint d)
  = Z.pos (Pos.of_uint_acc d acc).
Proof.
  induction d; intros acc; cbn [NilEmpty.string_of_uint digits_value Pos.of_uint_acc];
    [reflexivity | ..];
    match goal with
    | |- digits_value ?v _ = Z.pos (Pos.of_uint_acc _ ?q) =>
        replace v with (Z.pos q) by digit_arith
    end; apply IHd.
Qed.

Lemma digits_value_of_uint (d : Decimal.uint) :
  digits_value 0 (NilEmpty.string_of_uint d) = Z.of_N (Pos.of_uint d).
Proof.
  induction d; cbn [NilEmpty.string_of_uint digits_value Pos.of_uint];
    [reflexivity | exact IHd | ..];
    match goal with
    | |- digits_value ?v _ = Z.of_N (N.pos (Pos.of_uint_acc _ ?q)) =>
        replace v with (Z.pos q) by digit_arith
    end; apply digits_value_of_uint_acc.
Qed.

Lemma int_of_digits_dec n : int_of_digits (dec n) = Z.of_N n.
Proof.
  unfold int_of_digits, dec. rewrite digits_value_of_uint.
  change (Pos.of_uint (N.to_uint n)) with (N.of_uint (N.to_uint n)).
  now rewrite DecimalN.Unsigned.of_to.
Qed.

Lemma digits_value_zeros k (s : string) :
  digits_value 0 (zeros k ++ s) = digits_value 0 s.
Proof. induction k as [|k IH]; [reflexivity | exact IH]. Qed.

Lemma dec_nonempty n : dec n <> "".
Proof.
  unfold dec. destruct n as [|p]; [discriminate|].
  cbn [N.to_uint]. pose proof (DecimalPos.Unsigned.to_uint_nonnil p) as H.
  destruct (Pos.to_uint p); [congruence | discriminate ..].
Qed.

Lemma zfill_digits w n : str_all is_decimal (zfill w (dec n)) = true.
Proof. unfold zfill. now rewrite str_all_append, zeros_digits, dec_digits. Qed.

Lemma zfill_nonempty w n : zfill w (dec n) <> "".
Proof.
  unfold zfill. pose proof (dec_nonempty n).
  destruct (zeros (w - String.length (dec n))); [assumption | discriminate].
Qed.

Lemma int_of_digits_zfill w n : int_of_digits (zfill w (dec n)) = Z.of_N n.
Proof.
  unfold zfill, int_of_digits. rewrite digits_value_zeros.
  apply int_of_digits_dec.
Qed.

(** The format never writes two integers the same way. *)
Lemma pad_02d_inj z z' : pad_02d z = pad_02d z' -> z = z'.
Proof.
  assert (Mixed : forall a b, (a < 0)%Z -> (0 <= b)%Z -> pad_02d a <> pad_02d b).
  { intros a b Ha Hb E. unfold pad_02d in E.
    apply Z.ltb_lt in Ha. apply Z.ltb_ge in Hb. rewrite Ha, Hb in E.
    pose proof (zfill_digits 2 (Z.to_N b)) as D. rewrite <- E in D.
    discriminate D. }
  intros E. destruct (Z.ltb_spec z 0), (Z.ltb_spec z' 0).
  - unfold pad_02d in E.
    rewrite (proj2 (Z.ltb_lt z 0)), (proj2 (Z.ltb_lt z' 0)) in E by assumption.
    injection E as E. apply (f_equal int_of_digits) in E.
    rewrite !int_of_digits_zfill in E. lia.
  - now destruct (Mixed z z').
  - symmetry in E. now destruct (Mixed z' z).
  - unfold pad_02d in E.
    rewrite (proj2 (Z.ltb_ge z 0)), (proj2 (Z.ltb_ge z' 0)) in E by assumption.
    apply (f_equal int_of_digits) in E.
    rewrite !int_of_digits_zfill in E. lia.
Qed.

Lemma decimal_is_safe c : is_decimal c = true -> is_safe c = true.
Proof. by_char c. Qed.

Lemma id_char_is_safe c : is_id_char c = true -> is_safe c = true.
Proof. by_char c. Qed.

Lemma digits_are_safe (s : string) :
  str_all is_decimal s = true -> str_all is_safe s = true.
Proof. apply str_all_impl, decimal_is_safe. Qed.

Lemma pad_02d_nonneg_digits z :
  (0 <= z)%Z -> str_all is_decimal (pad_02d z) = true.
Proof.
  intros H. unfold pad_02d.
  destruct (z <? 0)%Z eqn:E; [apply Z.ltb_lt in E; lia | apply zfill_digits].
Qed.

Lemma pad_02d_chars z :
  str_all (fun c => is_decimal c || Ascii.eqb c "-") (pad_02d z) = true.
Proof.
  assert (D : forall s, str_all is_decimal s = true ->
                        str_all (fun c => is_decimal c || Ascii.eqb c "-") s = true).
  { intros s. apply str_all_impl. now intros c ->. }
  unfold pad_02d. destruct (z <? 0)%Z.
  - cbn [append str_all]. rewrite D; [reflexivity | apply zfill_digits].
  - apply D, zfill_digits.
Qed.

Lemma pad_02d_safe z : str_all is_safe (pad_02d z) = true.
Proof.
  eapply str_all_impl; [|apply pad_02d_chars]. intros c. by_char c.
Qed.

(** What follows the year in an identifier. *)
Lemma identifier_tail_safe (m day : Z) (g1 g2 : string) :
  str_all is_safe ("-" ++ pad_02d m ++ "-" ++ pad_02d day ++ "_" ++ name_part g1 g2)
  = true.
Proof.
  repeat (progress (rewrite ?str_all_append; cbn [append str_all])).
  rewrite !pad_02d_safe.
  replace (str_all is_safe (name_part g1 g2)) with true; [reflexivity|].
  symmetry. unfold name_part, re_sub_non_id.
  eapply str_all_impl; [|apply str_all_filter]. exact id_char_is_safe.
Qed.

(** X1. An identifier is the year as the date line writes it, a run of
    digits, followed by characters of [[a-z0-9_]] and of [-] only, whatever
    the name line holds. *)
Theorem identifier_alphabet (name birth_date id : string) :
  create_person_id name birth_date = Ret (Some id) ->
  exists d mon y tail,
    re_match date_re birth_date = Some [d; mon; y]
    /\ id = y ++ tail
    /\ str_all is_decimal y = true /\ y <> ""
    /\ str_all is_safe tail = true.
Proof.
  intros E.
  destruct (create_person_id_cases name birth_date)
    as [N | [(g1 & g2 & d & mon & y & m & _ & D & _ & _ & E')
            | (? & ? & ? & ? & ? & _ & _ & _ & R)]];
    [congruence | | congruence].
  rewrite E' in E. injection E as <-.
  destruct (date_re_captures _ _ D)
    as (d' & mon' & y' & rest & [= <- <- <-] & _ & _ & _ & _ & _ & Dy & Ny).
  exists d, mon, y,
    ("-" ++ pad_02d m ++ "-" ++ pad_02d (int_of_digits d) ++ "_" ++ name_part g1 g2).
  repeat split; try assumption. apply identifier_tail_safe.
Qed.

(** A name full of punctuation, and the identifier it gets. *)
Lemma identifier_alphabet_example :
  exists d mon y tail,
    re_match date_re "2 DATE 03 DEC 1801 (about)" = Some [d; mon; y]
    /\ "1801-12-03_annemarie_dupontlvque" = y ++ tail
    /\ str_all is_decimal y = true /\ y <> ""
    /\ str_all is_safe tail = true.
Proof.
  apply (identifier_alphabet "1 NAME  Anne-Marie  /Du Pont-L'v.que/ jr"
           "2 DATE 03 DEC 1801 (about)").
  vm_compute. reflexivity.
Defined.

(** ** Which match the patterns take *)

Lemma contains_split (sub : string) : forall s : string,
  contains sub s = true -> exists a b, s = a ++ sub ++ b.
Proof.
  induction s as [|c s IH]; cbn [contains]; intros H.
  - rewrite orb_false_r in H. destruct (prefix_split _ _ H) as [r ->].
    now exists "", r.
  - apply orb_true_iff in H as [H|H].
    + destruct (prefix_split _ _ H) as [r ->]. now exists "", r.
    + destruct (IH H) as (a & b & ->). now exists (String c a), b.
Qed.

Lemma contains_append (sub a b : string) : contains sub (a ++ sub ++ b) = true.
Proof.
  induction a as [|c a IH].
  - cbn [append]. destruct (sub ++ b) eqn:E; cbn [contains]; rewrite <- E;
      now rewrite prefix_append.
  - cbn [append contains]. rewrite IH. apply orb_true_r.
Qed.

(** The capture of [(cls*?)] is the shortest one: the rest of the pattern
    matches after no shorter capture. *)
Lemma lazy_star_minimal cls k : forall (s : string) r,
  lazy_star cls k s = Some r ->
  exists g gs rest,
    r = g :: gs /\ s = g ++ rest /\ str_all cls g = true /\ k rest = Some gs
    /\ forall g1 g2, g = g1 ++ g2 -> g2 <> "" -> k (g2 ++ rest) = None.
Proof.
  induction s as [|a s IH]; intros r; simpl.
  - destruct (k "") as [gs|] eqn:K; [|discriminate]. intros [= <-].
    exists "", gs, "". repeat split; try assumption.
    intros [|? ?] [|? ?] E Hne; try discriminate E. congruence.
  - destruct (k (String a s)) as [gs|] eqn:K.
    + intros [= <-]. exists "", gs, (String a s). repeat split; try assumption.
      intros [|? ?] [|? ?] E Hne; try discriminate E. congruence.
    + destruct (cls a) eqn:C; [|discriminate].
      destruct (lazy_star cls k s) as [r'|] eqn:L; [|discriminate].
      cbn. intros [= <-].
      destruct (IH r' eq_refl) as (g & gs & rest & -> & -> & A & K' & M).
      exists (String a g), gs, rest. cbn. rewrite C, A.
      repeat split; try assumption.
      intros [|b g1] g2 E Hne; cbn in E.
      * subst g2. exact K.
      * injection E as _ E. now apply (M g1 g2).
Qed.

(** The capture of a last [(cls+)] is the longest one. *)
Lemma greedy_plus_last cls k :
  (forall s : string, k s = Some []) ->
  forall (s : string) r,
  greedy_plus cls k s = Some r ->
  exists g rest,
    r = [g] /\ s = g ++ rest /\ str_all cls g = true /\ g <> ""
    /\ match rest with String c _ => cls c = false | EmptyString => True end.
Proof.
  intros Hk. induction s as [|a s IH]; intros r; cbn [greedy_plus]; [discriminate|].
  destruct (cls a) eqn:C; [|discriminate].
  destruct (greedy_plus cls k s) as [r'|] eqn:G.
  - intros [= <-]. destruct (IH r' eq_refl) as (g & rest & -> & -> & A & Hne & Stop).
    exists (String a g), rest. cbn. rewrite C, A. now repeat split.
  - rewrite Hk. intros [= <-]. exists (String a ""), s. cbn. rewrite C.
    repeat split; [discriminate|].
    destruct s as [|b s]; [exact I|]. cbn [greedy_plus] in G.
    destruct (cls b); [|reflexivity].
    destruct (greedy_plus cls k s); [discriminate|].
    rewrite Hk in G. discriminate.
Qed.

(** A name line is matched with the captures [g] and [s] exactly when it
    starts with [1 NAME <g> /<s>/], where [g] holds no [ /] and [s] no [/]:
    the first [ /] ends the given names and the next [/] the surname. *)
Lemma name_re_exact (name g s : string) :
  re_match name_re name = Some [g; s] <->
  exists tail,
    name = "1 NAME " ++ g ++ " /" ++ s ++ "/" ++ tail
    /\ str_all is_dot g = true /\ contains " /" g = false
    /\ str_all is_dot s = true /\ contains "/" s = false.
Proof.
  split.
  - unfold name_re. intros H.
    apply re_match_lits_inv in H as (s1 & -> & H).
    change (re_match ([LazyStar is_dot] ++ ?p)%list)
      with (lazy_star is_dot (re_match p)) in H.
    apply lazy_star_minimal in H as (g0 & gs & r1 & E & -> & Dg & H & Mg).
    injection E as <- <-.
    apply re_match_lits_inv in H as (s2 & -> & H).
    change (re_match ([LazyStar is_dot] ++ ?p)%list)
      with (lazy_star is_dot (re_match p)) in H.
    apply lazy_star_minimal in H as (s0 & gs & r2 & E & -> & Ds & H & Ms).
    injection E as <- <-.
    rewrite <- (app_nil_r (lits "/")) in H.
    apply re_match_lits_inv in H as (tail & -> & _).
    exists tail. repeat split; try assumption.
    + destruct (contains " /" g) eqn:Cg; [|reflexivity].
      destruct (contains_split _ _ Cg) as (a & b & ->).
      specialize (Mg a (" /" ++ b) eq_refl ltac:(discriminate)).
      rewrite append_assoc, re_match_lits in Mg.
      change (re_match ([LazyStar is_dot] ++ ?p)%list)
        with (lazy_star is_dot (re_match p)) in Mg.
      rewrite !str_all_append in Dg.
      apply andb_true_iff in Dg as [_ Dg]. apply andb_true_iff in Dg as [_ Db].
      assert (K : lazy_star is_dot (re_match (lits "/"))
                    ((b ++ " /" ++ s) ++ "/" ++ tail) <> None).
      { apply (lazy_star_complete is_dot _ _ _ []).
        - rewrite !str_all_append, Db, Ds. reflexivity.
        - reflexivity. }
      rewrite !append_assoc in K. now destruct K.
    + destruct (contains "/" s) eqn:Cs; [|reflexivity].
      destruct (contains_split _ _ Cs) as (a & b & ->).
      specialize (Ms a ("/" ++ b) eq_refl ltac:(discriminate)).
      discriminate Ms.
  - intros (tail & -> & Dg & Sg & Ds & Ss). unfold name_re.
    rewrite re_match_lits.
    change (re_match ([LazyStar is_dot] ++ ?p)%list) with (lazy_star is_dot (re_match p)).
    apply lazy_star_first; [exact Dg | |].
    + intros g1 g2 -> Hne. apply re_match_lits_fail.
      apply separator_not_in_front; [exact Hne|].
      apply contains_prefix_false. eapply contains_suffix, Sg.
    + rewrite re_match_lits.
      change (re_match ([LazyStar is_dot] ++ ?p)%list) with (lazy_star is_dot (re_match p)).
      apply lazy_star_first; [exact Ds | | reflexivity].
      intros g1 g2 -> Hne.
      rewrite <- (app_nil_r (lits "/")). apply re_match_lits_fail.
      apply slash_not_in_front; [exact Hne|].
      apply contains_prefix_false. eapply contains_suffix, Ss.
Qed.

(** A date line is matched with the captures [d], [mon] and [y] exactly when
    it starts with [2 DATE <d> <mon> <y>], where [d] and [y] are runs of
    digits, [mon] a run of word characters and no digit follows [y]. *)
Lemma date_re_exact (birth_date d mon y : string) :
  re_match date_re birth_date = Some [d; mon; y] <->
  exists rest,
    birth_date = "2 DATE " ++ d ++ " " ++ mon ++ " " ++ y ++ rest
    /\ str_all is_decimal d = true /\ d <> ""
    /\ str_all is_word mon = true /\ mon <> ""
    /\ str_all is_decimal y = true /\ y <> ""
    /\ starts_with_digit rest = false.
Proof.
  split.
  - unfold date_re. intros H.
    apply re_match_lits_inv in H as (s1 & -> & H).
    change (re_match ([GreedyPlus is_decimal] ++ ?p)%list)
      with (greedy_plus is_decimal (re_match p)) in H.
    apply greedy_plus_sound in H as (d0 & gs & r1 & E & -> & Dd & Nd & H).
    injection E as <- <-.
    apply re_match_lits_inv in H as (s2 & -> & H).
    change (re_match ([GreedyPlus is_word] ++ ?p)%list)
      with (greedy_plus is_word (re_match p)) in H.
    apply greedy_plus_sound in H as (m0 & gs & r2 & E & -> & Dm & Nm & H).
    injection E as <- <-.
    apply re_match_lits_inv in H as (s3 & -> & H).
    change (re_match [GreedyPlus is_decimal])
      with (greedy_plus is_decimal (re_match [])) in H.
    apply greedy_plus_last in H as (y0 & rest & E & -> & Dy & Ny & Stop);
      [|reflexivity].
    injection E as <-.
    exists rest. repeat split; try assumption.
    destruct rest; [reflexivity | exact Stop].
  - intros (rest & -> & Dd & Nd & Dm & Nm & Dy & Ny & Stop). unfold date_re.
    rewrite re_match_lits.
    change (re_match ([GreedyPlus is_decimal] ++ ?p)%list)
      with (greedy_plus is_decimal (re_match p)).
    apply greedy_plus_longest; [exact Dd | exact Nd | reflexivity |].
    rewrite re_match_lits.
    change (re_match ([GreedyPlus is_word] ++ ?p)%list)
      with (greedy_plus is_word (re_match p)).
    apply greedy_plus_longest; [exact Dm | exact Nm | reflexivity |].
    rewrite re_match_lits.
    change (re_match [GreedyPlus is_decimal]) with (greedy_plus is_decimal (re_match [])).
    apply greedy_plus_longest; [exact Dy | exact Ny | | reflexivity].
    destruct rest; [exact I | exact Stop].
Qed.

Lemma name_re_two name gs :
  re_match name_re name = Some gs -> exists g s, gs = [g; s].
Proof.
  intros H. destruct (name_re_captures _ _ H) as (g & s & _ & -> & _). now exists g, s.
Qed.

Lemma date_re_three birth_date gs :
  re_match date_re birth_date = Some gs -> exists d mon y, gs = [d; mon; y].
Proof.
  intros H. destruct (date_re_captures _ _ H) as (d & mon & y & _ & -> & _).
  now exists d, mon, y.
Qed.

(** Text after a match does not change it. *)
Lemma name_re_tail (name tail : string) gs :
  re_match name_re name = Some gs -> re_match name_re (name ++ tail) = Some gs.
Proof.
  intros H. destruct (name_re_two _ _ H) as (g & s & ->).
  apply name_re_exact in H as (t0 & -> & C).
  apply name_re_exact. exists (t0 ++ tail). split; [|exact C].
  now normalize_append.
Qed.

Lemma date_re_tail (birth_date rest : string) gs :
  starts_with_digit rest = false ->
  re_match date_re birth_date = Some gs ->
  re_match date_re (birth_date ++ rest) = Some gs.
Proof.
  intros R H. destruct (date_re_three _ _ H) as (d & mon & y & ->).
  apply date_re_exact in H as (r0 & -> & Dd & Nd & Dm & Nm & Dy & Ny & Stop).
  apply date_re_exact. exists (r0 ++ rest).
  repeat split; try assumption; [now normalize_append|].
  destruct r0; [exact R | exact Stop].
Qed.

(** X2. When the name line and the date line match their patterns, text
    added after them does not change the identifier, as long as no digit is
    put right at the end of the date line. *)
Theorem trailing_text_ignored (name birth_date tail rest : string) :
  re_match name_re name <> None -> re_match date_re birth_date <> None ->
  starts_with_digit rest = false ->
  create_person_id (name ++ tail) (birth_date ++ rest)
  = create_person_id name birth_date.
Proof.
  intros N D R. rewrite !create_person_id_spec.
  destruct (re_match name_re name) as [gs|] eqn:En; [|congruence].
  destruct (re_match date_re birth_date) as [ds|] eqn:Ed; [|congruence].
  now rewrite (name_re_tail _ tail _ En), (date_re_tail _ rest _ R Ed).
Qed.

Lemma trailing_text_ignored_example :
  create_person_id ("1 NAME John /Smith/" ++ " /Jones/ jr") ("2 DATE 15 Jan 1980" ++ " (approx.)")
  = create_person_id "1 NAME John /Smith/" "2 DATE 15 Jan 1980".
Proof.
  apply trailing_text_ignored; [discriminate | discriminate | reflexivity].
Defined.

(** X3. A name line in which no [ /] follows the seven characters of
    [1 NAME ] gets no identifier: so it is for a person written with a
    surname only, [1 NAME /Smith/], and for a surname that no space
    precedes. *)
Theorem name_without_separator (name birth_date : string) :
  contains " /" (slice_from 7 name) = false ->
  create_person_id name birth_date = Ret None.
Proof.
  intros H. rewrite create_person_id_spec.
  destruct (re_match name_re name) as [gs|] eqn:N; [|reflexivity].
  destruct (name_re_captures _ _ N) as (g & s & rest & _ & E).
  rewrite E in H.
  change (slice_from 7 ("1 NAME " ++ ?x)) with x in H.
  now rewrite contains_append in H.
Qed.

Lemma name_without_separator_example :
  create_person_id "1 NAME /Smith/" "2 DATE 15 Jan 1980" = Ret None
  /\ create_person_id "1 NAME John/Smith/" "2 DATE 15 Jan 1980" = Ret None.
Proof.
  split; apply name_without_separator; reflexivity.
Defined.

(** X4. Two persons whose lines match, with days within the limit and
    months that resolve, get the same identifier exactly when their years
    are written the same, their months and days are the same numbers and
    their names give the same name part. *)
Theorem same_identifier (n1 d1 n2 d2 g1 s1 g2 s2 dd1 mon1 y1 dd2 mon2 y2 : string)
  (m1 m2 : Z) :
  re_match name_re n1 = Some [g1; s1] ->
  re_match date_re d1 = Some [dd1; mon1; y1] ->
  (String.length dd1 <= max_str_digits)%nat -> strptime_b mon1 = Ret m1 ->
  re_match name_re n2 = Some [g2; s2] ->
  re_match date_re d2 = Some [dd2; mon2; y2] ->
  (String.length dd2 <= max_str_digits)%nat -> strptime_b mon2 = Ret m2 ->
  create_person_id n1 d1 = create_person_id n2 d2
  <-> y1 = y2 /\ m1 = m2 /\ int_of_digits dd1 = int_of_digits dd2
      /\ name_part g1 s1 = name_part g2 s2.
Proof.
  intros N1 D1 L1 S1 N2 D2 L2 S2.
  rewrite (create_person_id_short _ _ _ _ _ _ _ N1 D1 L1), S1.
  rewrite (create_person_id_short _ _ _ _ _ _ _ N2 D2 L2), S2.
  split; [|now intros (-> & -> & -> & ->)].
  intros [= E].
  apply date_re_exact in D1 as (r1 & _ & Dd1 & _ & _ & _ & Dy1 & _).
  apply date_re_exact in D2 as (r2 & _ & Dd2 & _ & _ & _ & Dy2 & _).
  pose proof (strptime_b_range _ _ S1) as R1.
  pose proof (strptime_b_range _ _ S2) as R2.
  apply (cut_at_first is_decimal) in E as [Ey E]; [|assumption | assumption | reflexivity].
  apply (cut_at_first is_decimal) in E as [Em E];
    [| apply pad_02d_nonneg_digits; lia | apply pad_02d_nonneg_digits; lia
     | reflexivity].
  apply (cut_at_first is_decimal) in E as [Ed E];
    [| apply pad_02d_nonneg_digits, int_of_digits_nonneg, Dd1
     | apply pad_02d_nonneg_digits, int_of_digits_nonneg, Dd2
     | reflexivity].
  repeat split; [exact Ey | | | exact E].
  - now apply pad_02d_inj.
  - now apply pad_02d_inj.
Qed.

Lemma same_identifier_example :
  create_person_id "1 NAME John /Smith/" "2 DATE 5 JAN 1980"
  = create_person_id "1 NAME  john  /SMITH/ II" "2 DATE 05 jan 1980 (12:00)"
  <-> "1980" = "1980" /\ 1%Z = 1%Z /\ int_of_digits "5" = int_of_digits "05"
      /\ name_part "John" "Smith" = name_part " john " "SMITH".
Proof.
  apply (same_identifier _ _ _ _ "John" "Smith" " john " "SMITH"
           "5" "JAN" "1980" "05" "jan" "1980" 1 1);
    try (vm_compute; reflexivity); within_limit.
Defined.

(* ================================================================= *)
(** * Further properties of the downloads *)

Local Open Scope list_scope.
Local Open Scope Z_scope.

(** X5. [download_photo] returns [True] exactly when the request, the
    status check, the opening of the file, every write, the stream of
    chunks and the closing of the file succeed; the file is then opened
    once, receives the chunks of the response, all of them and in order, and
    is closed, and nothing is printed. *)
Theorem download_photo_succeeds env url filename t t' :
  download_photo env url filename t = (Ret true, t') <->
  exists resp,
    requests_get env (t ++ [Call_download_photo url filename]) url = Ret resp
    /\ status_error resp = None
    /\ os_open_write env (t ++ [Call_download_photo url filename; HttpGet url]) filename
       = None
    /\ writes_ok env
         (t ++ [Call_download_photo url filename; HttpGet url; OpenWrite filename])
         filename (chunks resp) = true
    /\ stream_error resp = None
    /\ os_close env
         (t ++ [Call_download_photo url filename; HttpGet url; OpenWrite filename]
            ++ map (FileWrite filename) (chunks resp)) filename = None
    /\ t' = t ++ [Call_download_photo url filename; HttpGet url; OpenWrite filename]
              ++ map (FileWrite filename) (chunks resp) ++ [Close filename].
Proof.
  assert (A : forall cs : list string,
             t ++ [Call_download_photo url filename; HttpGet url; OpenWrite filename]
               ++ map (FileWrite filename) cs
             = (((t ++ [Call_download_photo url filename]) ++ [HttpGet url])
                ++ [OpenWrite filename]) ++ map (FileWrite filename) cs)
    by (intros; now rewrite <- !app_assoc).
  assert (A' : forall cs : list string,
             t ++ [Call_download_photo url filename; HttpGet url; OpenWrite filename]
               ++ map (FileWrite filename) cs ++ [Close filename]
             = ((((t ++ [Call_download_photo url filename]) ++ [HttpGet url])
                 ++ [OpenWrite filename]) ++ map (FileWrite filename) cs)
               ++ [Close filename])
    by (intros; now rewrite <- !app_assoc).
  setoid_rewrite A. setoid_rewrite A'. clear A A'.
  replace (t ++ [Call_download_photo url filename; HttpGet url])
    with ((t ++ [Call_download_photo url filename]) ++ [HttpGet url])
    by now rewrite <- app_assoc.
  replace (t ++ [Call_download_photo url filename; HttpGet url; OpenWrite filename])
    with (((t ++ [Call_download_photo url filename]) ++ [HttpGet url])
          ++ [OpenWrite filename])
    by now rewrite <- !app_assoc.
  unfold download_photo, download_photo_try, closing, bind, emit, try_except,
    http_get, raise_for_status, syscall, print, emit.
  set (t1 := t ++ [Call_download_photo url filename]) in *.
  destruct (requests_get env t1 url) as [resp|e].
  - destruct (status_error resp) as [e|] eqn:St; unfold raise, ret.
    + split; [discriminate|]. intros (r & [= <-] & S & _). congruence.
    + destruct (os_open_write env (t1 ++ [HttpGet url]) filename) as [e|] eqn:Op.
      * split; [discriminate|]. intros (r & [= <-] & _ & O & _). congruence.
      * destruct (write_chunks env filename (chunks resp) (stream_error resp)
                    ((t1 ++ [HttpGet url]) ++ [OpenWrite filename]))
          as [[[]|e] t2] eqn:W.
        -- apply write_chunks_ok in W as (Wk & Se & ->).
           destruct (os_close env
                       (((t1 ++ [HttpGet url]) ++ [OpenWrite filename])
                        ++ map (FileWrite filename) (chunks resp)) filename)
             as [e|] eqn:Cl.
           ++ split; [discriminate|].
              intros (r & [= <-] & _ & _ & _ & _ & C & _). congruence.
           ++ split.
              ** intros [= <-]. exists resp. now repeat split.
              ** intros (r & [= <-] & _ & _ & _ & _ & _ & ->). reflexivity.
        -- assert (K : forall r, r = resp ->
                        writes_ok env ((t1 ++ [HttpGet url]) ++ [OpenWrite filename])
                          filename (chunks r) = true ->
                        stream_error r = None -> False).
           { intros r -> Wk Se.
             assert (K : write_chunks env filename (chunks resp) (stream_error resp)
                           ((t1 ++ [HttpGet url]) ++ [OpenWrite filename])
                         = (Ret tt, ((t1 ++ [HttpGet url]) ++ [OpenWrite filename])
                                      ++ map (FileWrite filename) (chunks resp)))
               by (apply write_chunks_ok; now repeat split).
             congruence. }
           destruct (os_close env t2 filename) as [e'|];
             (split; [discriminate|]);
             intros (r & [= R] & _ & _ & Wk & Se & _ & _);
             destruct (K r (eq_sym R) Wk Se).
  - split; [discriminate|]. intros (r & [=] & _).
Qed.




(** ** The URL of a photo line *)

Lemma rstrip_by_idem sp (s : string) :
  rstrip_by sp (rstrip_by sp s) = rstrip_by sp s.
Proof.
  induction s as [|c s IH]; [reflexivity|].
  cbn [rstrip_by]. destruct (rstrip_by sp s) as [|r0 r] eqn:R.
  - destruct (sp c) eqn:C; [reflexivity|]. cbn [rstrip_by]. now rewrite C.
  - change (rstrip_by sp (String c (String r0 r)))
      with (match rstrip_by sp (String r0 r) with
            | EmptyString => if sp c then EmptyString else String c EmptyString
            | x => String c x
            end).
    now rewrite IH.
Qed.

(** What stands after a prefix of a string without white space at its end
    has no white space at its end. *)
Lemma rstrip_by_suffix sp (a r : string) :
  rstrip_by sp (a ++ r)%string = (a ++ r)%string -> r <> ""%string ->
  rstrip_by sp r = r.
Proof.
  induction a as [|c a IH]; intros H Hne; [exact H|].
  cbn [append rstrip_by] in H.
  destruct (rstrip_by sp (a ++ r)%string) as [|x0 x] eqn:R.
  - destruct (sp c); [discriminate|]. injection H as H.
    destruct a; [cbn in H; congruence | discriminate].
  - injection H as H. now apply IH.
Qed.

(** X13. A photo line holds a URL: the stripped line is [2 FILE ] followed
    by the URL, which is not empty and has no white space at its end.  So a
    line [2 FILE] with nothing but white space after it is no photo line and
    asks for nothing. *)
Theorem photo_line_has_url (raw : string) :
  is_file_line raw = true ->
  strip raw = ("2 FILE " ++ photo_url raw)%string
  /\ photo_url raw <> ""%string
  /\ rstrip_by is_space (photo_url raw) = photo_url raw.
Proof.
  unfold is_file_line, photo_url. intros F.
  destruct (prefix_split _ _ F) as [r E].
  assert (Fix : rstrip_by is_space (strip raw) = strip raw)
    by apply rstrip_by_idem.
  rewrite E in *. change (slice_from 7 ("2 FILE " ++ r)%string) with r.
  assert (Hne : r <> ""%string).
  { intros ->. vm_compute in Fix. discriminate. }
  split; [reflexivity|]. split; [exact Hne|].
  now apply (rstrip_by_suffix is_space "2 FILE ").
Qed.

Lemma photo_line_has_url_example :
  (strip "  2 FILE  http://example.com/a.jpg  "
   = ("2 FILE " ++ photo_url "  2 FILE  http://example.com/a.jpg  ")%string
   /\ photo_url "  2 FILE  http://example.com/a.jpg  " <> ""%string
   /\ rstrip_by is_space (photo_url "  2 FILE  http://example.com/a.jpg  ")
      = photo_url "  2 FILE  http://example.com/a.jpg  ")
  /\ photo_url "  2 FILE  http://example.com/a.jpg  " = " http://example.com/a.jpg"%string
  /\ is_file_line "2 FILE   " = false.
Proof.
  split; [apply photo_line_has_url; reflexivity|]. split; reflexivity.
Defined.


(** ** The files of the downloads *)

(** The identifier and the number of a file are read back from its name. *)
Lemma target_inj (name1 date1 id1 name2 date2 id2 : string) n1 n2 :
  create_person_id name1 date1 = Ret (Some id1) ->
  create_person_id name2 date2 = Ret (Some id2) ->
  target id1 n1 = target id2 n2 -> id1 = id2 /\ n1 = n2.
Proof.
  intros E1 E2. rewrite (target_parts _ _ _ n1 E1), (target_parts _ _ _ n2 E2).
  intros [= E].
  assert (U : forall z, str_all (is_not "_") (pad_02d z ++ ".jpg") = true).
  { intros z. rewrite str_all_append. apply andb_true_iff. split; [|reflexivity].
    eapply str_all_impl; [|apply pad_02d_chars]. intros c. by_char c. }
  apply cut_at_last in E as [Ei E]; [|apply U | apply U].
  split; [exact Ei|].
  apply (cut_at_first (is_not ".")) in E as [E _]; [| | |reflexivity].
  - now apply pad_02d_inj.
  - eapply str_all_impl; [|apply pad_02d_chars]. intros c. by_char c.
  - eapply str_all_impl; [|apply pad_02d_chars]. intros c. by_char c.
Qed.

(** What one line asks for, and what it does to the counter. *)
Lemma request_cases photos_dir st raw :
  (request photos_dir st raw = []
   /\ (is_boundary raw = false -> photo_count (advance st raw) = photo_count st))
  \/ exists name birth_date id,
       create_person_id name birth_date = Ret (Some id)
       /\ request photos_dir st raw
          = [(photo_url raw,
              joinpath photos_dir
                (id ++ "_" ++ pad_02d (photo_count st + 1) ++ ".jpg")%string)]
       /\ photo_count (advance st raw) = photo_count st + 1.
Proof.
  unfold request, advance.
  destruct (is_boundary raw); [left; split; [reflexivity | discriminate]|].
  destruct (is_name_line raw); [now left|].
  destruct (is_date_line raw); [now left|].
  destruct (is_file_line raw); [|now left].
  destruct (derived_id st) as [id|] eqn:D; [|now left].
  apply derived_id_some in D as (name & birth_date & _ & _ & E).
  right. now exists name, birth_date, id.
Qed.



(** The lines that start with [Downloading ] in a trace where every call is
    announced are the announcements of its calls. *)
Lemma announced_prints : forall (n : nat) (t : trace),
  (List.length t <= n)%nat -> announced t ->
  filter (startswith "Downloading ") (prints t) = map announcement (calls t).
Proof.
  assert (Skip : forall l ev (t : trace),
             calls [ev] = [] ->
             startswith "Downloading " l = false ->
             filter (startswith "Downloading ") (prints (ev :: t))
             = map announcement (calls (ev :: t)) ->
             filter (startswith "Downloading ") (prints (Stdout l :: ev :: t))
             = map announcement (calls (Stdout l :: ev :: t))).
  { intros l ev t _ N H.
    change (prints (Stdout l :: ev :: t)) with (l :: prints (ev :: t)).
    change (calls (Stdout l :: ev :: t)) with (calls (ev :: t)).
    cbn [filter]. now rewrite N. }
  induction n as [|n IH]; intros t L A.
  { destruct t; [reflexivity | cbn in L; lia]. }
  destruct t as [|ev t]; [reflexivity|]. cbn [List.length] in L.
  destruct ev; cbn [announced] in A;
    try (change (prints (?e :: t)) with (prints t);
         change (calls (?e :: t)) with (calls t); apply IH; [lia | exact A]).
  - destruct t as [|ev' t'].
    + destruct A as [A _].
      change (filter (startswith "Downloading ") [line] = []).
      cbn [filter]. now rewrite A.
    + destruct ev';
        try (destruct A as [N A]; apply Skip;
             [reflexivity | exact N | apply IH; [lia | exact A]]).
      destruct A as [-> A].
      match goal with
      | |- context [prints (Stdout ?l :: Call_download_photo ?u ?f :: t')] =>
          change (prints (Stdout l :: Call_download_photo u f :: t'))
            with (l :: prints t');
          change (calls (Stdout l :: Call_download_photo u f :: t'))
            with ((u, f) :: calls t')
      end.
      cbn [filter map].
      replace (startswith "Downloading " (announcement (_, _))) with true
        by reflexivity.
      f_equal. apply IH; [cbn in *; lia | exact A].
  - destruct A.
Qed.

(** X8. However a scan ends, each call of [download_photo] comes right
    after the line [Downloading <url> to <file>] is printed for its URL
    and its file, and the scan prints no other line that starts with
    [Downloading ]: these lines are the announcements of the calls, one for
    each and in order. *)
Theorem downloads_are_announced env photos_dir (lines : list string) st t :
  exists r new,
    scan env photos_dir lines st t = (r, t ++ new)
    /\ announced new
    /\ filter (startswith "Downloading ") (prints new)
       = map announcement (calls new).
Proof.
  destruct (scan_events env photos_dir lines st t) as (new & E & _ & _ & _ & A & _).
  exists (scan_result st lines), new. split; [exact E|]. split; [exact A|].
  now apply (announced_prints (List.length new)).
Qed.

Lemma advance_count_monotone raw st :
  is_boundary raw = false -> photo_count st <= photo_count (advance st raw).
Proof.
  intros B.
  destruct (request_cases (Path_of "./photos") st raw)
    as [[_ H] | (_ & _ & _ & _ & _ & H)]; [rewrite (H B) | rewrite H]; lia.
Qed.

Lemma requests_above (lines : list string) : forall st,
  Forall (fun l => is_boundary l = false) lines ->
  Forall (fun c => exists name birth_date id n,
                     create_person_id name birth_date = Ret (Some id)
                     /\ snd c = target id n /\ photo_count st < n)
         (requests (Path_of "./photos") st lines).
Proof.
  induction lines as [|raw lines IH]; intros st B; [constructor|].
  apply Forall_cons_iff in B as [B0 B].
  cbn [requests]. destruct (line_error st raw); [constructor|].
  apply Forall_app. split.
  - destruct (request_cases (Path_of "./photos") st raw)
      as [[-> _] | (name & birth_date & id & E & -> & _)]; [constructor|].
    constructor; [|constructor]. cbn [snd].
    exists name, birth_date, id, (photo_count st + 1).
    rewrite (target_joinpath _ _ _ _ E). repeat split; [exact E | lia].
  - eapply Forall_impl; [|apply (IH _ B)].
    intros c (name & birth_date & id & n & E & T & L).
    exists name, birth_date, id, n. repeat split; try assumption.
    pose proof (advance_count_monotone raw st B0). lia.
Qed.

Lemma requests_distinct (lines : list string) : forall st,
  Forall (fun l => is_boundary l = false) lines ->
  NoDup (map snd (requests (Path_of "./photos") st lines)).
Proof.
  induction lines as [|raw lines IH]; intros st B; [constructor|].
  pose proof B as B'. apply Forall_cons_iff in B' as [B0 B1].
  cbn [requests]. destruct (line_error st raw); [constructor|].
  destruct (request_cases (Path_of "./photos") st raw)
    as [[-> _] | (name & birth_date & id & E & -> & Cnt)]; [apply (IH _ B1)|].
  cbn [app map snd]. constructor; [|apply (IH _ B1)].
  intros H. apply in_map_iff in H as (c & T & H).
  pose proof (requests_above lines (advance st raw) B1) as A.
  apply (proj1 (Forall_forall _ _) A) in H as (name' & date' & id' & n & E' & T' & L).
  rewrite T', (target_joinpath _ _ _ _ E) in T.
  apply (target_inj _ _ _ _ _ _ _ _ E' E) in T as [_ ->]. lia.
Qed.

(** X9. Within one record, that is in a run of lines without a person
    boundary, no two calls of [download_photo] are for the same file,
    however the scan ends: a photo never replaces an earlier photo of the
    same record. *)
Theorem no_overwrite_within_record env (lines : list string) st t :
  Forall (fun l => is_boundary l = false) lines ->
  exists r new,
    scan env (Path_of "./photos") lines st t = (r, t ++ new)
    /\ NoDup (map snd (calls new)).
Proof.
  intros B.
  destruct (scan_events env (Path_of "./photos") lines st t) as (new & E & C & _).
  exists (scan_result st lines), new. split; [exact E|].
  rewrite C. now apply requests_distinct.
Qed.

Lemma no_overwrite_within_record_example :
  exists r new,
    scan friendly (Path_of "./photos")
      ["1 NAME John /Smith/"; "2 DATE 15 Jan 1980"; "2 FILE http://example.com/a.jpg";
       "1 NAME Johnny /Smith/"; "2 FILE http://example.com/a.jpg"]
      initial_state []
    = (r, [] ++ new)
    /\ NoDup (map snd (calls new)).
Proof.
  apply no_overwrite_within_record. repeat constructor.
Defined.

(** ** Records, and the lines that are none of the four kinds *)

Lemma process_line_boundary env photos_dir st st' b t :
  is_boundary b = true ->
  process_line env photos_dir st b t = process_line env photos_dir st' b t.
Proof.
  unfold is_boundary, process_line. intros B. now rewrite B.
Qed.

(** X10. When the scan of the lines before a person boundary returns, the
    scan of the whole goes on as a scan of the boundary and of the lines
    after it that starts afresh: nothing of the lines before a boundary is
    used after it.  What the lines from the boundary on lead to, a state or
    an exception, and the calls they make are the same in every outside
    world and after every trace. *)
Theorem records_are_independent env photos_dir (before : list string) b
  (record : list string) st t st1 t1 :
  is_boundary b = true ->
  scan env photos_dir before st t = (Ret st1, t1) ->
  scan env photos_dir (before ++ b :: record) st t
  = scan env photos_dir (b :: record) initial_state t1
  /\ forall env' t',
       exists r new new',
         scan env photos_dir (b :: record) initial_state t1 = (r, t1 ++ new)
         /\ scan env' photos_dir (b :: record) initial_state t' = (r, t' ++ new')
         /\ calls new = calls new'.
Proof.
  intros B E. split.
  - rewrite scan_app. unfold bind at 1. rewrite E. cbn [scan]. unfold bind.
    now rewrite (process_line_boundary env photos_dir st1 initial_state b t1 B).
  - intros env' t'.
    destruct (scan_events env photos_dir (b :: record) initial_state t1)
      as (new & E1 & C1 & _).
    destruct (scan_events env' photos_dir (b :: record) initial_state t')
      as (new' & E2 & C2 & _).
    exists (scan_result initial_state (b :: record)), new, new'.
    split; [exact E1|]. split; [exact E2|]. now rewrite C1, C2.
Qed.

(** A person listed twice: the photos of the second record go to the files
    of the first. *)
Lemma records_are_independent_example :
  scan friendly (Path_of "./photos") (scenario ++ "0 @I2@ INDI" :: tl scenario)
    initial_state []
  = scan friendly (Path_of "./photos") ("0 @I2@ INDI" :: tl scenario) initial_state
      (snd (scan friendly (Path_of "./photos") scenario initial_state []))
  /\ forall env' t',
       exists r new new',
         scan friendly (Path_of "./photos") ("0 @I2@ INDI" :: tl scenario)
           initial_state
           (snd (scan friendly (Path_of "./photos") scenario initial_state []))
         = (r, snd (scan friendly (Path_of "./photos") scenario initial_state [])
               ++ new)
         /\ scan env' (Path_of "./photos") ("0 @I2@ INDI" :: tl scenario)
              initial_state t'
            = (r, t' ++ new')
         /\ calls new = calls new'.
Proof.
  apply (records_are_independent friendly (Path_of "./photos") scenario
           "0 @I2@ INDI" (tl scenario) initial_state []
           {| current_person := Some "0 @I1@ INDI";
              current_name := Some "1 NAME John /Smith/";
              current_birth_date := Some "2 DATE 15 Jan 1980";
              photo_count := 2 |}).
  - reflexivity.
  - vm_compute. reflexivity.
Defined.

Lemma process_line_other env photos_dir st raw t :
  is_relevant raw = false -> process_line env photos_dir st raw t = (Ret st, t).
Proof.
  unfold is_relevant, is_boundary, is_name_line, is_date_line, is_file_line,
    process_line.
  intros H. apply orb_false_iff in H as [H F]. apply orb_false_iff in H as [H D].
  apply orb_false_iff in H as [B N]. now rewrite B, N, D, F.
Qed.

(** X11. The lines that are no person boundary, no name line, no date line
    and no photo line can be taken out of the file: the scan does the same
    and ends in the same state.  So the line of the event a date stands
    under plays no part. *)
Theorem scan_skips_other_lines env photos_dir (lines : list string) : forall st t,
  scan env photos_dir (filter is_relevant lines) st t
  = scan env photos_dir lines st t.
Proof.
  induction lines as [|raw lines IH]; intros st t; [reflexivity|].
  cbn [filter]. destruct (is_relevant raw) eqn:R.
  - cbn [scan]. unfold bind.
    destruct (process_line env photos_dir st raw t) as [[st'|e] t'];
      [apply IH | reflexivity].
  - cbn [scan]. unfold bind. rewrite (process_line_other _ _ _ _ _ R). apply IH.
Qed.

(** ** The exit status *)

(** X12. [main] ends with status 0 exactly when the file exists and is
    readable, the directory of the photos can be made, the file is opened
    and read to its end, and no line of it makes the loop raise; it ends
    with status 1 otherwise.  Whether a download succeeded plays no part. *)
Theorem main_exit_status env (ged_file : string) t :
  (exit_status (fst (main env ged_file t)) = 0
   <-> os_path_exists env ged_file = true
       /\ os_access_read env ged_file = true
       /\ os_mkdir env t (Path_of "./photos") = None
       /\ exists lines,
            os_open_read env (t ++ [Mkdir (Path_of "./photos")]) ged_file
            = Ret (lines, None)
            /\ scan_error initial_state lines = None)
  /\ (exit_status (fst (main env ged_file t)) = 0
      \/ exit_status (fst (main env ged_file t)) = 1).
Proof.
  unfold main, bind. rewrite validate_file_cases.
  destruct (os_path_exists env ged_file); cbn [negb].
  2:{ unfold ret. cbn. split; [|now right]. split; [discriminate|].
      now intros ([=] & _). }
  destruct (os_access_read env ged_file); cbn [negb].
  2:{ unfold ret. cbn. split; [|now right]. split; [discriminate|].
      now intros (_ & [=] & _). }
  unfold process_gedcom_file, bind, syscall.
  destruct (os_mkdir env t (Path_of "./photos")) as [e|].
  { cbn. split; [|now right]. split; [discriminate|]. now intros (_ & _ & [=] & _). }
  destruct (os_open_read env (t ++ [Mkdir (Path_of "./photos")]) ged_file)
    as [[lines stop]|e].
  2:{ cbn. split; [|now right]. split; [discriminate|].
      now intros (_ & _ & _ & lines & [=] & _). }
  cbn [fst snd].
  destruct (scan_events env (Path_of "./photos") lines initial_state
              ((t ++ [Mkdir (Path_of "./photos")]) ++ [OpenRead ged_file]))
    as (new & -> & _).
  unfold scan_result.
  destruct (scan_error initial_state lines) as [e'|] eqn:Se.
  - cbn. split; [|now right]. split; [discriminate|].
    intros (_ & _ & _ & lines' & [= <-] & Se'). congruence.
  - destruct stop as [e|]; unfold raise, ret; cbn.
    + split; [|now right]. split; [discriminate|].
      now intros (_ & _ & _ & lines' & [=] & _).
    + split; [|now left]. split; [|reflexivity]. intros _.
      repeat split. now exists lines.
Qed.
